(** * Titan Cargo backend: authentication contract and booking lifecycle

    A shallow embedding of the Express/Mongoose server of this repository
    (the full backend with its controllers, models and middleware), together
    with the properties of its authentication gate, token handling, booking
    controller and dashboard aggregation, and of the stand-alone mock variant
    of the server.

    Conventions of the embedding:
    - The document store is explicit state ([World]); every controller is a
      function from the store to a response and a new store.  A [try]/[catch]
      block is a computation in a small state-and-exception monad whose
      exceptions carry the JavaScript [error.message].
    - The clock ([Date.now()], milliseconds), the bcrypt salt and the random
      suffix of the airway bill are inputs of a handler ([Env]).
    - The libraries the server calls but does not contain are taken as they
      behave: [jsonwebtoken] stamps tokens in whole seconds, [bcryptjs]
      rejects non-string arguments, Mongoose validates on [save()] but not on
      [findByIdAndUpdate], and [populate] replaces a reference by the
      referenced document.  The wire format of a token and the bcrypt digest
      are parameters of the development.
    - A price is an IEEE-754 double, as a JavaScript number and the value
      MongoDB adds up are; the other numbers (weights, counts, and dates as
      milliseconds) are only stored and passed on, and are integers. *)

From Stdlib Require Import ZArith NArith List String Ascii Bool Lia.
From Stdlib Require Import DecimalString.
From Stdlib Require Import Permutation Sorted.
From Stdlib Require Import Floats.
Import ListNotations.

Local Open Scope string_scope.
Local Open Scope Z_scope.

Set Warnings "-register-all".

(* ================================================================== *)
(** ** JavaScript values that reach a response

    A number is [JNum] when the server only stores or counts it (a count, a
    weight, a date in milliseconds) and [JDouble] when it is a price or a
    total of prices, which the server's arithmetic produces as a double. *)

Inductive json : Type :=
| JNull
| JBool (b : bool)
| JNum (z : Z)
| JDouble (f : float)
| JStr (s : string)
| JArr (items : list json)
| JObj (fields : list (string * json)).

Fixpoint assoc {A : Type} (k : string) (l : list (string * A)) : option A :=
  match l with
  | [] => None
  | (k', v) :: l' => if String.eqb k k' then Some v else assoc k l'
  end.

(** [j.k] for a JSON object, [None] standing for [undefined]. *)
Definition field (k : string) (j : json) : option json :=
  match j with
  | JObj fs => assoc k fs
  | _ => None
  end.

(** [JSON.stringify] of a double: [NaN] and the infinities are written
    [null], and a zero of either sign [0]. *)
Definition json_double (f : float) : json :=
  if PrimFloat.is_finite f
  then if PrimFloat.is_zero f then JDouble 0 else JDouble f
  else JNull.

(** An optional string property of a response object. *)
Definition jopt (o : option string) : json :=
  match o with
  | Some s => JStr s
  | None => JNull
  end.

(** [res.status(code).json(body)] *)
Record Response : Type := mkResponse {
  status : Z;
  body : json
}.

Definition error_body (msg : string) : json := JObj [("error", JStr msg)].

(* ================================================================== *)
(** ** Object ids

    A Mongo [ObjectId] is a 96-bit number; its string form (what
  [toString()] and JSON serialisation give) is 24 hexadecimal digits. *)

Definition ObjectId : Type := N.

Definition hex_digit (n : N) : ascii :=
  nth (N.to_nat n)
      ["0"; "1"; "2"; "3"; "4"; "5"; "6"; "7";
       "8"; "9"; "a"; "b"; "c"; "d"; "e"; "f"]%char "0"%char.

Fixpoint hex_fixed (digits : nat) (n : N) (acc : string) : string :=
  match digits with
  | O => acc
  | S d => hex_fixed d (N.div n 16) (String (hex_digit (N.modulo n 16)) acc)
  end.

Definition oid_hex (o : ObjectId) : string := hex_fixed 24 o "".

(** Decimal rendering of a timestamp, as string concatenation does. *)
Definition dec (z : Z) : string := NilZero.string_of_int (Z.to_int z).

(* ================================================================== *)
(** ** [String.prototype.split] on a one-character separator *)

Fixpoint split_on (sep : ascii) (s : string) : list string :=
  match s with
  | EmptyString => [EmptyString]
  | String c s' =>
      if Ascii.eqb c sep then EmptyString :: split_on sep s'
      else match split_on sep s' with
           | [] => [String c EmptyString]
           | w :: ws => String c w :: ws
           end
  end.

(** JavaScript truthiness of a value that is a string or [undefined]. *)
Definition truthy (v : option string) : bool :=
  match v with
  | None => false
  | Some s => negb (String.eqb s "")
  end.

(** [a && f(a)] for a string-or-undefined [a]: a falsy [a] is the result. *)
Definition js_and (a : option string) (f : string -> option string)
  : option string :=
  if truthy a then match a with Some s => f s | None => None end else a.

(* ================================================================== *)
(** ** Configuration and per-request environment *)

Record Config : Type := mkConfig {
  mongoURI : string;
  jwtSecret : string;
  environment : string
}.

Record Env : Type := mkEnv {
  now : Z;          (* Date.now(), milliseconds since the epoch *)
  salt : string;    (* the salt bcrypt.hash draws *)
  rnd : string      (* Math.random().toString(36).substr(2, 5).toUpperCase() *)
}.

(* ================================================================== *)
(** ** Tokens ([jsonwebtoken]) *)

(** The decoded payload ([req.user] once the gate has run): the three claims
    given to [jwt.sign] plus the registered [iat] and [exp] fields, both in
    seconds. *)
Module Token.
Record Payload : Type := mk {
  userId : ObjectId;
  email : string;
  role : string;
  iat : Z;
  exp : Z
}.
End Token.

(** A signed token before serialisation.  The HMAC is represented by the key
    that produced it: a signature matches exactly when the keys agree. *)
Record Jws : Type := mkJws {
  payload : Token.Payload;
  signedWith : string
}.

Inductive JwtError : Type :=
| JsonWebTokenError (message : string)
| TokenExpiredError (message : string) (expiredAt : Z).

(** [ms('24h')] *)
Definition ms_24h : Z := 24 * 60 * 60 * 1000.

(** [Math.floor(Date.now() / 1000)] *)
Definition clockTimestamp (now_ms : Z) : Z := now_ms / 1000.

(** [timespan(expiresIn, iat)]: [Math.floor(iat + ms(expiresIn) / 1000)] *)
Definition timespan (expiresIn_ms : Z) (iat_s : Z) : Z :=
  iat_s + expiresIn_ms / 1000.

(** The payload [jwt.sign(claims, key, { expiresIn })] signs at [now_ms]. *)
Definition stamp (uid : ObjectId) (mail rl : string)
           (expiresIn_ms : Z) (now_ms : Z) : Token.Payload :=
  let timestamp := clockTimestamp now_ms in
  {| Token.userId := uid; Token.email := mail; Token.role := rl;
     Token.iat := timestamp;
     Token.exp := timespan expiresIn_ms timestamp |}.

(* ================================================================== *)
(** ** Models (the four Mongoose schemas)

    A stored document has every required path of its schema (they were
    checked when it was saved).  A path with an [enum] is a plain string:
    the enum is a validator, run by [save()] only.  A price is a double;
    weights and dates (as milliseconds) are integers. *)

Module User.
Record t : Type := mk {
  _id : ObjectId;
  name : string;
  email : string;
  password : string;
  role : string;
  phone : option string;
  address : option string;
  createdAt : Z;
  lastLogin : option Z
}.

Definition roles : list string := ["admin"; "user"; "driver"; "pilot"].

(** What [new User(...)] builds: the given paths, a fresh [_id] and the
    schema defaults. *)
Record draft : Type := mkDraft {
  d_id : ObjectId;
  d_name : option string;
  d_email : string;
  d_password : string;
  d_role : string;
  d_phone : option string;
  d_address : option string;
  d_createdAt : Z
}.
End User.

Module Booking.
Record t : Type := mk {
  _id : ObjectId;
  airwayBill : string;
  clientId : ObjectId;
  description : string;
  weight : Z;
  dimensions : option (Z * Z * Z);
  type : string;
  from : string;
  to : string;
  departureDate : Z;
  arrivalDate : Z;
  status : string;
  price : float;
  paymentStatus : string;
  createdAt : Z;
  updatedAt : Z
}.

Definition types : list string :=
  ["general"; "hazardous"; "perishable"; "valuable"].
Definition statuses : list string :=
  ["pending"; "confirmed"; "in-transit"; "delivered"; "cancelled"].
Definition paymentStatuses : list string := ["pending"; "paid"; "refunded"].

(** [req.body.cargoDetails] and [req.body.route] as they arrive. *)
Record cargoInput : Type := mkCargo {
  i_description : option string;
  i_weight : option Z;
  i_dimensions : option (Z * Z * Z);
  i_type : option string
}.

Record routeInput : Type := mkRoute {
  i_from : option string;
  i_to : option string;
  i_departureDate : option Z;
  i_arrivalDate : option Z
}.

Record draft : Type := mkDraft {
  d_id : ObjectId;
  d_airwayBill : string;
  d_clientId : ObjectId;
  d_cargoDetails : option cargoInput;
  d_route : option routeInput;
  d_status : string;
  d_price : option float;
  d_paymentStatus : string;
  d_createdAt : Z;
  d_updatedAt : Z
}.
End Booking.

Module Vehicle.
Record t : Type := mk {
  _id : ObjectId;
  vehicleId : string;
  type : string;
  model : option string;
  capacity : option Z;
  status : string;
  currentLocation : option string;
  assignedDriver : option ObjectId
}.

Definition types : list string := ["plane"; "ship"; "train"; "truck"].
Definition statuses : list string := ["operating"; "maintenance"; "grounded"].
End Vehicle.

Module Trip.
Record t : Type := mk {
  _id : ObjectId;
  tripId : string;
  vehicleId : ObjectId;
  driverId : ObjectId;
  coDriverId : option ObjectId;
  bookings : list ObjectId;
  from : option string;
  to : option string;
  departureTime : option Z;
  arrivalTime : option Z;
  fuelUsed : option Z;
  distance : option Z;
  status : string;
  createdAt : Z
}.

Definition statuses : list string :=
  ["scheduled"; "in-progress"; "completed"; "cancelled"].

Record draft : Type := mkDraft {
  d_id : ObjectId;
  d_tripId : string;
  d_vehicleId : option ObjectId;
  d_driverId : option ObjectId;
  d_coDriverId : option ObjectId;
  d_bookings : list ObjectId;
  d_from : option string;
  d_to : option string;
  d_departureTime : option Z;
  d_arrivalTime : option Z;
  d_status : string;
  d_createdAt : Z
}.
End Trip.

(* ================================================================== *)
(** ** The store and the handler monad *)

Inductive Collection : Type := Users | Bookings | Trips | Vehicles.

(** The four collections, the next fresh [ObjectId], and the log of the
    collections queried so far (one entry per store round trip). *)
Record World : Type := mkWorld {
  users : list User.t;
  bookings : list Booking.t;
  trips : list Trip.t;
  vehicles : list Vehicle.t;
  nextId : ObjectId;
  queries : list Collection
}.

(** The outcome of a step inside [try { ... }]: a value, or a thrown
    [Error] with its [message]. *)
Inductive Result (A : Type) : Type :=
| Ok (a : A)
| Throw (message : string).
Arguments Ok {A} a.
Arguments Throw {A} message.

Definition M (A : Type) : Type := World -> Result A * World.

Definition ret {A : Type} (a : A) : M A := fun w => (Ok a, w).

Definition throw {A : Type} (message : string) : M A :=
  fun w => (Throw message, w).

Definition bind {A B : Type} (m : M A) (k : A -> M B) : M B :=
  fun w =>
    match m w with
    | (Ok a, w') => k a w'
    | (Throw e, w') => (Throw e, w')
    end.

Declare Scope handler_scope.
Delimit Scope handler_scope with handler.
Notation "x <- m ;; k" := (bind m (fun x => k))
  (at level 100, m at next level, right associativity) : handler_scope.
Notation "m ;;; k" := (bind m (fun _ => k))
  (at level 100, right associativity) : handler_scope.
Local Open Scope handler_scope.

(** The store after one more round trip to a collection. *)
Definition logged (c : Collection) (w : World) : World :=
  {| users := users w; bookings := bookings w; trips := trips w;
     vehicles := vehicles w; nextId := nextId w;
     queries := queries w ++ [c] |}.

(** The store after an [ObjectId] has been drawn. *)
Definition fresh (w : World) : World :=
  {| users := users w; bookings := bookings w; trips := trips w;
     vehicles := vehicles w; nextId := N.succ (nextId w);
     queries := queries w |}.

Definition with_users (us : list User.t) (w : World) : World :=
  {| users := us; bookings := bookings w; trips := trips w;
     vehicles := vehicles w; nextId := nextId w; queries := queries w |}.

Definition with_bookings (bs : list Booking.t) (w : World) : World :=
  {| users := users w; bookings := bs; trips := trips w;
     vehicles := vehicles w; nextId := nextId w; queries := queries w |}.

Definition with_trips (ts : list Trip.t) (w : World) : World :=
  {| users := users w; bookings := bookings w; trips := ts;
     vehicles := vehicles w; nextId := nextId w; queries := queries w |}.

Definition with_vehicles (vs : list Vehicle.t) (w : World) : World :=
  {| users := users w; bookings := bookings w; trips := trips w;
     vehicles := vs; nextId := nextId w; queries := queries w |}.

(** One round trip to a collection. *)
Definition query (c : Collection) : M unit := fun w => (Ok tt, logged c w).

(** A fresh [_id] for a new document. *)
Definition freshId : M ObjectId := fun w => (Ok (nextId w), fresh w).

Definition getUsers : M (list User.t) := fun w => (Ok (users w), w).
Definition getBookingsColl : M (list Booking.t) := fun w => (Ok (bookings w), w).
Definition getTripsColl : M (list Trip.t) := fun w => (Ok (trips w), w).
Definition getVehiclesColl : M (list Vehicle.t) := fun w => (Ok (vehicles w), w).

Definition putUsers (us : list User.t) : M unit :=
  fun w => (Ok tt, with_users us w).

Definition putBookings (bs : list Booking.t) : M unit :=
  fun w => (Ok tt, with_bookings bs w).

Definition putTrips (ts : list Trip.t) : M unit :=
  fun w => (Ok tt, with_trips ts w).

Definition putVehicles (vs : list Vehicle.t) : M unit :=
  fun w => (Ok tt, with_vehicles vs w).

(** [try { body } catch (error) { res.status(500).json({ error: error.message }) }] *)
Definition try_catch (handler_body : M Response) : World -> Response * World :=
  fun w =>
    match handler_body w with
    | (Ok r, w') => (r, w')
    | (Throw message, w') => (mkResponse 500 (error_body message), w')
    end.

(* ================================================================== *)
(** ** Mongoose: validators, queries and updates *)

Definition member (s : string) (allowed : list string) : bool :=
  existsb (String.eqb s) allowed.

Fixpoint join (sep : string) (l : list string) : string :=
  match l with
  | [] => ""
  | [x] => x
  | x :: l' => x ++ sep ++ join sep l'
  end.

(** The [required] validator; for a string path the empty string fails too. *)
Definition required_string (path : string) (v : option string) : list string :=
  if truthy v then [] else [path ++ ": Path `" ++ path ++ "` is required."].

Definition required_value {A : Type} (path : string) (v : option A)
  : list string :=
  match v with
  | Some _ => []
  | None => [path ++ ": Path `" ++ path ++ "` is required."]
  end.

(** The [enum] validator of a string path. *)
Definition enum_validator (path : string) (allowed : list string) (v : string)
  : list string :=
  if member v allowed then []
  else [path ++ ": `" ++ v ++ "` is not a valid enum value for path `"
             ++ path ++ "`."].

(** [doc.validate()]: a [ValidationError] listing every failing path. *)
Definition validate (model : string) (errors : list string) : M unit :=
  match errors with
  | [] => ret tt
  | _ => throw (model ++ " validation failed: " ++ join ", " errors)
  end.

Definition duplicate_key (index value : string) : string :=
  "E11000 duplicate key error index: " ++ index ++ " dup key: " ++ value.

Definition oid_eqb (a b : ObjectId) : bool := N.eqb a b.

(** Replace the first element satisfying [p] by its image under [f]. *)
Fixpoint update_first {A : Type} (p : A -> bool) (f : A -> A) (l : list A)
  : list A :=
  match l with
  | [] => []
  | x :: l' => if p x then f x :: l' else x :: update_first p f l'
  end.

(** A path given a value takes it; an [undefined] one keeps what is there
    (a schema default at construction, the stored value in an update). *)
Definition or_keep {A : Type} (v : option A) (old : A) : A :=
  match v with
  | Some a => a
  | None => old
  end.

Definition or_keep_opt {A : Type} (v : option A) (old : option A) : option A :=
  match v with
  | Some a => Some a
  | None => old
  end.

(** *** User *)

(** [new User({ name, email, password, role, phone, address })] *)
Definition User_new (e : Env) (nm : option string) (mail pw : string)
           (rl ph addr : option string) : M User.draft :=
  id <- freshId ;;
  ret {| User.d_id := id; User.d_name := nm; User.d_email := mail;
         User.d_password := pw;
         User.d_role := or_keep rl "user";
         User.d_phone := ph; User.d_address := addr;
         User.d_createdAt := now e |}.

Definition User_errors (d : User.draft) : list string :=
  required_string "name" (User.d_name d)
  ++ required_string "email" (Some (User.d_email d))
  ++ required_string "password" (Some (User.d_password d))
  ++ enum_validator "role" User.roles (User.d_role d).

Definition User_of_draft (d : User.draft) : User.t :=
  {| User._id := User.d_id d;
     User.name := or_keep (User.d_name d) "";
     User.email := User.d_email d;
     User.password := User.d_password d;
     User.role := User.d_role d;
     User.phone := User.d_phone d;
     User.address := User.d_address d;
     User.createdAt := User.d_createdAt d;
     User.lastLogin := None |}.

(** [User.findOne({ email })] *)
Definition User_findOne_email (mail : string) : M (option User.t) :=
  query Users ;;;
  us <- getUsers ;;
  ret (find (fun u => String.eqb (User.email u) mail) us).

(** [User.findById(id)] *)
Definition User_findById (id : ObjectId) : M (option User.t) :=
  query Users ;;;
  us <- getUsers ;;
  ret (find (fun u => oid_eqb (User._id u) id) us).

(** [user.save()] on a new document: validate, then insert under the unique
    index on [email]. *)
Definition User_save_new (d : User.draft) : M User.t :=
  validate "User" (User_errors d) ;;;
  query Users ;;;
  us <- getUsers ;;
  if existsb (fun u => String.eqb (User.email u) (User.d_email d)) us
  then throw (duplicate_key "email_1" (User.d_email d))
  else putUsers (us ++ [User_of_draft d]) ;;; ret (User_of_draft d).

(** The validators of the schema on a loaded document: every path read from
    the store is checked again. *)
Definition User_stored_errors (u : User.t) : list string :=
  required_string "name" (Some (User.name u))
  ++ required_string "email" (Some (User.email u))
  ++ required_string "password" (Some (User.password u))
  ++ enum_validator "role" User.roles (User.role u).

(** [user.save()] on a loaded document: validate, then write the document
    back. *)
Definition User_save (u : User.t) : M unit :=
  validate "User" (User_stored_errors u) ;;;
  query Users ;;;
  us <- getUsers ;;
  putUsers (update_first (fun x => oid_eqb (User._id x) (User._id u))
                         (fun _ => u) us).

(** [User.findByIdAndUpdate(id, { name, phone, address }, { new: true })];
    [undefined] paths are dropped from the update, and update validators are
    off. *)
Definition User_findByIdAndUpdate (id : ObjectId) (nm ph addr : option string)
  : M (option User.t) :=
  query Users ;;;
  us <- getUsers ;;
  match find (fun u => oid_eqb (User._id u) id) us with
  | None => ret None
  | Some u =>
      let u' := {| User._id := User._id u;
                   User.name := or_keep nm (User.name u);
                   User.email := User.email u;
                   User.password := User.password u;
                   User.role := User.role u;
                   User.phone := or_keep_opt ph (User.phone u);
                   User.address := or_keep_opt addr (User.address u);
                   User.createdAt := User.createdAt u;
                   User.lastLogin := User.lastLogin u |} in
      putUsers (update_first (fun x => oid_eqb (User._id x) id)
                             (fun _ => u') us) ;;;
      ret (Some u')
  end.

(** *** Booking *)

(** [new Booking({ airwayBill, clientId, cargoDetails, route, price })] *)
Definition Booking_new (e : Env) (awb : string) (client : ObjectId)
           (cargo : option Booking.cargoInput)
           (route : option Booking.routeInput) (pr : option float)
  : M Booking.draft :=
  id <- freshId ;;
  ret {| Booking.d_id := id; Booking.d_airwayBill := awb;
         Booking.d_clientId := client;
         Booking.d_cargoDetails := cargo; Booking.d_route := route;
         Booking.d_status := "pending";
         Booking.d_price := pr;
         Booking.d_paymentStatus := "pending";
         Booking.d_createdAt := now e; Booking.d_updatedAt := now e |}.

Definition cargo_path {A : Type} (d : Booking.draft)
           (f : Booking.cargoInput -> option A) : option A :=
  match Booking.d_cargoDetails d with
  | Some c => f c
  | None => None
  end.

Definition route_path {A : Type} (d : Booking.draft)
           (f : Booking.routeInput -> option A) : option A :=
  match Booking.d_route d with
  | Some r => f r
  | None => None
  end.

Definition Booking_type (d : Booking.draft) : string :=
  or_keep (cargo_path d Booking.i_type) "general".

Definition Booking_errors (d : Booking.draft) : list string :=
  required_string "airwayBill" (Some (Booking.d_airwayBill d))
  ++ required_string "cargoDetails.description"
       (cargo_path d Booking.i_description)
  ++ required_value "cargoDetails.weight" (cargo_path d Booking.i_weight)
  ++ enum_validator "cargoDetails.type" Booking.types (Booking_type d)
  ++ required_string "route.from" (route_path d Booking.i_from)
  ++ required_string "route.to" (route_path d Booking.i_to)
  ++ required_value "route.departureDate"
       (route_path d Booking.i_departureDate)
  ++ required_value "route.arrivalDate" (route_path d Booking.i_arrivalDate)
  ++ enum_validator "status" Booking.statuses (Booking.d_status d)
  ++ required_value "price" (Booking.d_price d)
  ++ enum_validator "paymentStatus" Booking.paymentStatuses
       (Booking.d_paymentStatus d).

Definition Booking_of_draft (d : Booking.draft) : Booking.t :=
  {| Booking._id := Booking.d_id d;
     Booking.airwayBill := Booking.d_airwayBill d;
     Booking.clientId := Booking.d_clientId d;
     Booking.description := or_keep (cargo_path d Booking.i_description) "";
     Booking.weight := or_keep (cargo_path d Booking.i_weight) 0;
     Booking.dimensions := cargo_path d Booking.i_dimensions;
     Booking.type := Booking_type d;
     Booking.from := or_keep (route_path d Booking.i_from) "";
     Booking.to := or_keep (route_path d Booking.i_to) "";
     Booking.departureDate := or_keep (route_path d Booking.i_departureDate) 0;
     Booking.arrivalDate := or_keep (route_path d Booking.i_arrivalDate) 0;
     Booking.status := Booking.d_status d;
     Booking.price := or_keep (Booking.d_price d) 0%float;
     Booking.paymentStatus := Booking.d_paymentStatus d;
     Booking.createdAt := Booking.d_createdAt d;
     Booking.updatedAt := Booking.d_updatedAt d |}.

(** [booking.save()] on a new document: validate, then insert under the
    unique index on [airwayBill]. *)
Definition Booking_save_new (d : Booking.draft) : M Booking.t :=
  validate "Booking" (Booking_errors d) ;;;
  query Bookings ;;;
  bs <- getBookingsColl ;;
  if existsb (fun b => String.eqb (Booking.airwayBill b)
                                  (Booking.d_airwayBill d)) bs
  then throw (duplicate_key "airwayBill_1" (Booking.d_airwayBill d))
  else putBookings (bs ++ [Booking_of_draft d]) ;;; ret (Booking_of_draft d).

(** [Booking.findById(id)] *)
Definition Booking_findById (id : ObjectId) : M (option Booking.t) :=
  query Bookings ;;;
  bs <- getBookingsColl ;;
  ret (find (fun b => oid_eqb (Booking._id b) id) bs).

Definition Booking_set_status (st : option string) (at_ms : Z) (b : Booking.t)
  : Booking.t :=
  {| Booking._id := Booking._id b;
     Booking.airwayBill := Booking.airwayBill b;
     Booking.clientId := Booking.clientId b;
     Booking.description := Booking.description b;
     Booking.weight := Booking.weight b;
     Booking.dimensions := Booking.dimensions b;
     Booking.type := Booking.type b;
     Booking.from := Booking.from b;
     Booking.to := Booking.to b;
     Booking.departureDate := Booking.departureDate b;
     Booking.arrivalDate := Booking.arrivalDate b;
     Booking.status := or_keep st (Booking.status b);
     Booking.price := Booking.price b;
     Booking.paymentStatus := Booking.paymentStatus b;
     Booking.createdAt := Booking.createdAt b;
     Booking.updatedAt := at_ms |}.

(** [Booking.findByIdAndUpdate(id, { status, updatedAt }, { new: true })]:
    no [runValidators] option is given, so the [enum] of [status] is not
    consulted; a [status] that is [undefined] is dropped from the update. *)
Definition Booking_findByIdAndUpdate (id : ObjectId) (st : option string)
           (at_ms : Z) : M (option Booking.t) :=
  query Bookings ;;;
  bs <- getBookingsColl ;;
  match find (fun b => oid_eqb (Booking._id b) id) bs with
  | None => ret None
  | Some b =>
      putBookings (update_first (fun x => oid_eqb (Booking._id x) id)
                                (Booking_set_status st at_ms) bs) ;;;
      ret (Some (Booking_set_status st at_ms b))
  end.

(** *** Trip *)

Record tripRouteInput : Type := mkTripRoute {
  t_from : option string;
  t_to : option string;
  t_departureTime : option Z;
  t_arrivalTime : option Z
}.

Definition trip_route {A : Type} (r : option tripRouteInput)
           (f : tripRouteInput -> option A) : option A :=
  match r with
  | Some x => f x
  | None => None
  end.

(** [new Trip({ tripId, vehicleId, driverId, coDriverId, route, bookings })] *)
Definition Trip_new (e : Env) (code : string)
           (vehicle driver coDriver : option ObjectId)
           (route : option tripRouteInput) (refs : option (list ObjectId))
  : M Trip.draft :=
  id <- freshId ;;
  ret {| Trip.d_id := id; Trip.d_tripId := code;
         Trip.d_vehicleId := vehicle; Trip.d_driverId := driver;
         Trip.d_coDriverId := coDriver;
         Trip.d_bookings := or_keep refs [];
         Trip.d_from := trip_route route t_from;
         Trip.d_to := trip_route route t_to;
         Trip.d_departureTime := trip_route route t_departureTime;
         Trip.d_arrivalTime := trip_route route t_arrivalTime;
         Trip.d_status := "scheduled";
         Trip.d_createdAt := now e |}.

Definition Trip_errors (d : Trip.draft) : list string :=
  required_string "tripId" (Some (Trip.d_tripId d))
  ++ required_value "vehicleId" (Trip.d_vehicleId d)
  ++ required_value "driverId" (Trip.d_driverId d)
  ++ enum_validator "status" Trip.statuses (Trip.d_status d).

Definition Trip_of_draft (d : Trip.draft) : Trip.t :=
  {| Trip._id := Trip.d_id d;
     Trip.tripId := Trip.d_tripId d;
     Trip.vehicleId := or_keep (Trip.d_vehicleId d) 0%N;
     Trip.driverId := or_keep (Trip.d_driverId d) 0%N;
     Trip.coDriverId := Trip.d_coDriverId d;
     Trip.bookings := Trip.d_bookings d;
     Trip.from := Trip.d_from d;
     Trip.to := Trip.d_to d;
     Trip.departureTime := Trip.d_departureTime d;
     Trip.arrivalTime := Trip.d_arrivalTime d;
     Trip.fuelUsed := None;
     Trip.distance := None;
     Trip.status := Trip.d_status d;
     Trip.createdAt := Trip.d_createdAt d |}.

(** [trip.save()] on a new document; no referenced id is looked up. *)
Definition Trip_save_new (d : Trip.draft) : M Trip.t :=
  validate "Trip" (Trip_errors d) ;;;
  query Trips ;;;
  ts <- getTripsColl ;;
  if existsb (fun t => String.eqb (Trip.tripId t) (Trip.d_tripId d)) ts
  then throw (duplicate_key "tripId_1" (Trip.d_tripId d))
  else putTrips (ts ++ [Trip_of_draft d]) ;;; ret (Trip_of_draft d).

Definition Trip_set (st : option string) (fuel dist : option Z) (t : Trip.t)
  : Trip.t :=
  {| Trip._id := Trip._id t;
     Trip.tripId := Trip.tripId t;
     Trip.vehicleId := Trip.vehicleId t;
     Trip.driverId := Trip.driverId t;
     Trip.coDriverId := Trip.coDriverId t;
     Trip.bookings := Trip.bookings t;
     Trip.from := Trip.from t;
     Trip.to := Trip.to t;
     Trip.departureTime := Trip.departureTime t;
     Trip.arrivalTime := Trip.arrivalTime t;
     Trip.fuelUsed := or_keep_opt fuel (Trip.fuelUsed t);
     Trip.distance := or_keep_opt dist (Trip.distance t);
     Trip.status := or_keep st (Trip.status t);
     Trip.createdAt := Trip.createdAt t |}.

(** [Trip.findByIdAndUpdate(id, { status, fuelUsed, distance, updatedAt },
    { new: true })]; [updatedAt] is not a path of the schema and is dropped. *)
Definition Trip_findByIdAndUpdate (id : ObjectId) (st : option string)
           (fuel dist : option Z) : M (option Trip.t) :=
  query Trips ;;;
  ts <- getTripsColl ;;
  match find (fun t => oid_eqb (Trip._id t) id) ts with
  | None => ret None
  | Some t =>
      putTrips (update_first (fun x => oid_eqb (Trip._id x) id)
                             (Trip_set st fuel dist) ts) ;;;
      ret (Some (Trip_set st fuel dist t))
  end.

(** *** Vehicle *)

Definition Vehicle_set (st loc : option string) (v : Vehicle.t) : Vehicle.t :=
  {| Vehicle._id := Vehicle._id v;
     Vehicle.vehicleId := Vehicle.vehicleId v;
     Vehicle.type := Vehicle.type v;
     Vehicle.model := Vehicle.model v;
     Vehicle.capacity := Vehicle.capacity v;
     Vehicle.status := or_keep st (Vehicle.status v);
     Vehicle.currentLocation := or_keep_opt loc (Vehicle.currentLocation v);
     Vehicle.assignedDriver := Vehicle.assignedDriver v |}.

(** [Vehicle.findByIdAndUpdate(id, { status, currentLocation }, { new: true })] *)
Definition Vehicle_findByIdAndUpdate (id : ObjectId) (st loc : option string)
  : M (option Vehicle.t) :=
  query Vehicles ;;;
  vs <- getVehiclesColl ;;
  match find (fun v => oid_eqb (Vehicle._id v) id) vs with
  | None => ret None
  | Some v =>
      putVehicles (update_first (fun x => oid_eqb (Vehicle._id x) id)
                                (Vehicle_set st loc) vs) ;;;
      ret (Some (Vehicle_set st loc v))
  end.

(** *** Sorting and limiting *)

Fixpoint insert_desc {A : Type} (key : A -> Z) (x : A) (l : list A) : list A :=
  match l with
  | [] => [x]
  | y :: l' => if key y <=? key x then x :: y :: l'
               else y :: insert_desc key x l'
  end.

(** [.sort({ createdAt: -1 })] *)
Definition sort_desc {A : Type} (key : A -> Z) (l : list A) : list A :=
  fold_right (insert_desc key) [] l.

(** [.limit(n)] *)
Definition limit {A : Type} (n : nat) (l : list A) : list A := firstn n l.

(* ================================================================== *)
(** ** Documents as JSON, and [populate] *)

Definition json_oid (o : ObjectId) : json := JStr (oid_hex o).

Definition opt_field {A : Type} (k : string) (f : A -> json) (v : option A)
  : list (string * json) :=
  match v with
  | Some a => [(k, f a)]
  | None => []
  end.

(** A user document after [.select('-password')]. *)
Definition User_json (u : User.t) : json :=
  JObj ([("_id", json_oid (User._id u)); ("name", JStr (User.name u));
         ("email", JStr (User.email u)); ("role", JStr (User.role u))]
        ++ opt_field "phone" JStr (User.phone u)
        ++ opt_field "address" JStr (User.address u)
        ++ [("createdAt", JNum (User.createdAt u))]
        ++ opt_field "lastLogin" JNum (User.lastLogin u)).

(** The [user] object of the register and login responses. *)
Definition User_summary (u : User.t) : json :=
  JObj [("id", json_oid (User._id u)); ("name", JStr (User.name u));
        ("email", JStr (User.email u)); ("role", JStr (User.role u))].

(** What a reference to a user holds after [populate(path, select)]: the
    selected paths of the referenced document, or [null] when no user has
    that id. *)
Inductive Populated : Type :=
| PopNull
| PopUser (id : ObjectId) (selected : list (string * string)).

Definition populate_user (select : list string) (us : list User.t)
           (ref : ObjectId) : Populated :=
  match find (fun u => oid_eqb (User._id u) ref) us with
  | None => PopNull
  | Some u =>
      PopUser (User._id u)
        ((if member "name" select then [("name", User.name u)] else [])
         ++ (if member "email" select then [("email", User.email u)] else []))
  end.

Definition Populated_json (p : Populated) : json :=
  match p with
  | PopNull => JNull
  | PopUser id sel =>
      JObj (("_id", json_oid id) :: map (fun kv => (fst kv, JStr (snd kv))) sel)
  end.

(** [doc.toString()] of a populated document: the inspection of the
    document, braces and path names included, not the id alone.  The exact
    layout varies between Mongoose versions; the properties below only use
    that it is longer than the 24 digits of an id. *)
Definition Populated_inspect (id : ObjectId) (sel : list (string * string))
  : string :=
  "{ _id: " ++ oid_hex id
  ++ concat "" (map (fun kv => ", " ++ fst kv ++ ": '" ++ snd kv ++ "'") sel)
  ++ " }".

Definition triple_json (d : Z * Z * Z) : json :=
  let '(l, w, h) := d in
  JObj [("length", JNum l); ("width", JNum w); ("height", JNum h)].

Definition Booking_json (client : json) (b : Booking.t) : json :=
  JObj [("_id", json_oid (Booking._id b));
        ("airwayBill", JStr (Booking.airwayBill b));
        ("clientId", client);
        ("cargoDetails",
         JObj ([("description", JStr (Booking.description b));
                ("weight", JNum (Booking.weight b))]
               ++ opt_field "dimensions" triple_json (Booking.dimensions b)
               ++ [("type", JStr (Booking.type b))]));
        ("route",
         JObj [("from", JStr (Booking.from b)); ("to", JStr (Booking.to b));
               ("departureDate", JNum (Booking.departureDate b));
               ("arrivalDate", JNum (Booking.arrivalDate b))]);
        ("status", JStr (Booking.status b));
        ("price", json_double (Booking.price b));
        ("paymentStatus", JStr (Booking.paymentStatus b));
        ("createdAt", JNum (Booking.createdAt b));
        ("updatedAt", JNum (Booking.updatedAt b))].

(** A booking whose [clientId] is still the plain reference. *)
Definition Booking_plain (b : Booking.t) : json :=
  Booking_json (json_oid (Booking.clientId b)) b.

Definition Vehicle_json (driver : option json) (v : Vehicle.t) : json :=
  JObj ([("_id", json_oid (Vehicle._id v));
         ("vehicleId", JStr (Vehicle.vehicleId v));
         ("type", JStr (Vehicle.type v))]
        ++ opt_field "model" JStr (Vehicle.model v)
        ++ opt_field "capacity" JNum (Vehicle.capacity v)
        ++ [("status", JStr (Vehicle.status v))]
        ++ opt_field "currentLocation" JStr (Vehicle.currentLocation v)
        ++ opt_field "assignedDriver" (fun j => j) driver).

Definition Vehicle_plain (v : Vehicle.t) : json :=
  Vehicle_json (option_map json_oid (Vehicle.assignedDriver v)) v.

Definition Trip_json (vehicle driver : json) (coDriver : option json)
           (refs : list json) (t : Trip.t) : json :=
  JObj ([("_id", json_oid (Trip._id t)); ("tripId", JStr (Trip.tripId t));
         ("vehicleId", vehicle); ("driverId", driver)]
        ++ opt_field "coDriverId" (fun j => j) coDriver
        ++ [("bookings", JArr refs);
            ("route",
             JObj (opt_field "from" JStr (Trip.from t)
                   ++ opt_field "to" JStr (Trip.to t)
                   ++ opt_field "departureTime" JNum (Trip.departureTime t)
                   ++ opt_field "arrivalTime" JNum (Trip.arrivalTime t)))]
        ++ opt_field "fuelUsed" JNum (Trip.fuelUsed t)
        ++ opt_field "distance" JNum (Trip.distance t)
        ++ [("status", JStr (Trip.status t));
            ("createdAt", JNum (Trip.createdAt t))]).

Definition Trip_plain (t : Trip.t) : json :=
  Trip_json (json_oid (Trip.vehicleId t)) (json_oid (Trip.driverId t))
            (option_map json_oid (Trip.coDriverId t))
            (map json_oid (Trip.bookings t)) t.

(** [populate('vehicleId')]: the whole vehicle document, or [null]. *)
Definition populate_vehicle (vs : list Vehicle.t) (ref : ObjectId) : json :=
  match find (fun v => oid_eqb (Vehicle._id v) ref) vs with
  | Some v => Vehicle_plain v
  | None => JNull
  end.

(** [populate('bookings')]: the referenced bookings that exist. *)
Definition populate_bookings (bs : list Booking.t) (refs : list ObjectId)
  : list json :=
  flat_map (fun r => match find (fun b => oid_eqb (Booking._id b) r) bs with
                     | Some b => [Booking_plain b]
                     | None => []
                     end) refs.

(* ================================================================== *)
(** ** Requests *)

Record RegisterBody : Type := mkRegisterBody {
  r_name : option string;
  r_email : string;
  r_password : option string;
  r_role : option string;
  r_phone : option string;
  r_address : option string
}.

Record LoginBody : Type := mkLoginBody {
  l_email : string;
  l_password : option string
}.

Record ProfileBody : Type := mkProfileBody {
  p_name : option string;
  p_phone : option string;
  p_address : option string
}.

(** The body of [POST /api/bookings]: the three properties the controller
    destructures, and whatever else the client put in the object. *)
Record BookingBody : Type := mkBookingBody {
  cargoDetails : option Booking.cargoInput;
  route : option Booking.routeInput;
  price : option float;
  otherProperties : list (string * json)
}.

Record StatusBody : Type := mkStatusBody {
  s_status : option string
}.

Record TripBody : Type := mkTripBody {
  tb_vehicleId : option ObjectId;
  tb_driverId : option ObjectId;
  tb_coDriverId : option ObjectId;
  tb_route : option tripRouteInput;
  tb_bookings : option (list ObjectId)
}.

Record TripStatusBody : Type := mkTripStatusBody {
  ts_status : option string;
  ts_fuelUsed : option Z;
  ts_distance : option Z
}.

Record VehicleStatusBody : Type := mkVehicleStatusBody {
  vs_status : option string;
  vs_currentLocation : option string
}.

(** The routing table. *)
Inductive Route : Type :=
| PostRegister (b : RegisterBody)
| PostLogin (b : LoginBody)
| GetProfile
| PutProfile (b : ProfileBody)
| PostBookings (b : BookingBody)
| GetBookings
| GetBookingById (id : ObjectId)
| PutBookingStatus (id : ObjectId) (b : StatusBody)
| PostTrips (b : TripBody)
| GetTrips
| PutTripStatus (id : ObjectId) (b : TripStatusBody)
| GetVehicles
| PutVehicleStatus (id : ObjectId) (b : VehicleStatusBody)
| GetDashboardStats
| Unmatched.

(** An incoming request: the [Authorization] header if there is one, the
    error of [express.json()] if the body did not parse, and the route. *)
Record HttpRequest : Type := mkRequest {
  authorization : option string;
  bodyParseError : option string;
  target : Route
}.

(** What a middleware does with a request: answer it, or call [next()]
    with [req.user] set. *)
Inductive Gate : Type :=
| Rejected (r : Response)
| Next (user : Token.Payload).

(* ================================================================== *)
(** ** Aggregation pipeline of the dashboard *)

(** [{ $match: { paymentStatus: 'paid' } }] *)
Definition match_paid (bs : list Booking.t) : list Booking.t :=
  filter (fun b => String.eqb (Booking.paymentStatus b) "paid") bs.

(** [{ $group: { _id: null, total: { $sum: '$price' } } }]: one group when
    at least one document comes in, none otherwise.  The prices are doubles
    and are added as doubles, from 0 and in the order of the collection. *)
Definition group_total (bs : list Booking.t) : list float :=
  match bs with
  | [] => []
  | _ => [fold_left (fun acc b => (acc + Booking.price b)%float) bs 0%float]
  end.

(** JavaScript truthiness of a number: [0], [-0] and [NaN] are falsy. *)
Definition truthy_number (x : float) : bool :=
  negb (PrimFloat.is_zero x || PrimFloat.is_nan x).

(** [totalRevenue[0]?.total || 0] *)
Definition first_total_or_0 (groups : list float) : float :=
  match groups with
  | [] => 0%float
  | total :: _ => if truthy_number total then total else 0%float
  end.

(* ================================================================== *)
(** ** The server *)

Section Server.

(** The compact serialisation of a signed token and its parser
    ([jsonwebtoken]), and the bcrypt digest and comparison ([bcryptjs]). *)
Variable jwt_encode : Jws -> string.
Variable jwt_decode : string -> option Jws.
Variable bcrypt_digest : string -> string -> string.
Variable bcrypt_matches : string -> string -> bool.

Variable config : Config.

(** [jwt.sign(claims, key, { expiresIn: '24h' })] *)
Definition jwt_sign (uid : ObjectId) (mail rl : string) (key : string)
           (expiresIn_ms : Z) (now_ms : Z) : string :=
  jwt_encode {| payload := stamp uid mail rl expiresIn_ms now_ms;
                signedWith := key |}.

(** [jwt.verify(token, key)]: parse, check the signature, then the expiry
    against the clock in whole seconds. *)
Definition jwt_verify (token key : string) (now_ms : Z)
  : JwtError + Token.Payload :=
  match jwt_decode token with
  | None => inl (JsonWebTokenError "jwt malformed")
  | Some jws =>
      if negb (String.eqb (signedWith jws) key)
      then inl (JsonWebTokenError "invalid signature")
      else if Token.exp (payload jws) <=? clockTimestamp now_ms
           then inl (TokenExpiredError "jwt expired"
                       (Token.exp (payload jws) * 1000))
           else inr (payload jws)
  end.

(** [bcrypt.hash(password, 10)] *)
Definition bcrypt_hash (s : option string) (e : Env) : M string :=
  match s with
  | None => throw "Illegal arguments: undefined, number"
  | Some pw => ret ("$2a$10$" ++ salt e ++ bcrypt_digest (salt e) pw)
  end.

(** [bcrypt.compare(password, hash)] *)
Definition bcrypt_compare (s : option string) (hash : string) : M bool :=
  match s with
  | None => throw "Illegal arguments: undefined, string"
  | Some pw => ret (bcrypt_matches pw hash)
  end.

(** *** Middleware *)

Definition authenticateToken (e : Env) (req : HttpRequest)
  : World -> Gate * World :=
  fun w =>
    let authHeader := authorization req in
    let token := js_and authHeader (fun h => nth_error (split_on " " h) 1) in
    if negb (truthy token)
    then (Rejected (mkResponse 401 (error_body "Access token required")), w)
    else
      match token with
      | None =>
          (Rejected (mkResponse 401 (error_body "Access token required")), w)
      | Some t =>
          match jwt_verify t (jwtSecret config) (now e) with
          | inl _ =>
              (Rejected (mkResponse 403 (error_body "Invalid or expired token")),
               w)
          | inr user => (Next user, w)
          end
      end.

Definition errorHandler (err_message : string) : Response :=
  mkResponse 500
    (JObj [("error", JStr "Something went wrong!");
           ("message",
            JStr (if String.eqb (environment config) "development"
                  then err_message else "Internal server error"))]).

(** *** User controller *)

Definition issue (e : Env) (u : User.t) : string :=
  jwt_sign (User._id u) (User.email u) (User.role u) (jwtSecret config)
           ms_24h (now e).

Definition register (e : Env) (b : RegisterBody) : World -> Response * World :=
  try_catch (
    existingUser <- User_findOne_email (r_email b) ;;
    match existingUser with
    | Some _ => ret (mkResponse 400 (error_body "User already exists"))
    | None =>
        hashedPassword <- bcrypt_hash (r_password b) e ;;
        draft <- User_new e (r_name b) (r_email b) hashedPassword
                   (r_role b) (r_phone b) (r_address b) ;;
        user <- User_save_new draft ;;
        let token := issue e user in
        ret (mkResponse 201
               (JObj [("message", JStr "User registered successfully");
                      ("token", JStr token);
                      ("user", User_summary user)]))
    end).

Definition User_touch (at_ms : Z) (u : User.t) : User.t :=
  {| User._id := User._id u; User.name := User.name u;
     User.email := User.email u; User.password := User.password u;
     User.role := User.role u; User.phone := User.phone u;
     User.address := User.address u; User.createdAt := User.createdAt u;
     User.lastLogin := Some at_ms |}.

Definition login (e : Env) (b : LoginBody) : World -> Response * World :=
  try_catch (
    found <- User_findOne_email (l_email b) ;;
    match found with
    | None => ret (mkResponse 400 (error_body "Invalid credentials"))
    | Some user =>
        isValidPassword <- bcrypt_compare (l_password b) (User.password user) ;;
        if negb isValidPassword
        then ret (mkResponse 400 (error_body "Invalid credentials"))
        else
          let user' := User_touch (now e) user in
          User_save user' ;;;
          let token := issue e user' in
          ret (mkResponse 200
                 (JObj [("message", JStr "Login successful");
                        ("token", JStr token);
                        ("user", User_summary user')]))
    end).

Definition getProfile (caller : Token.Payload) : World -> Response * World :=
  try_catch (
    found <- User_findById (Token.userId caller) ;;
    match found with
    | None => ret (mkResponse 404 (error_body "User not found"))
    | Some user => ret (mkResponse 200 (User_json user))
    end).

Definition updateProfile (caller : Token.Payload) (b : ProfileBody)
  : World -> Response * World :=
  try_catch (
    updated <- User_findByIdAndUpdate (Token.userId caller)
                 (p_name b) (p_phone b) (p_address b) ;;
    ret (mkResponse 200
           (JObj [("message", JStr "Profile updated successfully");
                  ("user", match updated with
                           | Some u => User_json u
                           | None => JNull
                           end)]))).

(** *** Booking controller *)

Definition createBooking (e : Env) (caller : Token.Payload) (b : BookingBody)
  : World -> Response * World :=
  try_catch (
    let airwayBill := "AWB" ++ dec (now e) ++ rnd e in
    draft <- Booking_new e airwayBill (Token.userId caller)
               (cargoDetails b) (route b) (price b) ;;
    booking <- Booking_save_new draft ;;
    ret (mkResponse 201
           (JObj [("message", JStr "Booking created successfully");
                  ("booking", Booking_plain booking)]))).

Definition getBookings (caller : Token.Payload) : World -> Response * World :=
  try_catch (
    query Bookings ;;;
    all <- getBookingsColl ;;
    let found :=
      if negb (String.eqb (Token.role caller) "admin")
      then filter (fun b => oid_eqb (Booking.clientId b) (Token.userId caller))
                  all
      else all in
    query Users ;;;
    us <- getUsers ;;
    ret (mkResponse 200
           (JArr (map (fun b =>
                         Booking_json
                           (Populated_json
                              (populate_user ["name"; "email"] us
                                             (Booking.clientId b))) b)
                      (sort_desc Booking.createdAt found))))).

Definition getBookingById (caller : Token.Payload) (id : ObjectId)
  : World -> Response * World :=
  try_catch (
    found <- Booking_findById id ;;
    match found with
    | None => ret (mkResponse 404 (error_body "Booking not found"))
    | Some booking =>
        query Users ;;;
        us <- getUsers ;;
        let client := populate_user ["name"; "email"] us
                                    (Booking.clientId booking) in
        let answer := mkResponse 200 (Booking_json (Populated_json client)
                                                   booking) in
        if negb (String.eqb (Token.role caller) "admin")
        then
          match client with
          | PopNull =>
              throw "Cannot read properties of null (reading 'toString')"
          | PopUser cid selected =>
              if negb (String.eqb (Populated_inspect cid selected)
                                  (oid_hex (Token.userId caller)))
              then ret (mkResponse 403 (error_body "Access denied"))
              else ret answer
          end
        else ret answer
    end).

Definition updateBookingStatus (e : Env) (id : ObjectId) (b : StatusBody)
  : World -> Response * World :=
  try_catch (
    updated <- Booking_findByIdAndUpdate id (s_status b) (now e) ;;
    match updated with
    | None => ret (mkResponse 404 (error_body "Booking not found"))
    | Some booking =>
        ret (mkResponse 200
               (JObj [("message", JStr "Booking status updated");
                      ("booking", Booking_plain booking)]))
    end).

(** *** Trip controller *)

Definition createTrip (e : Env) (b : TripBody) : World -> Response * World :=
  try_catch (
    let tripId := "FLT-" ++ dec (now e) in
    draft <- Trip_new e tripId (tb_vehicleId b) (tb_driverId b)
               (tb_coDriverId b) (tb_route b) (tb_bookings b) ;;
    trip <- Trip_save_new draft ;;
    ret (mkResponse 201
           (JObj [("message", JStr "Trip created successfully");
                  ("trip", Trip_plain trip)]))).

Definition Trip_resolved (us : list User.t) (vs : list Vehicle.t)
           (bs : option (list Booking.t)) (t : Trip.t) : json :=
  Trip_json (populate_vehicle vs (Trip.vehicleId t))
            (Populated_json (populate_user ["name"] us (Trip.driverId t)))
            (match bs with
             | Some _ =>
                 option_map (fun r => Populated_json
                                        (populate_user ["name"] us r))
                            (Trip.coDriverId t)
             | None => option_map json_oid (Trip.coDriverId t)
             end)
            (match bs with
             | Some all => populate_bookings all (Trip.bookings t)
             | None => map json_oid (Trip.bookings t)
             end)
            t.

Definition getTrips : World -> Response * World :=
  try_catch (
    query Trips ;;;
    ts <- getTripsColl ;;
    query Vehicles ;;;
    vs <- getVehiclesColl ;;
    query Users ;;;
    query Users ;;;
    us <- getUsers ;;
    query Bookings ;;;
    bs <- getBookingsColl ;;
    ret (mkResponse 200
           (JArr (map (Trip_resolved us vs (Some bs))
                      (sort_desc Trip.createdAt ts))))).

Definition updateTripStatus (id : ObjectId) (b : TripStatusBody)
  : World -> Response * World :=
  try_catch (
    updated <- Trip_findByIdAndUpdate id (ts_status b) (ts_fuelUsed b)
                 (ts_distance b) ;;
    match updated with
    | None => ret (mkResponse 404 (error_body "Trip not found"))
    | Some trip =>
        ret (mkResponse 200
               (JObj [("message", JStr "Trip updated successfully");
                      ("trip", Trip_plain trip)]))
    end).

(** *** Vehicle controller *)

(** Vehicles have no [createdAt] path, so the sort leaves the order of the
    collection. *)
Definition getVehicles : World -> Response * World :=
  try_catch (
    query Vehicles ;;;
    vs <- getVehiclesColl ;;
    query Users ;;;
    us <- getUsers ;;
    ret (mkResponse 200
           (JArr (map (fun v =>
                         Vehicle_json
                           (option_map
                              (fun r => Populated_json
                                          (populate_user ["name"] us r))
                              (Vehicle.assignedDriver v)) v)
                      vs)))).

Definition updateVehicleStatus (id : ObjectId) (b : VehicleStatusBody)
  : World -> Response * World :=
  try_catch (
    updated <- Vehicle_findByIdAndUpdate id (vs_status b)
                 (vs_currentLocation b) ;;
    match updated with
    | None => ret (mkResponse 404 (error_body "Vehicle not found"))
    | Some vehicle =>
        ret (mkResponse 200
               (JObj [("message", JStr "Vehicle status updated");
                      ("vehicle", Vehicle_plain vehicle)]))
    end).

(** *** Dashboard controller *)

(** [Booking.aggregate([{ $match }, { $group }])] *)
Definition Booking_aggregate_paid : M (list float) :=
  query Bookings ;;;
  bs <- getBookingsColl ;;
  ret (group_total (match_paid bs)).

Definition getStats : World -> Response * World :=
  try_catch (
    query Bookings ;;;
    bs <- getBookingsColl ;;
    let totalBookings := Z.of_nat (List.length bs) in
    totalRevenue <- Booking_aggregate_paid ;;
    query Trips ;;;
    ts <- getTripsColl ;;
    let totalTrips := Z.of_nat (List.length ts) in
    query Vehicles ;;;
    vs <- getVehiclesColl ;;
    let totalVehicles := Z.of_nat (List.length vs) in
    query Bookings ;;;
    query Users ;;;
    us <- getUsers ;;
    let recentBookings :=
      map (fun b => Booking_json
                      (Populated_json
                         (populate_user ["name"] us (Booking.clientId b))) b)
          (limit 10 (sort_desc Booking.createdAt bs)) in
    query Trips ;;;
    query Vehicles ;;;
    query Users ;;;
    let activeTrips :=
      map (Trip_resolved us vs None)
          (filter (fun t => String.eqb (Trip.status t) "in-progress") ts) in
    ret (mkResponse 200
           (JObj [("stats",
                   JObj [("totalBookings", JNum totalBookings);
                         ("totalRevenue",
                          json_double (first_total_or_0 totalRevenue));
                         ("totalTrips", JNum totalTrips);
                         ("totalVehicles", JNum totalVehicles)]);
                  ("recentBookings", JArr recentBookings);
                  ("activeTrips", JArr activeTrips)]))).

(** *** Routes *)

(** [app.METHOD(path, authenticateToken, handler)] *)
Definition protected (e : Env) (req : HttpRequest)
           (handler : Token.Payload -> World -> Response * World)
  : World -> Response * World :=
  fun w =>
    match authenticateToken e req w with
    | (Rejected r, w') => (r, w')
    | (Next user, w') => handler user w'
    end.

Definition app (e : Env) (req : HttpRequest) : World -> Response * World :=
  match bodyParseError req with
  | Some message => fun w => (errorHandler message, w)
  | None =>
      match target req with
      | PostRegister b => register e b
      | PostLogin b => login e b
      | GetProfile => protected e req getProfile
      | PutProfile b => protected e req (fun u => updateProfile u b)
      | PostBookings b => protected e req (fun u => createBooking e u b)
      | GetBookings => protected e req getBookings
      | GetBookingById id => protected e req (fun u => getBookingById u id)
      | PutBookingStatus id b =>
          protected e req (fun _ => updateBookingStatus e id b)
      | PostTrips b => protected e req (fun _ => createTrip e b)
      | GetTrips => protected e req (fun _ => getTrips)
      | PutTripStatus id b => protected e req (fun _ => updateTripStatus id b)
      | GetVehicles => protected e req (fun _ => getVehicles)
      | PutVehicleStatus id b =>
          protected e req (fun _ => updateVehicleStatus id b)
      | GetDashboardStats => protected e req (fun _ => getStats)
      | Unmatched =>
          fun w => (mkResponse 404 (error_body "Route not found"), w)
      end
  end.

(** A session: requests served one after the other, each with its own
    environment. *)
Fixpoint serve (reqs : list (Env * HttpRequest)) (w : World) : World :=
  match reqs with
  | [] => w
  | (e, req) :: rest => serve rest (snd (app e req w))
  end.

End Server.

(* ================================================================== *)
(** ** Notions of the specification *)

(** The sum of a list of doubles, in double arithmetic. *)
Definition double_sum (xs : list float) : float :=
  fold_left PrimFloat.add xs 0%float.

(** The sum of [price] over the bookings whose [paymentStatus] is paid, as
    the specification words it, in the arithmetic of the prices. *)
Definition paid_revenue (bs : list Booking.t) : float :=
  double_sum
    (map Booking.price
         (filter (fun b => String.eqb (Booking.paymentStatus b) "paid") bs)).



Definition is_whitespace (c : ascii) : bool :=
  match nat_of_ascii c with
  | 32%nat | 9%nat | 10%nat | 11%nat | 12%nat | 13%nat => true
  | _ => false
  end.

Fixpoint words_from (current : string) (s : string) : list string :=
  let flush := match current with
               | EmptyString => []
               | _ => [current]
               end in
  match s with
  | EmptyString => flush
  | String c s' =>
      if is_whitespace c then flush ++ words_from "" s'
      else words_from (current ++ String c "") s'
  end.

(** The whitespace-separated words of a header value. *)
Definition words (s : string) : list string := words_from "" s.

(** Whether a character occurs in a string. *)
Fixpoint contains (c : ascii) (s : string) : bool :=
  match s with
  | EmptyString => false
  | String c' s' => Ascii.eqb c' c || contains c s'
  end.

(** The two ways the gate ends once a header is read: no token, or a token
    handed to [jwt.verify]. *)
Definition unauthenticated : Gate :=
  Rejected (mkResponse 401 (error_body "Access token required")).

Definition verified (jwt_decode : string -> option Jws) (config : Config)
           (e : Env) (t : string) : Gate :=
  match jwt_verify jwt_decode t (jwtSecret config) (now e) with
  | inl _ => Rejected (mkResponse 403 (error_body "Invalid or expired token"))
  | inr user => Next user
  end.

(** A handler step that leaves the bookings collection as it is. *)
Definition keeps_bookings {A : Type} (m : M A) : Prop :=
  forall w, bookings (snd (m w)) = bookings w.

(** A failure response names its error: an [error] property holding a
    string. *)
Definition failure_named (r : Response) : Prop :=
  400 <= status r -> exists msg, field "error" (body r) = Some (JStr msg).

(** Every response a handler body returns (rather than throws) satisfies
    [P]. *)
Definition answers (P : Response -> Prop) (m : M Response) : Prop :=
  forall w r w', m w = (Ok r, w') -> P r.

(** The owner recorded for the booking with a given id. *)
Definition owner_of (w : World) (id : ObjectId) : option ObjectId :=
  option_map Booking.clientId
             (find (fun b => oid_eqb (Booking._id b) id) (bookings w)).

(** An outcome of [jwt.verify] that hands over a payload. *)
Definition accepted (r : JwtError + Token.Payload) : bool :=
  match r with
  | inr _ => true
  | inl _ => false
  end.

(* ================================================================== *)
(** ** Notions used to state further properties *)

(** The routes registered with [authenticateToken] in front of the
    controller. *)
Definition is_protected (r : Route) : bool :=
  match r with
  | PostRegister _ | PostLogin _ | Unmatched => false
  | _ => true
  end.

(** The routes registered with [app.get]. *)
Definition is_get (r : Route) : bool :=
  match r with
  | GetProfile | GetBookings | GetBookingById _
  | GetTrips | GetVehicles | GetDashboardStats => true
  | _ => false
  end.

(** What the store holds, the query log left aside. *)
Definition documents (w : World)
  : list User.t * list Booking.t * list Trip.t * list Vehicle.t * ObjectId :=
  (users w, bookings w, trips w, vehicles w, nextId w).

(** A handler step that leaves a given view of the store as it is. *)
Definition preserves {A B : Type} (view : World -> B) (m : M A) : Prop :=
  forall w, view (snd (m w)) = view w.

(** What identifies a stored identity and decides what it may do: its id,
    email, role and password hash. *)
Definition identity (u : User.t) : ObjectId * string * string * string :=
  (User._id u, User.email u, User.role u, User.password u).

(** The constraints the users collection is kept under: unique [_id]s, the
    unique index on [email], and ids drawn before the next fresh one. *)
Definition users_ok (w : World) : Prop :=
  NoDup (map User._id (users w))
  /\ NoDup (map User.email (users w))
  /\ forall u, In u (users w) -> (User._id u < nextId w)%N.

(** A handler step that takes every store to one related to it by [R]. *)
Definition steps {A : Type} (R : World -> World -> Prop) (m : M A) : Prop :=
  forall w, R w (snd (m w)).

(** The users collection is the same and the id counter has not gone back. *)
Definition same_users_later (w w' : World) : Prop :=
  users w' = users w /\ (nextId w <= nextId w')%N.

(** What one request can do to the identities: nothing, or add one with a
    fresh id and an email nobody has. *)
Definition identities_step (w w' : World) : Prop :=
  (nextId w <= nextId w')%N
  /\ (map identity (users w') = map identity (users w)
      \/ exists u,
           map identity (users w') = (map identity (users w) ++ [identity u])%list
           /\ User._id u = nextId w
           /\ (nextId w < nextId w')%N
           /\ forall x, In x (users w) -> User.email x <> User.email u).


(** Whether a property named [k] occurs anywhere in a JSON value. *)
Fixpoint has_key (k : string) (j : json) : bool :=
  match j with
  | JArr items => existsb (has_key k) items
  | JObj fields =>
      existsb (fun kv => match kv with
                         | (k', v) => String.eqb k' k || has_key k v
                         end) fields
  | _ => false
  end.

(** A response without a [password] property, at any depth. *)
Definition no_password (r : Response) : Prop :=
  has_key "password" (body r) = false.

(** Everything a booking holds apart from [status] and [updatedAt]. *)
Definition essentials (b : Booking.t) :=
  (Booking._id b, Booking.airwayBill b, Booking.clientId b,
   (Booking.description b, Booking.weight b, Booking.dimensions b,
    Booking.type b),
   (Booking.from b, Booking.to b, Booking.departureDate b,
    Booking.arrivalDate b),
   Booking.price b, Booking.paymentStatus b, Booking.createdAt b).

(** What one request can do to the bookings collection: nothing, add one
    pending booking under a new airway bill, or set the status and
    [updatedAt] of the first booking with a given id. *)
Definition bookings_step (w w' : World) : Prop :=
  bookings w' = bookings w
  \/ (exists b,
         bookings w' = (bookings w ++ [b])%list
         /\ Booking.status b = "pending"
         /\ Booking.paymentStatus b = "pending"
         /\ forall x, In x (bookings w) ->
                      Booking.airwayBill x <> Booking.airwayBill b)
  \/ (exists id st t,
         bookings w'
         = update_first (fun x => oid_eqb (Booking._id x) id)
                        (Booking_set_status st t) (bookings w)).

(** A booking request that passes the schema: every required path is there
    and the cargo type, when given, is one of the four. *)
Definition body_complete (b : BookingBody) : bool :=
  match cargoDetails b, route b, price b with
  | Some c, Some r, Some _ =>
      truthy (Booking.i_description c)
      && match Booking.i_weight c with Some _ => true | None => false end
      && match Booking.i_type c with
         | Some t => member t Booking.types
         | None => true
         end
      && truthy (Booking.i_from r) && truthy (Booking.i_to r)
      && match Booking.i_departureDate r with Some _ => true | None => false end
      && match Booking.i_arrivalDate r with Some _ => true | None => false end
  | _, _, _ => false
  end.

(** What the fleet list says of a vehicle apart from its status and
    location. *)
Definition fleet_entry (v : Vehicle.t) :=
  (Vehicle._id v, Vehicle.vehicleId v, Vehicle.type v, Vehicle.model v,
   Vehicle.capacity v, Vehicle.assignedDriver v).

(* ================================================================== *)
(** ** The mock server

    The stand-alone variant of the server that answers from an in-memory
    [mockData] object, without a database and without authentication.  Its
    bookings are plain JavaScript objects: properties in insertion order
    (keys that are array indices, which JavaScript lists first, aside), each
    holding a JSON value or [undefined] ([None]).  A request body is the
    object [express.json()] parsed, so its keys are pairwise different. *)

Module Mock.

Definition object : Type := list (string * option json).

(** [o.k] *)
Definition get (k : string) (o : object) : option json :=
  match assoc k o with
  | Some v => v
  | None => None
  end.

(** [o.k = v]: an existing property keeps its place, a new one goes last. *)
Fixpoint set (k : string) (v : option json) (o : object) : object :=
  match o with
  | [] => [(k, v)]
  | (k', v') :: o' =>
      if String.eqb k' k then (k', v) :: o' else (k', v') :: set k v o'
  end.

(** [{ ...o, ...body }] for a parsed JSON object [body]. *)
Definition spread (body : list (string * json)) (o : object) : object :=
  fold_left (fun acc kv => set (fst kv) (Some (snd kv)) acc) body o.

(** What [res.json] sends for an object: [undefined] properties are left
    out. *)
Definition to_json (o : object) : json :=
  JObj (flat_map (fun kv => match snd kv with
                            | Some v => [(fst kv, v)]
                            | None => []
                            end) o).

(** JavaScript truthiness of a JSON value or [undefined]. *)
Definition truthy_value (v : option json) : bool :=
  match v with
  | None | Some JNull => false
  | Some (JBool b) => b
  | Some (JNum z) => negb (z =? 0)
  | Some (JDouble x) => truthy_number x
  | Some (JStr s) => negb (String.eqb s "")
  | Some (JArr _) | Some (JObj _) => true
  end.

(** [v === s] for a string [s]. *)
Definition is_string (v : option json) (s : string) : bool :=
  match v with
  | Some (JStr s') => String.eqb s' s
  | _ => false
  end.

Record Data : Type := mkData {
  stats : json;
  bookings : list object;
  trips : list json;
  vehicles : list json
}.

Definition mockData : Data :=
  {| stats := JObj [("totalBookings", JNum 42); ("totalRevenue", JNum 348250);
                    ("totalTrips", JNum 15); ("totalVehicles", JNum 8)];
     bookings :=
       [ [("_id", Some (JStr "1")); ("airwayBill", Some (JStr "AWB123456"));
          ("cargoDetails",
           Some (JObj [("description", JStr "Electronics - 20 boxes");
                       ("weight", JNum 1200); ("type", JStr "general")]));
          ("route",
           Some (JObj [("from", JStr "LAX"); ("to", JStr "JFK");
                       ("departureDate", JStr "2025-03-10T08:00:00Z");
                       ("arrivalDate", JStr "2025-03-11T14:00:00Z")]));
          ("status", Some (JStr "in-transit")); ("price", Some (JNum 2500));
          ("clientId",
           Some (JObj [("name", JStr "Acme Corp");
                       ("email", JStr "acme@example.com")]))];
         [("_id", Some (JStr "2")); ("airwayBill", Some (JStr "AWB123457"));
          ("cargoDetails",
           Some (JObj [("description", JStr "Pharmaceuticals - 10 pallets");
                       ("weight", JNum 3500); ("type", JStr "hazardous")]));
          ("route",
           Some (JObj [("from", JStr "DFW"); ("to", JStr "MIA");
                       ("departureDate", JStr "2025-03-12T10:30:00Z");
                       ("arrivalDate", JStr "2025-03-13T16:45:00Z")]));
          ("status", Some (JStr "confirmed")); ("price", Some (JNum 4200));
          ("clientId",
           Some (JObj [("name", JStr "HealthPlus");
                       ("email", JStr "contact@healthplus.com")]))] ];
     trips :=
       [ JObj [("_id", JStr "1"); ("tripId", JStr "FLT-900");
               ("vehicleId", JObj [("type", JStr "plane");
                                   ("model", JStr "Boeing 747-8F")]);
               ("driverId", JObj [("name", JStr "Alex King")]);
               ("coDriverId", JObj [("name", JStr "Sara Queen")]);
               ("route",
                JObj [("from", JStr "JFK"); ("to", JStr "LAX");
                      ("departureTime", JStr "2025-03-10T09:00:00Z");
                      ("arrivalTime", JStr "2025-03-10T13:00:00Z")]);
               ("fuelUsed", JNum 2500); ("distance", JNum 2200);
               ("status", JStr "completed")] ];
     vehicles :=
       [ JObj [("_id", JStr "1"); ("type", JStr "plane");
               ("status", JStr "operating"); ("currentLocation", JStr "JFK")];
         JObj [("_id", JStr "2"); ("type", JStr "ship");
               ("status", JStr "operating");
               ("currentLocation", JStr "Port of LA")];
         JObj [("_id", JStr "3"); ("type", JStr "truck");
               ("status", JStr "operating");
               ("currentLocation", JStr "Dallas")];
         JObj [("_id", JStr "4"); ("type", JStr "train");
               ("status", JStr "maintenance");
               ("currentLocation", JStr "Chicago")] ] |}.

Definition with_bookings (bs : list object) (d : Data) : Data :=
  {| stats := stats d; bookings := bs; trips := trips d;
     vehicles := vehicles d |}.

(** The routes of the mock server; a body is the parsed JSON object. *)
Inductive Route : Type :=
| GetHealth
| GetStats
| GetBookings
| GetTrips
| GetVehicles
| PostLogin (body : list (string * json))
| PostRegister (body : list (string * json))
| PostBookings (body : list (string * json))
| PutBookingStatus (id : string) (body : list (string * json))
| Unmatched.

Definition ok (j : json) : Response := mkResponse 200 j.

(** [app.post('/api/auth/login', ...)] *)
Definition login (body : list (string * json)) : Response :=
  let email := assoc "email" body in
  let password := assoc "password" body in
  if is_string email "norrisfrankmeyo@gmail.com"
     && is_string password "password123"
  then ok (JObj [("message", JStr "Login successful");
                 ("token", JStr "mock_jwt_token_12345");
                 ("user", JObj [("id", JStr "1"); ("name", JStr "Norris Frank");
                                ("email", JStr "norrisfrankmeyo@gmail.com");
                                ("role", JStr "admin")])])
  else mkResponse 400 (error_body "Invalid credentials").

(** [app.post('/api/auth/register', ...)] *)
Definition register (body : list (string * json)) : Response :=
  let name := assoc "name" body in
  let email := assoc "email" body in
  let role := assoc "role" body in
  ok (JObj [("message", JStr "User registered successfully");
            ("token", JStr "mock_jwt_token_12345");
            ("user",
             to_json [("id", Some (JStr "1")); ("name", name);
                      ("email", email);
                      ("role", if truthy_value role then role
                               else Some (JStr "user"))])]).

(** [app.post('/api/bookings', ...)] *)
Definition createBooking (now_ms : Z) (body : list (string * json)) (d : Data)
  : Response * Data :=
  let newBooking :=
    set "createdAt" (Some (JNum now_ms))
      (set "status" (Some (JStr "pending"))
         (spread body
            [("_id", Some (JStr (dec now_ms)));
             ("airwayBill", Some (JStr ("AWB" ++ dec now_ms)))])) in
  (mkResponse 201 (JObj [("message", JStr "Booking created successfully");
                         ("booking", to_json newBooking)]),
   with_bookings (bookings d ++ [newBooking]) d).

(** [app.put('/api/bookings/:id/status', ...)]: the booking found is the
    object held by [mockData.bookings], so the assignment shows there. *)
Definition updateBookingStatus (id : string) (body : list (string * json))
           (d : Data) : Response * Data :=
  let status := assoc "status" body in
  let same_id := fun b => is_string (get "_id" b) id in
  match find same_id (bookings d) with
  | Some booking =>
      (ok (JObj [("message", JStr "Booking status updated");
                 ("booking", to_json (set "status" status booking))]),
       with_bookings (update_first same_id (set "status" status) (bookings d))
                     d)
  | None => (mkResponse 404 (error_body "Booking not found"), d)
  end.

Definition app (now_ms : Z) (r : Route) (d : Data) : Response * Data :=
  match r with
  | GetHealth =>
      (ok (JObj [("status", JStr "OK");
                 ("message", JStr "Titan Cargo Backend is running");
                 ("timestamp", JNum now_ms)]), d)
  | GetStats => (ok (stats d), d)
  | GetBookings => (ok (JArr (map to_json (bookings d))), d)
  | GetTrips => (ok (JArr (trips d)), d)
  | GetVehicles => (ok (JArr (vehicles d)), d)
  | PostLogin body => (login body, d)
  | PostRegister body => (register body, d)
  | PostBookings body => createBooking now_ms body d
  | PutBookingStatus id body => updateBookingStatus id body d
  | Unmatched => (mkResponse 404 (error_body "Route not found"), d)
  end.

Fixpoint serve (reqs : list (Z * Route)) (d : Data) : Data :=
  match reqs with
  | [] => d
  | (t, r) :: rest => serve rest (snd (app t r d))
  end.

End Mock.

(* ================================================================== *)
(** ** A concrete instance

    A toy serialisation of tokens and a toy digest, used to run the server
    on concrete requests. *)

Definition demo_number (s : string) : option Z :=
  option_map Z.of_int (NilZero.int_of_string s).

Definition demo_encode (j : Jws) : string :=
  join "~" [dec (Z.of_N (Token.userId (payload j)));
            Token.email (payload j); Token.role (payload j);
            dec (Token.iat (payload j)); dec (Token.exp (payload j));
            signedWith j].

Definition demo_decode (s : string) : option Jws :=
  match split_on "~" s with
  | [uid; mail; rl; issued; expires; key] =>
      match demo_number uid, demo_number issued, demo_number expires with
      | Some u, Some i, Some x =>
          Some {| payload := {| Token.userId := Z.to_N u; Token.email := mail;
                                Token.role := rl; Token.iat := i;
                                Token.exp := x |};
                  signedWith := key |}
      | _, _, _ => None
      end
  | _ => None
  end.

Definition demo_digest (salt_ pw : string) : string := "#" ++ pw.

Definition demo_matches (pw hash : string) : bool :=
  String.eqb hash ("$2a$10$salt" ++ demo_digest "salt" pw).

Definition demo_config : Config :=
  {| mongoURI := "mongodb://localhost:27017/titan_cargo";
     jwtSecret := "titan_cargo_secret_key_2025";
     environment := "development" |}.

Definition production_config : Config :=
  {| mongoURI := "mongodb://localhost:27017/titan_cargo";
     jwtSecret := "titan_cargo_secret_key_2025";
     environment := "production" |}.

Definition empty_world : World :=
  {| users := []; bookings := []; trips := []; vehicles := [];
     nextId := 1%N; queries := [] |}.

Definition alice : User.t :=
  {| User._id := 1%N; User.name := "Alice"; User.email := "a@x.com";
     User.password := "$2a$10$salt#pw1"; User.role := "user";
     User.phone := None; User.address := None;
     User.createdAt := 1000; User.lastLogin := None |}.

Definition bob : User.t :=
  {| User._id := 2%N; User.name := "Bob"; User.email := "b@x.com";
     User.password := "$2a$10$salt#pw2"; User.role := "user";
     User.phone := None; User.address := None;
     User.createdAt := 2000; User.lastLogin := None |}.

Definition crate : Booking.t :=
  {| Booking._id := 7%N; Booking.airwayBill := "AWB3000K9X2Q";
     Booking.clientId := 1%N;
     Booking.description := "Electronics - 20 boxes";
     Booking.weight := 1200; Booking.dimensions := None;
     Booking.type := "general";
     Booking.from := "LAX"; Booking.to := "JFK";
     Booking.departureDate := 5000; Booking.arrivalDate := 6000;
     Booking.status := "pending"; Booking.price := 2500%float;
     Booking.paymentStatus := "pending";
     Booking.createdAt := 3000; Booking.updatedAt := 3000 |}.

Definition small_world : World :=
  {| users := [alice; bob]; bookings := [crate]; trips := []; vehicles := [];
     nextId := 8%N; queries := [] |}.





Definition carol_body (rl : option string) : RegisterBody :=
  {| r_name := Some "Carol"; r_email := "c@x.com"; r_password := Some "pw3";
     r_role := rl; r_phone := None; r_address := None |}.

(** A booking request that tries to set its own status, payment status and
    owner. *)
Definition pushy_body : BookingBody :=
  {| cargoDetails :=
       Some {| Booking.i_description := Some "Pharmaceuticals - 10 pallets";
               Booking.i_weight := Some 3500;
               Booking.i_dimensions := None;
               Booking.i_type := Some "hazardous" |};
     route :=
       Some {| Booking.i_from := Some "DFW"; Booking.i_to := Some "MIA";
               Booking.i_departureDate := Some 10000;
               Booking.i_arrivalDate := Some 20000 |};
     price := Some 4200%float;
     otherProperties :=
       [("status", JStr "delivered"); ("paymentStatus", JStr "paid");
        ("clientId", JStr (oid_hex 1%N))] |}.

Definition at_time (t : Z) : Env := {| now := t; salt := "salt"; rnd := "K9X2Q" |}.

(** A stored identity under another name. *)
Definition User_rename (nm : string) (u : User.t) : User.t :=
  {| User._id := User._id u; User.name := nm;
     User.email := User.email u; User.password := User.password u;
     User.role := User.role u; User.phone := User.phone u;
     User.address := User.address u; User.createdAt := User.createdAt u;
     User.lastLogin := User.lastLogin u |}.

(** The store after Bob has set his name to the empty string through the
    profile route. *)
Definition renamed_world : World :=
  snd (updateProfile (stamp 2%N "b@x.com" "user" ms_24h 8000)
                     {| p_name := Some ""; p_phone := None;
                        p_address := None |}
                     small_world).

(** A short session against [small_world]: Carol registers, Alice logs in,
    Bob books a shipment, marks Alice's booking delivered and renames
    himself. *)
Definition bob_header : option string :=
  Some ("Bearer " ++ jwt_sign demo_encode 2%N "b@x.com" "user"
                              (jwtSecret demo_config) ms_24h 8000).

Definition demo_session : list (Env * HttpRequest) :=
  [ (at_time 9000, mkRequest None None (PostRegister (carol_body None)));
    (at_time 9100,
     mkRequest None None
               (PostLogin {| l_email := "a@x.com"; l_password := Some "pw1" |}));
    (at_time 9200, mkRequest bob_header None (PostBookings pushy_body));
    (at_time 9300,
     mkRequest bob_header None
               (PutBookingStatus 7%N {| s_status := Some "delivered" |}));
    (at_time 9400,
     mkRequest bob_header None
               (PutProfile {| p_name := Some "Robert"; p_phone := None;
                              p_address := Some "Pier 4" |})) ].

(** A store with a fleet: one plane, and one trip on it. *)
Definition freighter : Vehicle.t :=
  {| Vehicle._id := 20%N; Vehicle.vehicleId := "N747TC";
     Vehicle.type := "plane"; Vehicle.model := Some "Boeing 747-8F";
     Vehicle.capacity := Some 140000; Vehicle.status := "operating";
     Vehicle.currentLocation := Some "JFK";
     Vehicle.assignedDriver := Some 1%N |}.

Definition voyage : Trip.t :=
  {| Trip._id := 30%N; Trip.tripId := "FLT-4000";
     Trip.vehicleId := 20%N; Trip.driverId := 1%N;
     Trip.coDriverId := None; Trip.bookings := [7%N];
     Trip.from := Some "JFK"; Trip.to := Some "LAX";
     Trip.departureTime := Some 5000; Trip.arrivalTime := Some 6000;
     Trip.fuelUsed := Some 2500; Trip.distance := None;
     Trip.status := "scheduled"; Trip.createdAt := 4000 |}.

Definition fleet_world : World :=
  {| users := [alice; bob]; bookings := [crate]; trips := [voyage];
     vehicles := [freighter]; nextId := 31%N; queries := [] |}.

(** A trip request naming a vehicle, a driver and a booking that are not in
    the store. *)
Definition ghost_trip : TripBody :=
  {| tb_vehicleId := Some 901%N; tb_driverId := Some 902%N;
     tb_coDriverId := None; tb_route := None;
     tb_bookings := Some [903%N] |}.

(* ================================================================== *)
(** * Properties *)

(** ** Tokens *)

Section TokenProperties.

Variable jwt_encode : Jws -> string.
Variable jwt_decode : string -> option Jws.
Variable config : Config.

Lemma ms_24h_seconds : ms_24h / 1000 = 86400.
Proof. reflexivity. Qed.

Lemma stamp_exp (uid : ObjectId) (mail rl : string) (t : Z) :
  Token.exp (stamp uid mail rl ms_24h t) = t / 1000 + 86400.
Proof. reflexivity. Qed.

(** What [jwt.verify] answers for a token that parses to [jws] and carries
    the right signature. *)
Lemma jwt_verify_signed (token key : string) (jws : Jws) (t : Z) :
  jwt_decode token = Some jws ->
  signedWith jws = key ->
  jwt_verify jwt_decode token key t =
  if Token.exp (payload jws) <=? t / 1000
  then inl (TokenExpiredError "jwt expired" (Token.exp (payload jws) * 1000))
  else inr (payload jws).
Proof.
  intros Hdec Hkey. unfold jwt_verify, clockTimestamp.
  rewrite Hdec, Hkey, String.eqb_refl. reflexivity.
Qed.

(** C1 (amended).  A token issued at [T] (the clock in milliseconds) is
    accepted exactly while the verifier's clock, in whole seconds, is below
    [floor(T/1000) + 86400]: it is accepted at every time up to one second
    before [T + 24h], in particular at [T + 23h59m], and rejected as expired
    at every time from [T + 24h] on, in particular at [T + 24h01m]. *)
Theorem token_validity_window (e : Env) (u : User.t) (t : Z) :
  let token := issue jwt_encode config e u in
  let signed := stamp (User._id u) (User.email u) (User.role u) ms_24h (now e) in
  jwt_decode token = Some {| payload := signed; signedWith := jwtSecret config |} ->
  (accepted (jwt_verify jwt_decode token (jwtSecret config) t) = true
   <-> t / 1000 < now e / 1000 + 86400)
  /\ (t + 1000 <= now e + ms_24h ->
      jwt_verify jwt_decode token (jwtSecret config) t = inr signed)
  /\ (now e + ms_24h <= t ->
      jwt_verify jwt_decode token (jwtSecret config) t
      = inl (TokenExpiredError "jwt expired" ((now e / 1000 + 86400) * 1000)))
  /\ accepted (jwt_verify jwt_decode token (jwtSecret config)
                          (now e + (23 * 60 + 59) * 60 * 1000)) = true
  /\ accepted (jwt_verify jwt_decode token (jwtSecret config)
                          (now e + (24 * 60 + 1) * 60 * 1000)) = false.
Proof.
  intros token signed Hdec.
  assert (Hv : forall t', jwt_verify jwt_decode token (jwtSecret config) t' =
                 if now e / 1000 + 86400 <=? t' / 1000
                 then inl (TokenExpiredError "jwt expired"
                             ((now e / 1000 + 86400) * 1000))
                 else inr signed).
  { intro t'. rewrite (jwt_verify_signed token (jwtSecret config) _ t' Hdec eq_refl).
    reflexivity. }
  assert (Hlate : forall t', now e + ms_24h <= t' ->
                             now e / 1000 + 86400 <= t' / 1000).
  { intros t' H. unfold ms_24h in H.
    replace (now e / 1000 + 86400) with ((now e + 86400 * 1000) / 1000)
      by (rewrite Z.div_add by lia; reflexivity).
    apply Z.div_le_mono; lia. }
  assert (Hearly : forall t', t' + 1000 <= now e + ms_24h ->
                              t' / 1000 < now e / 1000 + 86400).
  { intros t' H. unfold ms_24h in H.
    assert (t' / 1000 + 1 <= now e / 1000 + 86400); [|lia].
    replace (t' / 1000 + 1) with ((t' + 1 * 1000) / 1000)
      by (rewrite Z.div_add by lia; reflexivity).
    replace (now e / 1000 + 86400) with ((now e + 86400 * 1000) / 1000)
      by (rewrite Z.div_add by lia; reflexivity).
    apply Z.div_le_mono; lia. }
  repeat split.
  - rewrite Hv. destruct (Z.leb_spec (now e / 1000 + 86400) (t / 1000));
      simpl; [discriminate | lia].
  - intro H. rewrite Hv.
    destruct (Z.leb_spec (now e / 1000 + 86400) (t / 1000)); simpl;
      [lia | reflexivity].
  - intro H. rewrite Hv. apply Hearly in H.
    destruct (Z.leb_spec (now e / 1000 + 86400) (t / 1000)); [lia | reflexivity].
  - intro H. rewrite Hv. apply Hlate in H.
    destruct (Z.leb_spec (now e / 1000 + 86400) (t / 1000)); [reflexivity | lia].
  - rewrite Hv.
    assert (H : (now e + (23 * 60 + 59) * 60 * 1000) / 1000
                < now e / 1000 + 86400) by (apply Hearly; unfold ms_24h; lia).
    destruct (Z.leb_spec (now e / 1000 + 86400)
                         ((now e + (23 * 60 + 59) * 60 * 1000) / 1000));
      [lia | reflexivity].
  - rewrite Hv.
    assert (H : now e / 1000 + 86400
                <= (now e + (24 * 60 + 1) * 60 * 1000) / 1000)
      by (apply Hlate; unfold ms_24h; lia).
    destruct (Z.leb_spec (now e / 1000 + 86400)
                         ((now e + (24 * 60 + 1) * 60 * 1000) / 1000));
      [reflexivity | lia].
Qed.

End TokenProperties.

(** The window at a concrete token: issued at 1500 ms, checked at 1000 s. *)
Lemma token_validity_window_witness :
  accepted (jwt_verify demo_decode (issue demo_encode demo_config (at_time 1500) alice)
                       (jwtSecret demo_config) 1000000) = true
  <-> 1000000 / 1000 < now (at_time 1500) / 1000 + 86400.
Proof.
  exact (proj1 (token_validity_window demo_encode demo_decode demo_config
                  (at_time 1500) alice 1000000 eq_refl)).
Defined.

(** C1 as stated fails in the last second of the window: a token issued at
    1.5 s is already expired at 86401.499 s, one millisecond before
    [T + 24h]. *)
Lemma token_rejected_before_24h :
  let T := 1500 in
  let t := 86401499 in
  t < T + ms_24h
  /\ jwt_verify demo_decode
                (issue demo_encode demo_config (at_time T) alice)
                (jwtSecret demo_config) t
     = inl (TokenExpiredError "jwt expired" 86401000).
Proof. split; [reflexivity | vm_compute; reflexivity]. Qed.

(* ================================================================== *)
(** ** The authentication gate *)

Lemma split_on_field (sep : ascii) (a b : string) :
  contains sep a = false ->
  split_on sep (a ++ String sep b) = a :: split_on sep b.
Proof.
  induction a as [|c a IH]; simpl; intro H.
  - rewrite Ascii.eqb_refl. reflexivity.
  - apply orb_false_iff in H. destruct H as [Hc Ha].
    rewrite Hc, (IH Ha). reflexivity.
Qed.

Lemma split_on_last (sep : ascii) (a : string) :
  contains sep a = false -> split_on sep a = [a].
Proof.
  induction a as [|c a IH]; simpl; intro H.
  - reflexivity.
  - apply orb_false_iff in H. destruct H as [Hc Ha].
    rewrite Hc, (IH Ha). reflexivity.
Qed.

Lemma split_on_nonempty (sep : ascii) (s : string) : split_on sep s <> [].
Proof.
  destruct s as [|c s]; simpl; [discriminate|].
  destruct (Ascii.eqb c sep); [discriminate|].
  destruct (split_on sep s); discriminate.
Qed.

(** The second field of [scheme ++ " " ++ t ++ tail], where [tail] is empty
    or starts a further field. *)
Lemma second_field (scheme t tail : string) :
  contains " " scheme = false ->
  contains " " t = false ->
  tail = "" \/ (exists rest, tail = String " " rest) ->
  nth_error (split_on " " (scheme ++ String " " (t ++ tail))) 1 = Some t.
Proof.
  intros Hs Ht Htail. rewrite (split_on_field _ _ _ Hs). simpl.
  destruct Htail as [-> | [rest ->]].
  - replace (t ++ "") with t.
    + rewrite (split_on_last _ _ Ht). reflexivity.
    + clear. induction t; simpl; congruence.
  - rewrite (split_on_field _ _ _ Ht). reflexivity.
Qed.

Lemma truthy_Some (s : string) : s <> "" -> truthy (Some s) = true.
Proof.
  intro H. unfold truthy. destruct (String.eqb_spec s ""); [contradiction|].
  reflexivity.
Qed.

Lemma append_cons_nonempty (a : string) (c : ascii) (b : string) :
  a ++ String c b <> "".
Proof. destruct a; discriminate. Qed.

Section GateProperties.

Variable jwt_decode : string -> option Jws.
Variable config : Config.

Lemma gate_with_token (e : Env) (req : HttpRequest) (w : World) (h t : string) :
  authorization req = Some h ->
  h <> "" ->
  nth_error (split_on " " h) 1 = Some t ->
  t <> "" ->
  authenticateToken jwt_decode config e req w
  = (verified jwt_decode config e t, w).
Proof.
  intros Hh Hne Hnth Ht. unfold authenticateToken, js_and, verified.
  rewrite Hh, (truthy_Some _ Hne), Hnth, (truthy_Some _ Ht). simpl.
  destruct (jwt_verify jwt_decode t (jwtSecret config) (now e)); reflexivity.
Qed.

Lemma gate_without_token (e : Env) (req : HttpRequest) (w : World) :
  (authorization req = None
   \/ exists h, authorization req = Some h
                /\ (nth_error (split_on " " h) 1 = None
                    \/ nth_error (split_on " " h) 1 = Some "")) ->
  authenticateToken jwt_decode config e req w = (unauthenticated, w).
Proof.
  unfold authenticateToken, js_and, unauthenticated.
  intros [-> | [h [-> Hnth]]]; [reflexivity|].
  destruct (truthy (Some h)) eqn:Hh.
  - destruct Hnth as [-> | ->]; reflexivity.
  - rewrite Hh. reflexivity.
Qed.

Lemma gate_keeps_world (e : Env) (req : HttpRequest) (w : World) :
  snd (authenticateToken jwt_decode config e req w) = w.
Proof.
  unfold authenticateToken.
  destruct (negb _); [reflexivity|].
  destruct (js_and _ _); [|reflexivity].
  destruct (jwt_verify _ _ _ _); reflexivity.
Qed.

Lemma gate_ignores_world (e : Env) (req : HttpRequest) (w w' : World) :
  fst (authenticateToken jwt_decode config e req w)
  = fst (authenticateToken jwt_decode config e req w').
Proof.
  unfold authenticateToken.
  destruct (negb _); [reflexivity|].
  destruct (js_and _ _); [|reflexivity].
  destruct (jwt_verify _ _ _ _); reflexivity.
Qed.

End GateProperties.

Section GateContract.

Variable jwt_decode : string -> option Jws.
Variable config : Config.

(** C5.  On a protected route the gate answers 401 when the request has no
    [Authorization] header (or one without a token after the scheme), 403
    when [jwt.verify] rejects the bearer token, and otherwise calls the
    handler with the payload decoded from the token as [req.user].  In every
    case the store and its query log are left as they were, and the outcome
    is the same whatever the store holds. *)
Theorem authenticateToken_contract (e : Env) (req : HttpRequest) (w : World) :
  snd (authenticateToken jwt_decode config e req w) = w
  /\ queries (snd (authenticateToken jwt_decode config e req w)) = queries w
  /\ (forall w', fst (authenticateToken jwt_decode config e req w')
                 = fst (authenticateToken jwt_decode config e req w))
  /\ (authorization req = None \/ authorization req = Some "Bearer" ->
      fst (authenticateToken jwt_decode config e req w)
      = Rejected (mkResponse 401 (error_body "Access token required")))
  /\ (forall t,
        authorization req = Some ("Bearer " ++ t) ->
        t <> "" -> contains " " t = false ->
        (forall err,
            jwt_verify jwt_decode t (jwtSecret config) (now e) = inl err ->
            fst (authenticateToken jwt_decode config e req w)
            = Rejected (mkResponse 403 (error_body "Invalid or expired token")))
        /\ (forall claims,
               jwt_verify jwt_decode t (jwtSecret config) (now e) = inr claims ->
               fst (authenticateToken jwt_decode config e req w) = Next claims
               /\ exists jws, jwt_decode t = Some jws /\ claims = payload jws)).
Proof.
  split; [apply gate_keeps_world|].
  split; [rewrite gate_keeps_world; reflexivity|].
  split; [intro w'; apply gate_ignores_world|].
  split.
  - intros [H | H]; unfold authenticateToken; rewrite H; reflexivity.
  - intros t Hh Ht Hsp.
    assert (Hgate : authenticateToken jwt_decode config e req w
                    = (verified jwt_decode config e t, w)).
    { apply (gate_with_token _ _ _ _ _ ("Bearer " ++ t) t Hh); auto.
      - discriminate.
      - replace ("Bearer " ++ t) with ("Bearer" ++ String " " (t ++ "")).
        * apply second_field; auto.
        * simpl. do 7 f_equal. clear. induction t; simpl; congruence. }
    rewrite Hgate. unfold verified. split.
    + intros err Hv. rewrite Hv. reflexivity.
    + intros claims Hv. rewrite Hv. split; [reflexivity|].
      unfold jwt_verify in Hv. destruct (jwt_decode t) as [jws|]; [|discriminate].
      exists jws. split; [reflexivity|].
      destruct (negb _); [discriminate|].
      destruct (_ <=? _); [discriminate|]. congruence.
Qed.

(** C10 (amended).  The header is cut at every single space character.  When
    the text between the first and the second space (or the end) is not
    empty, that text is the token handed to [jwt.verify], whatever precedes
    the first space; a header with no space, or with nothing between its
    first space and the next one, is answered 401 without verification. *)
Theorem authenticateToken_token_field
        (e : Env) (req : HttpRequest) (w : World) (scheme t tail : string) :
  contains " " scheme = false ->
  (contains " " t = false -> t <> "" ->
   tail = "" \/ (exists rest, tail = String " " rest) ->
   authorization req = Some (scheme ++ String " " (t ++ tail)) ->
   authenticateToken jwt_decode config e req w
   = (verified jwt_decode config e t, w))
  /\ (authorization req = Some scheme ->
      authenticateToken jwt_decode config e req w
      = (Rejected (mkResponse 401 (error_body "Access token required")), w))
  /\ (authorization req = Some (scheme ++ String " " (String " " tail))
      \/ authorization req = Some (scheme ++ " ") ->
      authenticateToken jwt_decode config e req w
      = (Rejected (mkResponse 401 (error_body "Access token required")), w)).
Proof.
  intro Hs. repeat split.
  - intros Ht Hne Htail Hh.
    apply (gate_with_token _ _ _ _ _ _ t Hh); auto.
    + apply append_cons_nonempty.
    + apply second_field; auto.
  - intro Hh. apply gate_without_token. right. exists scheme.
    split; [exact Hh|]. left. rewrite (split_on_last _ _ Hs). reflexivity.
  - intros [Hh | Hh]; apply gate_without_token; right; eexists;
      (split; [exact Hh|]); right; rewrite (split_on_field _ _ _ Hs);
      simpl; reflexivity.
Qed.

End GateContract.

(** The gate on Alice's token: accepted, and [req.user] is her payload. *)
Lemma authenticateToken_contract_witness :
  let token := issue demo_encode demo_config (at_time 1500) alice in
  let req := mkRequest (Some ("Bearer " ++ token)) None GetProfile in
  fst (authenticateToken demo_decode demo_config (at_time 2000) req small_world)
  = Next (stamp 1%N "a@x.com" "user" ms_24h 1500).
Proof.
  intros token req.
  destruct (authenticateToken_contract demo_decode demo_config
              (at_time 2000) req small_world) as (_ & _ & _ & _ & H).
  destruct (H token eq_refl) as [_ Hok].
  - discriminate.
  - reflexivity.
  - exact (proj1 (Hok (stamp 1%N "a@x.com" "user" ms_24h 1500) eq_refl)).
Defined.

(** Any scheme word will do: Alice's token after [Basic] is verified too. *)
Lemma authenticateToken_token_field_witness :
  let token := issue demo_encode demo_config (at_time 1500) alice in
  let req := mkRequest (Some ("Basic " ++ token)) None GetProfile in
  authenticateToken demo_decode demo_config (at_time 2000) req small_world
  = (verified demo_decode demo_config (at_time 2000) token, small_world).
Proof.
  intros token req.
  refine (proj1 (authenticateToken_token_field demo_decode demo_config
                   (at_time 2000) req small_world "Basic" token "" eq_refl)
                _ _ _ _).
  - reflexivity.
  - discriminate.
  - left. reflexivity.
  - reflexivity.
Defined.

(** C10 as stated fails on a header with two spaces after the scheme: its
    second whitespace-separated word is a token that [jwt.verify] accepts,
    yet the gate answers 401. *)
Lemma second_word_not_used :
  let token := issue demo_encode demo_config (at_time 1500) alice in
  let header := "Bearer  " ++ token in
  let req := mkRequest (Some header) None GetProfile in
  words header = ["Bearer"; token]
  /\ accepted (jwt_verify demo_decode token (jwtSecret demo_config)
                          (now (at_time 2000))) = true
  /\ fst (authenticateToken demo_decode demo_config (at_time 2000) req
                            small_world)
     = Rejected (mkResponse 401 (error_body "Access token required")).
Proof. repeat split. Qed.

(* ================================================================== *)
(** ** Registration and login *)

Lemma find_absent {A : Type} (p : A -> bool) (l : list A) :
  (forall x, In x l -> p x = false) -> find p l = None.
Proof.
  induction l as [|a l IH]; simpl; intro H; [reflexivity|].
  rewrite (H a (or_introl eq_refl)). apply IH. intros x Hx. apply H. now right.
Qed.

Lemma existsb_absent {A : Type} (p : A -> bool) (l : list A) :
  (forall x, In x l -> p x = false) -> existsb p l = false.
Proof.
  induction l as [|a l IH]; simpl; intro H; [reflexivity|].
  rewrite (H a (or_introl eq_refl)). apply IH. intros x Hx. apply H. now right.
Qed.

Lemma email_absent (us : list User.t) (mail : string) :
  (forall x, In x us -> User.email x <> mail) ->
  forall x, In x us -> String.eqb (User.email x) mail = false.
Proof.
  intros H x Hx. apply String.eqb_neq. now apply H.
Qed.

(** Under the unique index on [email], [findOne] by a stored identity's
    email returns that identity. *)
Lemma find_by_email (us : list User.t) (u : User.t) :
  In u us ->
  NoDup (map User.email us) ->
  find (fun x => String.eqb (User.email x) (User.email u)) us = Some u.
Proof.
  induction us as [|a us IH]; simpl; intros Hin Hnd; [contradiction|].
  inversion Hnd as [|? ? Hnotin Hnd']; subst.
  destruct Hin as [-> | Hin].
  - rewrite String.eqb_refl. reflexivity.
  - destruct (String.eqb_spec (User.email a) (User.email u)) as [Heq|_].
    + exfalso. apply Hnotin. rewrite Heq. now apply in_map.
    + now apply IH.
Qed.

(* ================================================================== *)
(** ** Running the steps of a handler *)

Lemma bind_Ok {A B : Type} (m : M A) (k : A -> M B) (w w' : World) (a : A) :
  m w = (Ok a, w') -> bind m k w = k a w'.
Proof. intro H. unfold bind. rewrite H. reflexivity. Qed.

Lemma bind_Throw {A B : Type} (m : M A) (k : A -> M B) (w w' : World)
      (message : string) :
  m w = (Throw message, w') -> bind m k w = (Throw message, w').
Proof. intro H. unfold bind. rewrite H. reflexivity. Qed.

Lemma validate_ok (model : string) (w : World) :
  validate model [] w = (Ok tt, w).
Proof. reflexivity. Qed.

Lemma validate_fails (model : string) (err : string) (errs : list string)
      (w : World) :
  validate model (err :: errs) w
  = (Throw (model ++ " validation failed: " ++ join ", " (err :: errs)), w).
Proof. reflexivity. Qed.

Lemma User_findOne_email_run (mail : string) (w : World) :
  User_findOne_email mail w
  = (Ok (find (fun u => String.eqb (User.email u) mail) (users w)),
     logged Users w).
Proof. reflexivity. Qed.

Lemma User_new_run (e : Env) (nm : option string) (mail pw : string)
      (rl ph addr : option string) (w : World) :
  User_new e nm mail pw rl ph addr w
  = (Ok {| User.d_id := nextId w; User.d_name := nm; User.d_email := mail;
           User.d_password := pw; User.d_role := or_keep rl "user";
           User.d_phone := ph; User.d_address := addr;
           User.d_createdAt := now e |},
     fresh w).
Proof. reflexivity. Qed.

Lemma User_save_new_run (d : User.draft) (w : World) :
  User_errors d = [] ->
  (forall x, In x (users w) -> User.email x <> User.d_email d) ->
  User_save_new d w
  = (Ok (User_of_draft d),
     with_users (users w ++ [User_of_draft d]) (logged Users w)).
Proof.
  intros Hval Hfresh. unfold User_save_new. rewrite Hval.
  unfold bind at 1. rewrite validate_ok.
  unfold bind, query, getUsers, putUsers, ret. cbn [users logged].
  rewrite (existsb_absent _ _ (email_absent _ _ Hfresh)). reflexivity.
Qed.

Lemma User_save_new_invalid (d : User.draft) (w : World) (err : string)
      (errs : list string) :
  User_errors d = err :: errs ->
  User_save_new d w
  = (Throw ("User validation failed: " ++ join ", " (err :: errs)), w).
Proof.
  intro Hval. unfold User_save_new. rewrite Hval. reflexivity.
Qed.

Section Credentials.

Variable jwt_encode : Jws -> string.
Variable bcrypt_digest : string -> string -> string.
Variable bcrypt_matches : string -> string -> bool.
Variable config : Config.

(** C4.  With the unique index on [email] in place, a login with a stored
    identity's email and a password that does not match, and a login with an
    email that no identity has, get the same answer: status 400 with the body
    [{ error: 'Invalid credentials' }].  The store ends in the same state in
    both cases too. *)
Theorem login_failures_identical
        (e : Env) (w : World) (u : User.t) (pw unknown : string)
        (pw' : option string) :
  In u (users w) ->
  NoDup (map User.email (users w)) ->
  bcrypt_matches pw (User.password u) = false ->
  (forall x, In x (users w) -> User.email x <> unknown) ->
  let wrong_password :=
    login jwt_encode bcrypt_matches config e
          {| l_email := User.email u; l_password := Some pw |} w in
  let unknown_email :=
    login jwt_encode bcrypt_matches config e
          {| l_email := unknown; l_password := pw' |} w in
  fst wrong_password = mkResponse 400 (error_body "Invalid credentials")
  /\ fst unknown_email = mkResponse 400 (error_body "Invalid credentials")
  /\ wrong_password = unknown_email.
Proof.
  intros Hin Hnd Hpw Hunknown.
  assert (H1 : login jwt_encode bcrypt_matches config e
                     {| l_email := User.email u; l_password := Some pw |} w
               = (mkResponse 400 (error_body "Invalid credentials"),
                  snd (query Users w))).
  { unfold login, try_catch, bind, User_findOne_email, getUsers, ret. simpl.
    rewrite (find_by_email _ _ Hin Hnd). simpl. rewrite Hpw. reflexivity. }
  assert (H2 : login jwt_encode bcrypt_matches config e
                     {| l_email := unknown; l_password := pw' |} w
               = (mkResponse 400 (error_body "Invalid credentials"),
                  snd (query Users w))).
  { unfold login, try_catch, bind, User_findOne_email, getUsers, ret. simpl.
    rewrite (find_absent _ _ (email_absent _ _ Hunknown)). reflexivity. }
  simpl. rewrite H1, H2. repeat split.
Qed.

(** What [register] does with a well-formed body whose email is new. *)
Lemma register_new_email (e : Env) (b : RegisterBody) (w : World)
      (n pw : string) :
  r_name b = Some n -> n <> "" -> r_email b <> "" ->
  r_password b = Some pw ->
  (forall x, In x (users w) -> User.email x <> r_email b) ->
  let hashed := "$2a$10$" ++ salt e ++ bcrypt_digest (salt e) pw in
  let rl := or_keep (r_role b) "user" in
  let u := {| User._id := nextId w; User.name := n;
              User.email := r_email b; User.password := hashed;
              User.role := rl; User.phone := r_phone b;
              User.address := r_address b; User.createdAt := now e;
              User.lastLogin := None |} in
  register jwt_encode bcrypt_digest config e b w =
  if member rl User.roles
  then (mkResponse 201
          (JObj [("message", JStr "User registered successfully");
                 ("token", JStr (issue jwt_encode config e u));
                 ("user", User_summary u)]),
        with_users (users w ++ [u]) (logged Users (fresh (logged Users w))))
  else (mkResponse 500
          (error_body ("User validation failed: role: `" ++ rl
                       ++ "` is not a valid enum value for path `role`.")),
        fresh (logged Users w)).
Proof.
  intros Hn Hne Hmail Hpw Hfresh hashed rl u.
  unfold register, try_catch.
  rewrite (bind_Ok _ _ _ _ _ (User_findOne_email_run _ _)).
  rewrite (find_absent _ _ (email_absent _ _ Hfresh)).
  rewrite Hpw. unfold bcrypt_hash. fold hashed.
  rewrite (bind_Ok _ _ _ _ _ (eq_refl : ret hashed _ = (Ok hashed, _))).
  rewrite (bind_Ok _ _ _ _ _ (User_new_run _ _ _ _ _ _ _ _)).
  fold rl. rewrite Hn. cbn [nextId logged].
  set (d := {| User.d_id := nextId w; User.d_name := Some n |}).
  assert (Hd : User_of_draft d = u) by reflexivity.
  assert (Herr : User_errors d = enum_validator "role" User.roles rl).
  { unfold User_errors, required_string. cbn [User.d_name User.d_email
      User.d_password User.d_role d].
    rewrite (truthy_Some _ Hne), (truthy_Some _ Hmail).
    reflexivity. }
  unfold enum_validator in Herr.
  destruct (member rl User.roles) eqn:Hrole.
  - rewrite (bind_Ok _ _ _ _ _ (User_save_new_run d (fresh (logged Users w)) Herr Hfresh)).
    rewrite Hd. reflexivity.
  - rewrite (bind_Throw _ _ _ _ _ (User_save_new_invalid d _ _ _ Herr)).
    reflexivity.
Qed.

(** C2 (amended).  For a registration input with a name, a password and an
    email that is not registered yet: when [role] is absent, [register]
    succeeds and persists the identity with role ["user"]; when [role] is a
    string outside the four recognised roles, the schema rejects it, the
    request fails and no identity is persisted. *)
Theorem register_role_default
        (e : Env) (b : RegisterBody) (w : World) (n pw : string) :
  r_name b = Some n -> n <> "" -> r_email b <> "" ->
  r_password b = Some pw ->
  (forall x, In x (users w) -> User.email x <> r_email b) ->
  let answer := register jwt_encode bcrypt_digest config e b w in
  (r_role b = None ->
   status (fst answer) = 201
   /\ exists u, users (snd answer) = (users w ++ [u])%list
                /\ User.role u = "user"
                /\ User.email u = r_email b /\ User.name u = n)
  /\ (forall r, r_role b = Some r -> member r User.roles = false ->
                status (fst answer) = 500
                /\ field "error" (body (fst answer))
                   = Some (JStr ("User validation failed: role: `" ++ r
                                 ++ "` is not a valid enum value for path `role`."))
                /\ users (snd answer) = users w).
Proof.
  intros Hn Hne Hmail Hpw Hfresh answer. subst answer.
  rewrite (register_new_email e b w n pw Hn Hne Hmail Hpw Hfresh).
  split.
  - intro Hrole. rewrite Hrole. cbn [or_keep].
    change (member "user" User.roles) with true. cbv iota.
    split; [reflexivity|].
    eexists. split; [reflexivity|]. repeat split.
  - intros r Hrole Hnot. rewrite Hrole. cbn [or_keep]. rewrite Hnot.
    repeat split.
Qed.

End Credentials.

(** Bob's password tried on Alice's account, and an address nobody has. *)
Lemma login_failures_identical_witness :
  login demo_encode demo_matches demo_config (at_time 9000)
        {| l_email := "a@x.com"; l_password := Some "pw2" |} small_world
  = login demo_encode demo_matches demo_config (at_time 9000)
          {| l_email := "nobody@x.com"; l_password := Some "pw2" |} small_world.
Proof.
  refine (proj2 (proj2 (login_failures_identical demo_encode demo_matches
                          demo_config (at_time 9000) small_world alice "pw2"
                          "nobody@x.com" (Some "pw2") _ _ _ _))).
  - left. reflexivity.
  - repeat constructor; simpl; intuition discriminate.
  - reflexivity.
  - intros x [<- | [<- | []]]; discriminate.
Defined.

(** Carol registering without a role. *)
Lemma register_role_default_witness :
  status (fst (register demo_encode demo_digest demo_config (at_time 9000)
                        (carol_body None) small_world)) = 201.
Proof.
  refine (proj1 (proj1 (register_role_default demo_encode demo_digest
                          demo_config (at_time 9000) (carol_body None)
                          small_world "Carol" "pw3" eq_refl _ _ eq_refl _)
                       eq_refl)).
  - discriminate.
  - discriminate.
  - intros x [<- | [<- | []]]; discriminate.
Defined.

(** C2 as stated fails for a role outside the four: the request is answered
    500 and nobody is added to the store. *)
Lemma register_unknown_role_rejected :
  let answer := register demo_encode demo_digest demo_config (at_time 9000)
                         (carol_body (Some "superuser")) small_world in
  member "superuser" User.roles = false
  /\ status (fst answer) = 500
  /\ users (snd answer) = users small_world.
Proof. repeat split. Qed.

(* ================================================================== *)
(** ** Bookings: creation and ownership *)

Lemma find_app_Some {A : Type} (p : A -> bool) (l l' : list A) (x : A) :
  find p l = Some x -> find p (l ++ l') = Some x.
Proof.
  induction l as [|a l IH]; simpl; [discriminate|].
  destruct (p a); [trivial | exact IH].
Qed.

(** Updating the first document with a given id by a function that keeps
    [_id] and [clientId] keeps every owner. *)
Lemma owner_update_first (f : Booking.t -> Booking.t) (id id' : ObjectId)
      (bs : list Booking.t) :
  (forall b, Booking._id (f b) = Booking._id b) ->
  (forall b, Booking.clientId (f b) = Booking.clientId b) ->
  option_map Booking.clientId
    (find (fun b => oid_eqb (Booking._id b) id')
          (update_first (fun b => oid_eqb (Booking._id b) id) f bs))
  = option_map Booking.clientId
      (find (fun b => oid_eqb (Booking._id b) id') bs).
Proof.
  intros Hid Hclient. induction bs as [|a bs IH]; simpl; [reflexivity|].
  destruct (oid_eqb (Booking._id a) id); simpl.
  - rewrite Hid. destruct (oid_eqb (Booking._id a) id'); simpl;
      [rewrite Hclient|]; reflexivity.
  - destruct (oid_eqb (Booking._id a) id'); [reflexivity | exact IH].
Qed.

Lemma owner_kept_same_bookings (w w' : World) (id owner : ObjectId) :
  bookings w' = bookings w ->
  owner_of w id = Some owner -> owner_of w' id = Some owner.
Proof. intros H Ho. unfold owner_of in *. rewrite H. exact Ho. Qed.

(** The draft [createBooking] builds. *)
Lemma createBooking_cases
      (e : Env) (caller : Token.Payload) (b : BookingBody) (w : World) :
  let d := {| Booking.d_id := nextId w;
              Booking.d_airwayBill := "AWB" ++ dec (now e) ++ rnd e;
              Booking.d_clientId := Token.userId caller;
              Booking.d_cargoDetails := cargoDetails b;
              Booking.d_route := route b;
              Booking.d_status := "pending";
              Booking.d_price := price b;
              Booking.d_paymentStatus := "pending";
              Booking.d_createdAt := now e;
              Booking.d_updatedAt := now e |} in
  createBooking e caller b w =
  match Booking_errors d with
  | [] =>
      if existsb (fun x => String.eqb (Booking.airwayBill x)
                                      (Booking.d_airwayBill d)) (bookings w)
      then (mkResponse 500
              (error_body (duplicate_key "airwayBill_1"
                                         (Booking.d_airwayBill d))),
            logged Bookings (fresh w))
      else (mkResponse 201
              (JObj [("message", JStr "Booking created successfully");
                     ("booking", Booking_plain (Booking_of_draft d))]),
            with_bookings (bookings w ++ [Booking_of_draft d])
                          (logged Bookings (fresh w)))
  | err :: errs =>
      (mkResponse 500
         (error_body ("Booking validation failed: "
                      ++ join ", " (err :: errs))),
       fresh w)
  end.
Proof.
  intro d. unfold createBooking, try_catch, Booking_new, Booking_save_new.
  unfold bind at 1. unfold bind at 1. unfold freshId, ret at 1. fold d.
  unfold bind at 1. unfold bind at 1.
  destruct (Booking_errors d) as [|err errs] eqn:Herr.
  - rewrite validate_ok.
    unfold bind, query, getBookingsColl, putBookings, ret.
    cbn [bookings logged fresh].
    destruct (existsb _ (bookings w)); reflexivity.
  - rewrite validate_fails. reflexivity.
Qed.

(** *** Handlers that never write to the bookings collection *)

Lemma keeps_ret {A : Type} (a : A) : keeps_bookings (ret a).
Proof. intro w. reflexivity. Qed.

Lemma keeps_throw {A : Type} (message : string) :
  keeps_bookings (@throw A message).
Proof. intro w. reflexivity. Qed.

Lemma keeps_bind {A B : Type} (m : M A) (k : A -> M B) :
  keeps_bookings m -> (forall a, keeps_bookings (k a)) ->
  keeps_bookings (bind m k).
Proof.
  intros Hm Hk w. unfold bind. specialize (Hm w).
  destruct (m w) as [[a|message] w']; simpl in *.
  - rewrite (Hk a w'). exact Hm.
  - exact Hm.
Qed.

Lemma keeps_query (c : Collection) : keeps_bookings (query c).
Proof. intro w. reflexivity. Qed.

Lemma keeps_freshId : keeps_bookings freshId.
Proof. intro w. reflexivity. Qed.

Lemma keeps_getUsers : keeps_bookings getUsers.
Proof. intro w. reflexivity. Qed.

Lemma keeps_getBookingsColl : keeps_bookings getBookingsColl.
Proof. intro w. reflexivity. Qed.

Lemma keeps_getTripsColl : keeps_bookings getTripsColl.
Proof. intro w. reflexivity. Qed.

Lemma keeps_getVehiclesColl : keeps_bookings getVehiclesColl.
Proof. intro w. reflexivity. Qed.

Lemma keeps_putUsers (us : list User.t) : keeps_bookings (putUsers us).
Proof. intro w. reflexivity. Qed.

Lemma keeps_putTrips (ts : list Trip.t) : keeps_bookings (putTrips ts).
Proof. intro w. reflexivity. Qed.

Lemma keeps_putVehicles (vs : list Vehicle.t) : keeps_bookings (putVehicles vs).
Proof. intro w. reflexivity. Qed.

Lemma keeps_validate (model : string) (errors : list string) :
  keeps_bookings (validate model errors).
Proof. intro w. destruct errors; reflexivity. Qed.

Lemma keeps_try_catch (m : M Response) (w : World) :
  keeps_bookings m -> bookings (snd (try_catch m w)) = bookings w.
Proof.
  intro Hm. unfold try_catch. specialize (Hm w).
  destruct (m w) as [[r|message] w']; exact Hm.
Qed.

Ltac keeps :=
  repeat first
    [ apply keeps_ret | apply keeps_throw | apply keeps_query
    | apply keeps_freshId | apply keeps_getUsers | apply keeps_getBookingsColl
    | apply keeps_getTripsColl | apply keeps_getVehiclesColl
    | apply keeps_putUsers | apply keeps_putTrips | apply keeps_putVehicles
    | apply keeps_validate
    | apply keeps_bind; [ | intro ]
    | match goal with
      | |- keeps_bookings (match ?x with _ => _ end) => destruct x
      | |- keeps_bookings (if ?x then _ else _) => destruct x
      end
    | progress cbv zeta ].

Section Ownership.

Variable jwt_encode : Jws -> string.
Variable jwt_decode : string -> option Jws.
Variable bcrypt_digest : string -> string -> string.
Variable bcrypt_matches : string -> string -> bool.
Variable config : Config.

Lemma register_bookings (e : Env) (b : RegisterBody) (w : World) :
  bookings (snd (register jwt_encode bcrypt_digest config e b w)) = bookings w.
Proof.
  unfold register, User_findOne_email, bcrypt_hash, User_new, User_save_new.
  apply keeps_try_catch; keeps.
Qed.

Lemma login_bookings (e : Env) (b : LoginBody) (w : World) :
  bookings (snd (login jwt_encode bcrypt_matches config e b w)) = bookings w.
Proof.
  unfold login, User_findOne_email, bcrypt_compare, User_save.
  apply keeps_try_catch; keeps.
Qed.

Lemma getProfile_bookings (u : Token.Payload) (w : World) :
  bookings (snd (getProfile u w)) = bookings w.
Proof. unfold getProfile, User_findById. apply keeps_try_catch; keeps. Qed.

Lemma updateProfile_bookings (u : Token.Payload) (b : ProfileBody) (w : World) :
  bookings (snd (updateProfile u b w)) = bookings w.
Proof.
  unfold updateProfile, User_findByIdAndUpdate. apply keeps_try_catch; keeps.
Qed.

Lemma getBookings_bookings (u : Token.Payload) (w : World) :
  bookings (snd (getBookings u w)) = bookings w.
Proof. unfold getBookings. apply keeps_try_catch; keeps. Qed.

Lemma getBookingById_bookings (u : Token.Payload) (id : ObjectId) (w : World) :
  bookings (snd (getBookingById u id w)) = bookings w.
Proof.
  unfold getBookingById, Booking_findById. apply keeps_try_catch; keeps.
Qed.

Lemma createTrip_bookings (e : Env) (b : TripBody) (w : World) :
  bookings (snd (createTrip e b w)) = bookings w.
Proof.
  unfold createTrip, Trip_new, Trip_save_new. apply keeps_try_catch; keeps.
Qed.

Lemma getTrips_bookings (w : World) : bookings (snd (getTrips w)) = bookings w.
Proof. unfold getTrips. apply keeps_try_catch; keeps. Qed.

Lemma updateTripStatus_bookings (id : ObjectId) (b : TripStatusBody)
      (w : World) :
  bookings (snd (updateTripStatus id b w)) = bookings w.
Proof.
  unfold updateTripStatus, Trip_findByIdAndUpdate. apply keeps_try_catch; keeps.
Qed.

Lemma getVehicles_bookings (w : World) :
  bookings (snd (getVehicles w)) = bookings w.
Proof. unfold getVehicles. apply keeps_try_catch; keeps. Qed.

Lemma updateVehicleStatus_bookings (id : ObjectId) (b : VehicleStatusBody)
      (w : World) :
  bookings (snd (updateVehicleStatus id b w)) = bookings w.
Proof.
  unfold updateVehicleStatus, Vehicle_findByIdAndUpdate.
  apply keeps_try_catch; keeps.
Qed.

Lemma getStats_bookings (w : World) : bookings (snd (getStats w)) = bookings w.
Proof. unfold getStats, Booking_aggregate_paid. apply keeps_try_catch; keeps. Qed.

Lemma createBooking_owner_kept
      (e : Env) (u : Token.Payload) (b : BookingBody) (w : World)
      (id owner : ObjectId) :
  owner_of w id = Some owner ->
  owner_of (snd (createBooking e u b w)) id = Some owner.
Proof.
  intro H. rewrite createBooking_cases.
  destruct (Booking_errors _); [destruct (existsb _ _)|]; try exact H.
  unfold owner_of in *. cbn [snd bookings with_bookings].
  destruct (find _ (bookings w)) as [x|] eqn:Hfind; [|discriminate].
  rewrite (find_app_Some _ _ _ _ Hfind). exact H.
Qed.

Lemma updateBookingStatus_owner_kept
      (e : Env) (id' : ObjectId) (b : StatusBody) (w : World)
      (id owner : ObjectId) :
  owner_of w id = Some owner ->
  owner_of (snd (updateBookingStatus e id' b w)) id = Some owner.
Proof.
  intro H. unfold updateBookingStatus, try_catch, Booking_findByIdAndUpdate.
  unfold bind, query, getBookingsColl, putBookings, ret.
  cbn [bookings logged].
  destruct (find _ (bookings w)); [|exact H].
  unfold owner_of in *. cbn [snd bookings with_bookings logged].
  rewrite owner_update_first; [exact H | reflexivity | reflexivity].
Qed.

Lemma protected_owner_kept
      (e : Env) (req : HttpRequest)
      (handler : Token.Payload -> World -> Response * World) (w : World)
      (id owner : ObjectId) :
  (forall u, owner_of w id = Some owner ->
             owner_of (snd (handler u w)) id = Some owner) ->
  owner_of w id = Some owner ->
  owner_of (snd (protected jwt_decode config e req handler w)) id = Some owner.
Proof.
  intros Hh H. unfold protected.
  pose proof (gate_keeps_world jwt_decode config e req w) as Hw.
  destruct (authenticateToken jwt_decode config e req w) as [[r|u] w'];
    simpl in Hw; subst w'; [exact H | now apply Hh].
Qed.

Lemma app_owner_kept (e : Env) (req : HttpRequest) (w : World)
      (id owner : ObjectId) :
  owner_of w id = Some owner ->
  owner_of (snd (app jwt_encode jwt_decode bcrypt_digest bcrypt_matches
                     config e req w)) id = Some owner.
Proof.
  intro H. unfold app.
  destruct (bodyParseError req); [exact H|].
  destruct (target req);
    try (apply protected_owner_kept; [intros u _ | exact H]);
    first
      [ now apply createBooking_owner_kept
      | now apply updateBookingStatus_owner_kept
      | exact H
      | apply (owner_kept_same_bookings w); [|exact H];
        first
          [ apply register_bookings | apply login_bookings
          | apply getProfile_bookings | apply updateProfile_bookings
          | apply getBookings_bookings | apply getBookingById_bookings
          | apply createTrip_bookings | apply getTrips_bookings
          | apply updateTripStatus_bookings | apply getVehicles_bookings
          | apply updateVehicleStatus_bookings | apply getStats_bookings ] ].
Qed.

(** C7.  Whenever [createBooking] answers 201, the booking it has added has
    status and payment status ["pending"] and the caller as owner; the
    answer and the stored booking depend on [cargoDetails], [route] and
    [price] only, whatever else the request body carries (a [status], a
    [paymentStatus], a [clientId]); and no request served afterwards changes
    the owner recorded for a booking. *)
Theorem createBooking_owner_fixed :
  (forall (e : Env) (caller : Token.Payload) (b : BookingBody) (w : World),
      status (fst (createBooking e caller b w)) = 201 ->
      exists booking,
        bookings (snd (createBooking e caller b w))
        = (bookings w ++ [booking])%list
        /\ Booking.status booking = "pending"
        /\ Booking.paymentStatus booking = "pending"
        /\ Booking.clientId booking = Token.userId caller
        /\ field "booking" (body (fst (createBooking e caller b w)))
           = Some (Booking_plain booking))
  /\ (forall (e : Env) (caller : Token.Payload) (b : BookingBody)
             (other : list (string * json)) (w : World),
         createBooking e caller
           {| cargoDetails := cargoDetails b; route := route b;
              price := price b; otherProperties := other |} w
         = createBooking e caller b w)
  /\ (forall (reqs : list (Env * HttpRequest)) (w : World)
             (id owner : ObjectId),
         owner_of w id = Some owner ->
         owner_of (serve jwt_encode jwt_decode bcrypt_digest bcrypt_matches
                         config reqs w) id = Some owner).
Proof.
  split; [|split].
  - intros e caller b w. rewrite createBooking_cases.
    destruct (Booking_errors _); [destruct (existsb _ _)|];
      cbn [fst snd status]; try discriminate.
    intros _. eexists. split; [reflexivity|]. repeat split.
  - reflexivity.
  - intro reqs. induction reqs as [|[e req] reqs IH]; intros w id owner H.
    + exact H.
    + simpl. apply IH. now apply app_owner_kept.
Qed.

End Ownership.

(** A booking request that also carries a status, a payment status and an
    owner of its own: the stored booking ignores all three. *)
Lemma createBooking_owner_fixed_witness :
  let answer := createBooking (at_time 9000) (stamp 2%N "b@x.com" "user" ms_24h 8000)
                              pushy_body small_world in
  status (fst answer) = 201
  /\ exists booking,
       bookings (snd answer) = [crate; booking]
       /\ Booking.status booking = "pending"
       /\ Booking.paymentStatus booking = "pending"
       /\ Booking.clientId booking = 2%N.
Proof.
  intro answer. split; [reflexivity|].
  destruct (proj1 (createBooking_owner_fixed demo_encode demo_decode
                     demo_digest demo_matches demo_config)
                  (at_time 9000) (stamp 2%N "b@x.com" "user" ms_24h 8000)
                  pushy_body small_world eq_refl)
    as (booking & Hb & Hs & Hp & Hc & _).
  exists booking. repeat split; assumption.
Defined.


(* ================================================================== *)
(** ** Dashboard revenue *)

Lemma fold_left_prices (bs : list Booking.t) (acc : float) :
  fold_left (fun a b => (a + Booking.price b)%float) bs acc
  = fold_left PrimFloat.add (map Booking.price bs) acc.
Proof.
  revert acc. induction bs as [|b bs IH]; intro acc; simpl.
  - reflexivity.
  - apply IH.
Qed.


(** The pipeline followed by [[0]?.total || 0] is the sum of the paid prices
    in double arithmetic, with a falsy total turned into 0. *)
Lemma pipeline_total (bs : list Booking.t) :
  first_total_or_0 (group_total (match_paid bs))
  = if truthy_number (paid_revenue bs) then paid_revenue bs else 0%float.
Proof.
  unfold paid_revenue, match_paid, double_sum.
  destruct (filter _ bs) as [|b paid]; [reflexivity|].
  unfold group_total, first_total_or_0. rewrite fold_left_prices. reflexivity.
Qed.





(* ================================================================== *)
(** ** Booking status updates *)

(** [updateBookingStatus] stores whatever status string it is given. *)
Lemma updateBookingStatus_stores
      (e : Env) (id : ObjectId) (s : string) (w : World) (b : Booking.t) :
  find (fun x => oid_eqb (Booking._id x) id) (bookings w) = Some b ->
  let answer := updateBookingStatus e id {| s_status := Some s |} w in
  status (fst answer) = 200
  /\ option_map Booking.status
       (find (fun x => oid_eqb (Booking._id x) id) (bookings (snd answer)))
     = Some s.
Proof.
  intros Hfind answer. subst answer.
  unfold updateBookingStatus, try_catch, Booking_findByIdAndUpdate.
  unfold bind, query, getBookingsColl, putBookings, ret.
  cbn [bookings logged]. rewrite Hfind.
  cbn [fst snd status bookings with_bookings s_status].
  split; [reflexivity|].
  clear -Hfind. induction (bookings w) as [|a bs IH]; [discriminate|].
  simpl in *. destruct (oid_eqb (Booking._id a) id) eqn:Ha.
  - simpl. rewrite Ha. reflexivity.
  - simpl. rewrite Ha. exact (IH Hfind).
Qed.

Lemma updateBookingStatus_not_found
      (e : Env) (id : ObjectId) (b : StatusBody) (w : World) :
  find (fun x => oid_eqb (Booking._id x) id) (bookings w) = None ->
  updateBookingStatus e id b w
  = (mkResponse 404 (error_body "Booking not found"), logged Bookings w).
Proof.
  intro Hfind.
  unfold updateBookingStatus, try_catch, Booking_findByIdAndUpdate.
  unfold bind, query, getBookingsColl, putBookings, ret.
  cbn [bookings logged]. rewrite Hfind. reflexivity.
Qed.

(** C3, at a failing input.  The status ["lost-at-sea"] is outside the
    declared set, yet [updateBookingStatus] answers 200 and the booking now
    holds it: [findByIdAndUpdate] does not run the schema's [enum]
    validator. *)
Theorem updateBookingStatus_undeclared_status_stored :
  let answer := updateBookingStatus (at_time 9000) 7%N
                                    {| s_status := Some "lost-at-sea" |}
                                    small_world in
  member "lost-at-sea" Booking.statuses = false
  /\ status (fst answer) = 200
  /\ map Booking.status (bookings small_world) = ["pending"]
  /\ map Booking.status (bookings (snd answer)) = ["lost-at-sea"].
Proof. repeat split. Qed.

(* ================================================================== *)
(** ** Reading one booking *)

Lemma length_append (a b : string) :
  String.length (a ++ b) = (String.length a + String.length b)%nat.
Proof. induction a as [|c a IH]; simpl; [reflexivity | now rewrite IH]. Qed.

Lemma hex_fixed_length (digits : nat) (n : N) (acc : string) :
  String.length (hex_fixed digits n acc) = (digits + String.length acc)%nat.
Proof.
  revert n acc. induction digits as [|d IH]; intros n acc; simpl.
  - reflexivity.
  - rewrite IH. simpl. lia.
Qed.

Lemma oid_hex_length (o : ObjectId) : String.length (oid_hex o) = 24%nat.
Proof. unfold oid_hex. rewrite hex_fixed_length. reflexivity. Qed.

(** The inspection of a populated document is never the 24 digits of an
    id. *)
Lemma inspect_is_no_id (id id' : ObjectId) (sel : list (string * string)) :
  String.eqb (Populated_inspect id sel) (oid_hex id') = false.
Proof.
  apply String.eqb_neq. intro H.
  apply (f_equal String.length) in H. unfold Populated_inspect in H.
  rewrite !length_append, !oid_hex_length in H. simpl in H. lia.
Qed.

Lemma getBookingById_not_found
      (caller : Token.Payload) (id : ObjectId) (w : World) :
  find (fun x => oid_eqb (Booking._id x) id) (bookings w) = None ->
  fst (getBookingById caller id w)
  = mkResponse 404 (error_body "Booking not found").
Proof.
  intro Hfind. unfold getBookingById, try_catch, Booking_findById.
  unfold bind, query, getBookingsColl, ret. cbn [bookings logged].
  rewrite Hfind. reflexivity.
Qed.

Lemma getBookingById_admin
      (caller : Token.Payload) (id : ObjectId) (w : World) (b : Booking.t) :
  Token.role caller = "admin" ->
  find (fun x => oid_eqb (Booking._id x) id) (bookings w) = Some b ->
  fst (getBookingById caller id w)
  = mkResponse 200
      (Booking_json
         (Populated_json (populate_user ["name"; "email"] (users w)
                                        (Booking.clientId b))) b).
Proof.
  intros Hrole Hfind. unfold getBookingById, try_catch, Booking_findById.
  unfold bind, query, getBookingsColl, getUsers, ret. cbn [bookings logged].
  rewrite Hfind, Hrole. reflexivity.
Qed.

(** A caller who is not an admin is denied every booking whose owner is
    still in the store, its own bookings included: the comparison is between
    a populated document and an id. *)
Lemma getBookingById_non_admin_denied
      (caller : Token.Payload) (id : ObjectId) (w : World) (b : Booking.t)
      (owner : User.t) :
  Token.role caller <> "admin" ->
  find (fun x => oid_eqb (Booking._id x) id) (bookings w) = Some b ->
  find (fun u => oid_eqb (User._id u) (Booking.clientId b)) (users w)
  = Some owner ->
  fst (getBookingById caller id w) = mkResponse 403 (error_body "Access denied").
Proof.
  intros Hrole Hfind Howner. unfold getBookingById, try_catch, Booking_findById.
  unfold bind, query, getBookingsColl, getUsers, ret.
  cbn [bookings users logged].
  rewrite Hfind. apply String.eqb_neq in Hrole. rewrite Hrole.
  unfold populate_user. cbn [users logged]. rewrite Howner. cbn [negb].
  rewrite inspect_is_no_id. reflexivity.
Qed.

(** C6, at a failing input.  Alice, role ["user"], owns the booking with id
    7 and asks for it; the answer is 403. *)
Theorem getBookingById_owner_denied :
  let caller := stamp 1%N "a@x.com" "user" ms_24h 8000 in
  Booking.clientId crate = Token.userId caller
  /\ find (fun x => oid_eqb (Booking._id x) 7%N) (bookings small_world)
     = Some crate
  /\ fst (getBookingById caller 7%N small_world)
     = mkResponse 403 (error_body "Access denied").
Proof. repeat split. Qed.

(* ================================================================== *)
(** ** Error responses *)

Section Errors.

Variable config : Config.

(** The error middleware always names the failure in [error] and shows the
    message of the exception in development mode only. *)
Lemma errorHandler_gates_message (message : string) :
  status (errorHandler config message) = 500
  /\ field "error" (body (errorHandler config message))
     = Some (JStr "Something went wrong!")
  /\ (environment config = "development" ->
      field "message" (body (errorHandler config message))
      = Some (JStr message))
  /\ (environment config <> "development" ->
      field "message" (body (errorHandler config message))
      = Some (JStr "Internal server error")).
Proof.
  unfold errorHandler. cbn [status body field assoc String.eqb Ascii.eqb
                            Bool.eqb].
  repeat split.
  - intros ->. reflexivity.
  - intro H. apply String.eqb_neq in H. rewrite H. reflexivity.
Qed.

End Errors.

(** C9, at a failing input.  In production mode a registration with a role
    outside the enum is answered 500 by the controller's own [catch], and
    the [error] field carries the message of the exception, while the error
    middleware would have answered ["Internal server error"]. *)
Theorem register_exposes_message_in_production :
  let answer := register demo_encode demo_digest production_config
                         (at_time 9000) (carol_body (Some "superuser"))
                         small_world in
  environment production_config <> "development"
  /\ fst answer
     = mkResponse 500
         (error_body "User validation failed: role: `superuser` is not a valid enum value for path `role`.")
  /\ field "message"
       (body (errorHandler production_config
                "User validation failed: role: `superuser` is not a valid enum value for path `role`."))
     = Some (JStr "Internal server error").
Proof. repeat split. discriminate. Qed.

(** *** Every failure response has an [error] string *)

Lemma answers_ret (P : Response -> Prop) (r : Response) :
  P r -> answers P (ret r).
Proof. intros H w r' w' Heq. inversion Heq. subst. exact H. Qed.

Lemma answers_throw (P : Response -> Prop) (message : string) :
  answers P (throw message).
Proof. intros w r w' Heq. discriminate. Qed.

Lemma answers_bind {A : Type} (P : Response -> Prop) (m : M A)
      (k : A -> M Response) :
  (forall a, answers P (k a)) -> answers P (bind m k).
Proof.
  intros Hk w r w' Heq. unfold bind in Heq.
  destruct (m w) as [[a|message] w1]; [|discriminate].
  exact (Hk a w1 r w' Heq).
Qed.

Lemma try_catch_named (m : M Response) (w : World) :
  answers failure_named m -> failure_named (fst (try_catch m w)).
Proof.
  intro Hm. unfold try_catch. specialize (Hm w).
  destruct (m w) as [[r|message] w'].
  - exact (Hm r w' eq_refl).
  - intros _. eexists. reflexivity.
Qed.

Ltac named :=
  repeat first
    [ apply answers_throw
    | apply answers_ret; unfold failure_named; cbn [status]; intro;
      first [ lia | eexists; reflexivity ]
    | apply answers_bind; intro
    | match goal with
      | |- answers _ (match ?x with _ => _ end) => destruct x
      | |- answers _ (if ?x then _ else _) => destruct x
      end
    | progress cbv zeta ].

Section Failures.

Variable jwt_encode : Jws -> string.
Variable jwt_decode : string -> option Jws.
Variable bcrypt_digest : string -> string -> string.
Variable bcrypt_matches : string -> string -> bool.
Variable config : Config.

Lemma protected_named
      (e : Env) (req : HttpRequest)
      (handler : Token.Payload -> World -> Response * World) (w : World) :
  (forall u w', failure_named (fst (handler u w'))) ->
  failure_named (fst (protected jwt_decode config e req handler w)).
Proof.
  intro Hh. unfold protected, authenticateToken.
  destruct (negb _); [intros _; eexists; reflexivity|].
  destruct (js_and _ _); [|intros _; eexists; reflexivity].
  destruct (jwt_verify _ _ _ _); [intros _; eexists; reflexivity|].
  apply Hh.
Qed.

(** Whatever the request, a response with status 400 or above is a JSON
    object with an [error] string property. *)
Lemma app_failures_named (e : Env) (req : HttpRequest) (w : World) :
  failure_named (fst (app jwt_encode jwt_decode bcrypt_digest bcrypt_matches
                          config e req w)).
Proof.
  unfold app.
  destruct (bodyParseError req); [intros _; eexists; reflexivity|].
  destruct (target req);
    try (apply protected_named; intros u w');
    try (intros _; eexists; reflexivity);
    apply try_catch_named.
  - unfold User_findOne_email. named.
  - unfold User_findOne_email. named.
  - unfold User_findById. named.
  - unfold User_findByIdAndUpdate. named.
  - named.
  - named.
  - unfold Booking_findById. named.
  - unfold Booking_findByIdAndUpdate. named.
  - named.
  - named.
  - unfold Trip_findByIdAndUpdate. named.
  - named.
  - unfold Vehicle_findByIdAndUpdate. named.
  - named.
Qed.

End Failures.

(** The request of Alice for her own booking, through the whole
    application: she presents the token issued to her and is denied. *)
Lemma owner_denied_end_to_end :
  let token := issue demo_encode demo_config (at_time 8000) alice in
  let req := mkRequest (Some ("Bearer " ++ token)) None (GetBookingById 7%N) in
  fst (app demo_encode demo_decode demo_digest demo_matches demo_config
           (at_time 9000) req small_world)
  = mkResponse 403 (error_body "Access denied").
Proof. vm_compute. reflexivity. Qed.

(* ================================================================== *)
(** * Further properties of the server *)

(** ** Steps that leave a view of the store unchanged *)

Lemma preserves_ret {A B : Type} (view : World -> B) (a : A) :
  preserves view (ret a).
Proof. intro w. reflexivity. Qed.

Lemma preserves_throw {A B : Type} (view : World -> B) (message : string) :
  preserves view (@throw A message).
Proof. intro w. reflexivity. Qed.

Lemma preserves_bind {A A' B : Type} (view : World -> B) (m : M A)
      (k : A -> M A') :
  preserves view m -> (forall a, preserves view (k a)) ->
  preserves view (bind m k).
Proof.
  intros Hm Hk w. unfold bind. specialize (Hm w).
  destruct (m w) as [[a|message] w']; simpl in *.
  - rewrite (Hk a w'). exact Hm.
  - exact Hm.
Qed.

Lemma preserves_validate {B : Type} (view : World -> B) (model : string)
      (errors : list string) :
  preserves view (validate model errors).
Proof. intro w. destruct errors; reflexivity. Qed.

Lemma preserves_get {A B : Type} (view : World -> B) (f : World -> A) :
  preserves view (fun w => (Ok (f w), w)).
Proof. intro w. reflexivity. Qed.

Lemma preserves_set {B : Type} (view : World -> B) (f : World -> World) :
  (forall w, view (f w) = view w) ->
  preserves view (fun w => (Ok tt, f w)).
Proof. intros H w. apply H. Qed.

Lemma preserves_try_catch {B : Type} (view : World -> B) (m : M Response)
      (w : World) :
  preserves view m -> view (snd (try_catch m w)) = view w.
Proof.
  intro Hm. unfold try_catch. specialize (Hm w).
  destruct (m w) as [[r|message] w']; exact Hm.
Qed.

(** Discharges [preserves view m] for a handler body whose writes do not
    show in [view]. *)
Ltac preserved :=
  repeat first
    [ apply preserves_ret | apply preserves_throw | apply preserves_validate
    | apply preserves_bind; [ | intro ]
    | match goal with
      | |- preserves _ (query _) => apply preserves_set; intro; reflexivity
      | |- preserves _ freshId =>
          intro; reflexivity
      | |- preserves _ getUsers => apply preserves_get
      | |- preserves _ getBookingsColl => apply preserves_get
      | |- preserves _ getTripsColl => apply preserves_get
      | |- preserves _ getVehiclesColl => apply preserves_get
      | |- preserves _ (putUsers _) => apply preserves_set; intro; reflexivity
      | |- preserves _ (putBookings _) =>
          apply preserves_set; intro; reflexivity
      | |- preserves _ (putTrips _) => apply preserves_set; intro; reflexivity
      | |- preserves _ (putVehicles _) =>
          apply preserves_set; intro; reflexivity
      | |- preserves _ (match ?x with _ => _ end) => destruct x
      | |- preserves _ (if ?x then _ else _) => destruct x
      end
    | progress cbv zeta ].

(** ** Routing *)

Section Routing.

Variable jwt_encode : Jws -> string.
Variable jwt_decode : string -> option Jws.
Variable bcrypt_digest : string -> string -> string.
Variable bcrypt_matches : string -> string -> bool.
Variable config : Config.

(** X1.  On each of the twelve routes behind [authenticateToken], a request
    that the gate rejects is answered by the gate alone: no controller runs,
    and the store, its query log included, is what it was.  In particular a
    request without an [Authorization] header gets 401. *)
Theorem rejected_request_reaches_no_controller
        (e : Env) (req : HttpRequest) (w : World) :
  bodyParseError req = None ->
  is_protected (target req) = true ->
  (forall r,
      fst (authenticateToken jwt_decode config e req w) = Rejected r ->
      app jwt_encode jwt_decode bcrypt_digest bcrypt_matches config e req w
      = (r, w))
  /\ (authorization req = None ->
      app jwt_encode jwt_decode bcrypt_digest bcrypt_matches config e req w
      = (mkResponse 401 (error_body "Access token required"), w)).
Proof.
  intros Hbody Hprot.
  assert (Hrej : forall r,
             fst (authenticateToken jwt_decode config e req w) = Rejected r ->
             app jwt_encode jwt_decode bcrypt_digest bcrypt_matches config
                 e req w = (r, w)).
  { intros r Hr. unfold app. rewrite Hbody.
    pose proof (gate_keeps_world jwt_decode config e req w) as Hw.
    destruct (target req); try discriminate; unfold protected;
      destruct (authenticateToken jwt_decode config e req w) as [g w'];
      simpl in Hr, Hw; subst; reflexivity. }
  split; [exact Hrej|].
  intro Hnone. apply Hrej. unfold authenticateToken. rewrite Hnone. reflexivity.
Qed.

(** A request whose body [express.json()] could not parse is answered
    by the error middleware whatever its route and credentials: status 500,
    [error] ["Something went wrong!"], the parser's message only in
    development mode, and the store untouched. *)
Lemma unparsable_body_answered_by_errorHandler
        (e : Env) (req : HttpRequest) (w : World) (message : string) :
  bodyParseError req = Some message ->
  let answer := app jwt_encode jwt_decode bcrypt_digest bcrypt_matches config
                    e req w in
  snd answer = w
  /\ status (fst answer) = 500
  /\ field "error" (body (fst answer)) = Some (JStr "Something went wrong!")
  /\ field "message" (body (fst answer))
     = Some (JStr (if String.eqb (environment config) "development"
                   then message else "Internal server error")).
Proof.
  intros Hbody answer. subst answer. unfold app. rewrite Hbody.
  repeat split.
Qed.

(** X2.  A [GET] route never changes what the store holds: users, bookings,
    trips, vehicles and the id counter are the same after the request,
    whoever sends it and whatever the answer. *)
Theorem get_routes_read_only (e : Env) (req : HttpRequest) (w : World) :
  is_get (target req) = true ->
  documents (snd (app jwt_encode jwt_decode bcrypt_digest bcrypt_matches
                      config e req w))
  = documents w.
Proof.
  intro Hget. unfold app.
  destruct (bodyParseError req); [reflexivity|].
  destruct (target req); try discriminate; unfold protected;
    pose proof (gate_keeps_world jwt_decode config e req w) as Hw;
    destruct (authenticateToken jwt_decode config e req w) as [[r|u] w'];
    simpl in Hw; subst w'; try reflexivity;
    apply preserves_try_catch;
    try unfold User_findById; try unfold Booking_findById; preserved.
Qed.

End Routing.

Lemma rejected_request_reaches_no_controller_witness :
  app demo_encode demo_decode demo_digest demo_matches demo_config
      (at_time 9000) (mkRequest None None GetDashboardStats) small_world
  = (mkResponse 401 (error_body "Access token required"), small_world).
Proof.
  exact (proj2 (rejected_request_reaches_no_controller
                  demo_encode demo_decode demo_digest demo_matches demo_config
                  (at_time 9000) (mkRequest None None GetDashboardStats)
                  small_world eq_refl eq_refl) eq_refl).
Defined.

Lemma unparsable_body_answered_by_errorHandler_witness :
  status (fst (app demo_encode demo_decode demo_digest demo_matches
                   production_config (at_time 9000)
                   (mkRequest None (Some "Unexpected token } in JSON")
                              (PostLogin {| l_email := "a@x.com";
                                            l_password := Some "pw1" |}))
                   small_world)) = 500.
Proof.
  exact (proj1 (proj2 (unparsable_body_answered_by_errorHandler
                         demo_encode demo_decode demo_digest demo_matches
                         production_config (at_time 9000)
                         (mkRequest None (Some "Unexpected token } in JSON")
                                    (PostLogin {| l_email := "a@x.com";
                                                  l_password := Some "pw1" |}))
                         small_world
                         "Unexpected token } in JSON" eq_refl))).
Defined.

Lemma get_routes_read_only_witness :
  documents (snd (app demo_encode demo_decode demo_digest demo_matches
                      demo_config (at_time 9000)
                      (mkRequest
                         (Some ("Bearer " ++ issue demo_encode demo_config
                                                   (at_time 8000) alice))
                         None GetBookings)
                      small_world))
  = documents small_world.
Proof.
  exact (get_routes_read_only demo_encode demo_decode demo_digest demo_matches
           demo_config (at_time 9000)
           (mkRequest
              (Some ("Bearer " ++ issue demo_encode demo_config
                                        (at_time 8000) alice))
              None GetBookings)
           small_world eq_refl).
Defined.

(* ================================================================== *)
(** ** The user controller *)

Lemma find_present {A : Type} (p : A -> bool) (l : list A) (x : A) :
  In x l -> p x = true -> exists y, find p l = Some y.
Proof.
  induction l as [|a l IH]; simpl; [contradiction|].
  intros [-> | Hin] Hp.
  - rewrite Hp. eauto.
  - destruct (p a); eauto.
Qed.

Lemma find_app_absent {A : Type} (p : A -> bool) (l : list A) (x : A) :
  find p l = None -> p x = true -> find p (l ++ [x]) = Some x.
Proof.
  induction l as [|a l IH]; simpl; intros Hnone Hp.
  - rewrite Hp. reflexivity.
  - destruct (p a); [discriminate | now apply IH].
Qed.

(** Under unique ids, replacing the first document with the id of [u] is
    replacing [u]. *)
Lemma update_first_by_id (us : list User.t) (u u' : User.t) :
  NoDup (map User._id us) ->
  In u us ->
  update_first (fun x => oid_eqb (User._id x) (User._id u)) (fun _ => u') us
  = map (fun x => if oid_eqb (User._id x) (User._id u) then u' else x) us.
Proof.
  induction us as [|a us IH]; simpl; intros Hnd Hin; [reflexivity|].
  inversion Hnd as [|? ? Hnotin Hnd']; subst.
  destruct (oid_eqb (User._id a) (User._id u)) eqn:Ha.
  - f_equal. apply N.eqb_eq in Ha.
    rewrite <- (map_id us) at 1. apply map_ext_in. intros x Hx.
    destruct (oid_eqb (User._id x) (User._id u)) eqn:Hxu; [|reflexivity].
    exfalso. apply Hnotin. apply N.eqb_eq in Hxu. rewrite Ha, <- Hxu.
    now apply in_map.
  - f_equal. destruct Hin as [-> | Hin].
    + unfold oid_eqb in Ha. rewrite N.eqb_refl in Ha. discriminate.
    + now apply IH.
Qed.

Section UserController.

Variable jwt_encode : Jws -> string.
Variable bcrypt_digest : string -> string -> string.
Variable bcrypt_matches : string -> string -> bool.
Variable config : Config.

(** X3.  Registering an email that some stored identity already has is
    answered 400 ["User already exists"]; nothing is hashed, no id is drawn
    and no document is written. *)
Theorem register_duplicate_email
        (e : Env) (b : RegisterBody) (w : World) (u : User.t) :
  In u (users w) ->
  User.email u = r_email b ->
  register jwt_encode bcrypt_digest config e b w
  = (mkResponse 400 (error_body "User already exists"), logged Users w).
Proof.
  intros Hin Hmail. unfold register, try_catch.
  rewrite (bind_Ok _ _ _ _ _ (User_findOne_email_run _ _)).
  destruct (find_present (fun x => String.eqb (User.email x) (r_email b))
                         (users w) u Hin) as [y Hy].
  - rewrite Hmail. apply String.eqb_refl.
  - rewrite Hy. reflexivity.
Qed.

(** X4.  A login with the email of a stored identity and a password that
    bcrypt accepts ends in [user.save()], which runs the validators of the
    schema on the loaded document.  When they accept it the answer is 200
    with a token issued for that identity; in the store the identity's
    [lastLogin] becomes the time of the request and no other document
    changes.  When they reject it (an empty [name], say) the answer is 500
    and nothing is written; with a single failing path the body carries the
    message of that path. *)
Theorem login_success
        (e : Env) (w : World) (u : User.t) (pw : string) :
  In u (users w) ->
  NoDup (map User.email (users w)) ->
  NoDup (map User._id (users w)) ->
  bcrypt_matches pw (User.password u) = true ->
  let u' := User_touch (now e) u in
  let answer := login jwt_encode bcrypt_matches config e
                      {| l_email := User.email u; l_password := Some pw |} w in
  (User_stored_errors u = [] ->
   fst answer
   = mkResponse 200
       (JObj [("message", JStr "Login successful");
              ("token", JStr (issue jwt_encode config e u'));
              ("user", User_summary u)])
   /\ users (snd answer)
      = map (fun x => if oid_eqb (User._id x) (User._id u) then u' else x)
            (users w)
   /\ User.lastLogin u' = Some (now e)
   /\ bookings (snd answer) = bookings w
   /\ trips (snd answer) = trips w
   /\ vehicles (snd answer) = vehicles w)
  /\ (User_stored_errors u <> [] ->
      status (fst answer) = 500
      /\ users (snd answer) = users w
      /\ bookings (snd answer) = bookings w
      /\ trips (snd answer) = trips w
      /\ vehicles (snd answer) = vehicles w)
  /\ (forall err, User_stored_errors u = [err] ->
      body (fst answer) = error_body ("User validation failed: " ++ err)).
Proof.
  intros Hin Hmails Hids Hpw u' answer. subst answer.
  unfold login, try_catch.
  rewrite (bind_Ok _ _ _ _ _ (User_findOne_email_run _ _)).
  cbn [l_email l_password].
  rewrite (find_by_email _ _ Hin Hmails).
  unfold bcrypt_compare.
  rewrite (bind_Ok _ _ _ _ _ (eq_refl : ret (bcrypt_matches pw _) _ = (Ok _, _))).
  rewrite Hpw. cbn [negb]. fold u'.
  unfold User_save.
  change (User_stored_errors u') with (User_stored_errors u).
  split; [|split].
  - intro Hvalid. rewrite Hvalid.
    unfold validate, bind, query, getUsers, putUsers, ret.
    cbn [fst snd users bookings trips vehicles logged with_users].
    change (User._id u') with (User._id u).
    rewrite (update_first_by_id _ u u' Hids Hin).
    repeat split.
  - intro Hinvalid.
    destruct (User_stored_errors u) as [|err errs]; [now elim Hinvalid|].
    repeat split.
  - intros err Herr. rewrite Herr. reflexivity.
Qed.

(** X5.  Registration followed by login: once [register] has stored an
    identity, a login with the same email and password is answered 200 and
    names the identity that was registered, provided bcrypt accepts the
    password against the hash it produced. *)
Theorem register_then_login
        (e e' : Env) (b : RegisterBody) (w : World) (n pw : string) :
  r_name b = Some n -> n <> "" -> r_email b <> "" ->
  r_password b = Some pw -> r_role b = None ->
  (forall x, In x (users w) -> User.email x <> r_email b) ->
  bcrypt_matches pw ("$2a$10$" ++ salt e ++ bcrypt_digest (salt e) pw) = true ->
  let registered := register jwt_encode bcrypt_digest config e b w in
  let answer := login jwt_encode bcrypt_matches config e'
                      {| l_email := r_email b; l_password := Some pw |}
                      (snd registered) in
  status (fst registered) = 201
  /\ status (fst answer) = 200
  /\ field "user" (body (fst answer)) = field "user" (body (fst registered))
  /\ exists u, field "user" (body (fst answer)) = Some (User_summary u)
               /\ User.email u = r_email b /\ User.role u = "user".
Proof.
  intros Hn Hne Hmail Hpw Hrole Hfresh Hmatch registered answer.
  subst answer registered.
  rewrite (register_new_email jwt_encode bcrypt_digest config e b w n pw
             Hn Hne Hmail Hpw Hfresh).
  rewrite Hrole. cbn [or_keep].
  change (member "user" User.roles) with true. cbv iota.
  cbn [fst snd status body].
  unfold login, try_catch.
  rewrite (bind_Ok _ _ _ _ _ (User_findOne_email_run _ _)).
  cbn [l_email l_password users with_users logged fresh].
  rewrite find_app_absent;
    [| apply find_absent, email_absent, Hfresh | apply String.eqb_refl].
  unfold bcrypt_compare.
  rewrite (bind_Ok _ _ _ _ _ (eq_refl : ret (bcrypt_matches pw _) _ = (Ok _, _))).
  cbn [User.password]. rewrite Hmatch. cbn [negb].
  unfold User_save.
  match goal with
  | |- context [validate "User" ?errors] =>
      assert (Hvalid : errors = [])
        by (unfold User_stored_errors, required_string;
            cbn [User.name User.email User.password User.role User_touch];
            rewrite (truthy_Some _ Hne), (truthy_Some _ Hmail); reflexivity);
      rewrite Hvalid
  end.
  unfold validate, bind, query, getUsers, putUsers, ret.
  cbn [fst snd status body].
  split; [reflexivity|]. split; [reflexivity|]. split; [reflexivity|].
  eexists. split; [reflexivity|]. split; reflexivity.
Qed.

(** X6.  A login request without a [password] property tells a registered
    email from an unknown one: for a stored identity [bcrypt.compare] throws
    and the answer is 500 with its message, for an unknown email the answer
    is the usual 400. *)
Theorem login_without_password
        (e : Env) (w : World) (u : User.t) (unknown : string) :
  In u (users w) ->
  (forall x, In x (users w) -> User.email x <> unknown) ->
  fst (login jwt_encode bcrypt_matches config e
             {| l_email := User.email u; l_password := None |} w)
  = mkResponse 500 (error_body "Illegal arguments: undefined, string")
  /\ fst (login jwt_encode bcrypt_matches config e
                {| l_email := unknown; l_password := None |} w)
     = mkResponse 400 (error_body "Invalid credentials").
Proof.
  intros Hin Hunknown. split; unfold login, try_catch;
    rewrite (bind_Ok _ _ _ _ _ (User_findOne_email_run _ _)); cbn [l_email].
  - destruct (find_present (fun x => String.eqb (User.email x) (User.email u))
                           (users w) u Hin (String.eqb_refl _)) as [y Hy].
    rewrite Hy. reflexivity.
  - rewrite (find_absent _ _ (email_absent _ _ Hunknown)). reflexivity.
Qed.

End UserController.

Lemma register_duplicate_email_witness :
  fst (register demo_encode demo_digest demo_config (at_time 9000)
                {| r_name := Some "Alice again"; r_email := "a@x.com";
                   r_password := Some "pw9"; r_role := None;
                   r_phone := None; r_address := None |} small_world)
  = mkResponse 400 (error_body "User already exists").
Proof.
  exact (f_equal fst
           (register_duplicate_email demo_encode demo_digest demo_config
              (at_time 9000)
              {| r_name := Some "Alice again"; r_email := "a@x.com";
                 r_password := Some "pw9"; r_role := None;
                 r_phone := None; r_address := None |}
              small_world alice (or_introl eq_refl) eq_refl)).
Defined.

(** Alice logs in; Bob, who has blanked his name through the profile route,
    no longer can. *)
Lemma login_success_witness :
  users (snd (login demo_encode demo_matches demo_config (at_time 9000)
                    {| l_email := "a@x.com"; l_password := Some "pw1" |}
                    small_world))
  = [User_touch 9000 alice; bob]
  /\ fst (login demo_encode demo_matches demo_config (at_time 9500)
                {| l_email := "b@x.com"; l_password := Some "pw2" |}
                renamed_world)
     = mkResponse 500
         (error_body "User validation failed: name: Path `name` is required.").
Proof.
  split.
  - refine (proj1 (proj2 (proj1 (login_success demo_encode demo_matches
                                   demo_config (at_time 9000) small_world
                                   alice "pw1" _ _ _ _) eq_refl))).
    + left. reflexivity.
    + repeat constructor; simpl; intuition discriminate.
    + repeat constructor; simpl; intuition discriminate.
    + reflexivity.
  - destruct (login_success demo_encode demo_matches demo_config
                (at_time 9500) renamed_world (User_rename "" bob) "pw2")
      as (_ & Hinvalid & Hmessage).
    + right. left. reflexivity.
    + repeat constructor; simpl; intuition discriminate.
    + repeat constructor; simpl; intuition discriminate.
    + reflexivity.
    + destruct (Hinvalid ltac:(discriminate)) as (Hstatus & _).
      specialize (Hmessage _ eq_refl).
      destruct (fst (login _ _ _ _ _ _)) as [code answer].
      cbn [status body] in Hstatus, Hmessage. now rewrite Hstatus, Hmessage.
Defined.

Lemma register_then_login_witness :
  status (fst (login demo_encode demo_matches demo_config (at_time 9500)
                     {| l_email := "c@x.com"; l_password := Some "pw3" |}
                     (snd (register demo_encode demo_digest demo_config
                                    (at_time 9000) (carol_body None)
                                    small_world)))) = 200.
Proof.
  refine (proj1 (proj2 (register_then_login demo_encode demo_digest
                          demo_matches demo_config (at_time 9000)
                          (at_time 9500) (carol_body None) small_world
                          "Carol" "pw3" eq_refl _ _ eq_refl eq_refl _ eq_refl))).
  - discriminate.
  - discriminate.
  - intros x [<- | [<- | []]]; discriminate.
Defined.

Lemma login_without_password_witness :
  fst (login demo_encode demo_matches demo_config (at_time 9000)
             {| l_email := "a@x.com"; l_password := None |} small_world)
  = mkResponse 500 (error_body "Illegal arguments: undefined, string").
Proof.
  refine (proj1 (login_without_password demo_encode demo_matches demo_config
                   (at_time 9000) small_world alice "nobody@x.com" _ _)).
  - left. reflexivity.
  - intros x [<- | [<- | []]]; discriminate.
Defined.

(* ================================================================== *)
(** ** Steps related by a preorder on stores *)

Section Steps.

Variable R : World -> World -> Prop.
Hypothesis R_refl : forall w, R w w.
Hypothesis R_trans : forall w1 w2 w3, R w1 w2 -> R w2 w3 -> R w1 w3.

Lemma steps_ret {A : Type} (a : A) : steps R (ret a).
Proof. intro w. apply R_refl. Qed.

Lemma steps_throw {A : Type} (message : string) : steps R (@throw A message).
Proof. intro w. apply R_refl. Qed.

Lemma steps_validate (model : string) (errors : list string) :
  steps R (validate model errors).
Proof. intro w. destruct errors; apply R_refl. Qed.

Lemma steps_get {A : Type} (f : World -> A) :
  steps R (fun w => (Ok (f w), w)).
Proof. intro w. apply R_refl. Qed.

Lemma steps_bind {A B : Type} (m : M A) (k : A -> M B) :
  steps R m -> (forall a, steps R (k a)) -> steps R (bind m k).
Proof.
  intros Hm Hk w. unfold bind. specialize (Hm w).
  destruct (m w) as [[a|message] w']; simpl in *.
  - exact (R_trans _ _ _ Hm (Hk a w')).
  - exact Hm.
Qed.

Lemma steps_try_catch (m : M Response) (w : World) :
  steps R m -> R w (snd (try_catch m w)).
Proof.
  intro Hm. unfold try_catch. specialize (Hm w).
  destruct (m w) as [[r|message] w']; exact Hm.
Qed.

End Steps.

(** Discharges [steps R m]; [leaf] proves [R w (f w)] for the writes. *)
Ltac stepping Hrefl Htrans leaf :=
  repeat first
    [ apply (steps_ret _ Hrefl) | apply (steps_throw _ Hrefl)
    | apply (steps_validate _ Hrefl)
    | apply (steps_bind _ Htrans); [ | intro ]
    | match goal with
      | |- steps _ getUsers => apply (steps_get _ Hrefl)
      | |- steps _ getBookingsColl => apply (steps_get _ Hrefl)
      | |- steps _ getTripsColl => apply (steps_get _ Hrefl)
      | |- steps _ getVehiclesColl => apply (steps_get _ Hrefl)
      | |- steps _ (query _) => intro; leaf
      | |- steps _ freshId => intro; leaf
      | |- steps _ (putUsers _) => intro; leaf
      | |- steps _ (putBookings _) => intro; leaf
      | |- steps _ (putTrips _) => intro; leaf
      | |- steps _ (putVehicles _) => intro; leaf
      | |- steps _ (match ?x with _ => _ end) => destruct x
      | |- steps _ (if ?x then _ else _) => destruct x
      end
    | progress cbv zeta ].

Lemma same_users_later_refl (w : World) : same_users_later w w.
Proof. split; [reflexivity | apply N.le_refl]. Qed.

Lemma same_users_later_trans (w1 w2 w3 : World) :
  same_users_later w1 w2 -> same_users_later w2 w3 -> same_users_later w1 w3.
Proof.
  intros [Hu Hn] [Hu' Hn']. split; [congruence | eapply N.le_trans; eauto].
Qed.

Ltac users_untouched :=
  stepping same_users_later_refl same_users_later_trans
           ltac:(split; [reflexivity | cbn; lia]).

(* ================================================================== *)
(** ** Identities in the store *)

Lemma existsb_false_all {A : Type} (p : A -> bool) (l : list A) :
  existsb p l = false -> forall x, In x l -> p x = false.
Proof.
  induction l as [|a l IH]; simpl; intros H x Hx; [contradiction|].
  apply orb_false_iff in H. destruct H as [Ha Hl].
  destruct Hx as [<- | Hx]; [exact Ha | now apply IH].
Qed.

(** Saving a document that has the identity of the stored [u] over it
    keeps every identity of the collection. *)
Lemma identities_update_first (us : list User.t) (u u' : User.t) :
  NoDup (map User._id us) ->
  In u us ->
  identity u' = identity u ->
  map identity
      (update_first (fun x => oid_eqb (User._id x) (User._id u))
                    (fun _ => u') us)
  = map identity us.
Proof.
  intros Hnd Hin Hid. induction us as [|a us IH]; simpl; [reflexivity|].
  inversion Hnd as [|? ? Hnotin Hnd']; subst.
  destruct (oid_eqb (User._id a) (User._id u)) eqn:Ha; simpl.
  - destruct Hin as [-> | Hin]; [now rewrite Hid|].
    exfalso. apply Hnotin. apply N.eqb_eq in Ha. rewrite Ha.
    now apply in_map.
  - f_equal. destruct Hin as [-> | Hin].
    + unfold oid_eqb in Ha. rewrite N.eqb_refl in Ha. discriminate.
    + now apply IH.
Qed.

Lemma ids_of_identities (us : list User.t) :
  map User._id us = map (fun i => fst (fst (fst i))) (map identity us).
Proof. rewrite map_map. reflexivity. Qed.

Lemma emails_of_identities (us : list User.t) :
  map User.email us = map (fun i => snd (fst (fst i))) (map identity us).
Proof. rewrite map_map. reflexivity. Qed.

Section Identities.

Variable jwt_encode : Jws -> string.
Variable jwt_decode : string -> option Jws.
Variable bcrypt_digest : string -> string -> string.
Variable bcrypt_matches : string -> string -> bool.
Variable config : Config.

Lemma identities_step_same (w w' : World) :
  same_users_later w w' -> identities_step w w'.
Proof. intros [Hu Hn]. split; [exact Hn|]. left. now rewrite Hu. Qed.

Lemma register_identities (e : Env) (b : RegisterBody) (w : World) :
  identities_step w (snd (register jwt_encode bcrypt_digest config e b w)).
Proof.
  unfold register, try_catch.
  rewrite (bind_Ok _ _ _ _ _ (User_findOne_email_run _ _)).
  destruct (find _ (users w)).
  { apply identities_step_same. split; [reflexivity | cbn; lia]. }
  unfold bcrypt_hash. destruct (r_password b) as [pw|].
  2:{ apply identities_step_same. split; [reflexivity | cbn; lia]. }
  rewrite (bind_Ok _ _ _ _ _ (eq_refl : ret _ _ = (Ok _, _))).
  rewrite (bind_Ok _ _ _ _ _ (User_new_run _ _ _ _ _ _ _ _)).
  cbn [nextId logged].
  set (d := {| User.d_id := nextId w |}).
  unfold User_save_new.
  destruct (User_errors d) as [|err errs].
  2:{ apply identities_step_same. split; [reflexivity | cbn; lia]. }
  unfold bind, validate, query, getUsers, putUsers, ret, throw.
  cbn [users logged fresh].
  destruct (existsb _ (users w)) eqn:Hex.
  { apply identities_step_same. split; [reflexivity | cbn; lia]. }
  split; [cbn; lia|]. right. exists (User_of_draft d).
  cbn [snd users with_users nextId logged fresh].
  split; [now rewrite map_app|]. split; [reflexivity|]. split; [cbn; lia|].
  intros x Hx. apply String.eqb_neq.
  exact (existsb_false_all _ _ Hex x Hx).
Qed.

Lemma login_identities (e : Env) (b : LoginBody) (w : World) :
  NoDup (map User._id (users w)) ->
  identities_step w (snd (login jwt_encode bcrypt_matches config e b w)).
Proof.
  intro Hnd. unfold login, try_catch.
  rewrite (bind_Ok _ _ _ _ _ (User_findOne_email_run _ _)).
  destruct (find _ (users w)) as [u|] eqn:Hfind.
  2:{ apply identities_step_same. split; [reflexivity | cbn; lia]. }
  apply find_some in Hfind. destruct Hfind as [Hin _].
  unfold bcrypt_compare. destruct (l_password b) as [pw|].
  2:{ apply identities_step_same. split; [reflexivity | cbn; lia]. }
  rewrite (bind_Ok _ _ _ _ _ (eq_refl : ret _ _ = (Ok _, _))).
  destruct (negb _).
  { apply identities_step_same. split; [reflexivity | cbn; lia]. }
  unfold User_save.
  destruct (User_stored_errors _) as [|err errs].
  2:{ apply identities_step_same. split; [reflexivity | cbn; lia]. }
  unfold validate, bind, query, getUsers, putUsers, ret.
  cbn [snd users nextId logged with_users].
  split; [cbn; lia|]. left. cbn [users with_users].
  change (User._id (User_touch (now e) u)) with (User._id u).
  now apply identities_update_first.
Qed.

Lemma updateProfile_identities
      (caller : Token.Payload) (b : ProfileBody) (w : World) :
  NoDup (map User._id (users w)) ->
  identities_step w (snd (updateProfile caller b w)).
Proof.
  intro Hnd.
  unfold updateProfile, try_catch, User_findByIdAndUpdate.
  unfold bind, query, getUsers, putUsers, ret.
  cbn [users logged].
  destruct (find _ (users w)) as [u|] eqn:Hfind.
  2:{ apply identities_step_same. split; [reflexivity | cbn; lia]. }
  apply find_some in Hfind. destruct Hfind as [Hin Hid].
  apply N.eqb_eq in Hid.
  cbn [snd users nextId logged with_users].
  split; [cbn; lia|]. left. cbn [users with_users]. rewrite <- Hid.
  now apply identities_update_first.
Qed.

Lemma protected_identities
      (e : Env) (req : HttpRequest)
      (handler : Token.Payload -> World -> Response * World) (w : World) :
  (forall u, identities_step w (snd (handler u w))) ->
  identities_step w (snd (protected jwt_decode config e req handler w)).
Proof.
  intro Hh. unfold protected.
  pose proof (gate_keeps_world jwt_decode config e req w) as Hw.
  destruct (authenticateToken jwt_decode config e req w) as [[r|u] w'];
    simpl in Hw; subst w'; [|apply Hh].
  apply identities_step_same, same_users_later_refl.
Qed.

Lemma app_identities (e : Env) (req : HttpRequest) (w : World) :
  NoDup (map User._id (users w)) ->
  identities_step w (snd (app jwt_encode jwt_decode bcrypt_digest
                              bcrypt_matches config e req w)).
Proof.
  intro Hnd. unfold app.
  destruct (bodyParseError req);
    [apply identities_step_same, same_users_later_refl|].
  destruct (target req);
    try (apply protected_identities; intro u);
    lazymatch goal with
    | |- identities_step _ (snd (register _ _ _ _ _ _)) =>
        apply register_identities
    | |- identities_step _ (snd (login _ _ _ _ _ _)) =>
        now apply login_identities
    | |- identities_step _ (snd (updateProfile _ _ _)) =>
        now apply updateProfile_identities
    | |- identities_step _ (snd (_, _)) =>
        apply identities_step_same, same_users_later_refl
    | |- _ =>
        apply identities_step_same;
        apply (steps_try_catch same_users_later);
        try unfold User_findById; try unfold Booking_new;
        try unfold Booking_save_new; try unfold Booking_findById;
        try unfold Booking_findByIdAndUpdate; try unfold Trip_new;
        try unfold Trip_save_new; try unfold Trip_findByIdAndUpdate;
        try unfold Vehicle_findByIdAndUpdate;
        try unfold Booking_aggregate_paid;
        users_untouched
    end.
Qed.

Lemma users_ok_step (w w' : World) :
  users_ok w -> identities_step w w' -> users_ok w'.
Proof.
  intros (Hids & Hmails & Hbelow) [Hnext [Hsame | (u & Hadd & Hid & Hlt & Hfresh)]].
  - unfold users_ok.
    rewrite ids_of_identities, emails_of_identities, Hsame,
      <- ids_of_identities, <- emails_of_identities.
    split; [exact Hids|]. split; [exact Hmails|].
    intros x Hx.
    assert (Hin : In (User._id x) (map User._id (users w))).
    { rewrite ids_of_identities, <- Hsame, <- ids_of_identities.
      now apply in_map. }
    apply in_map_iff in Hin. destruct Hin as (y & Hy & Hiny).
    rewrite <- Hy. specialize (Hbelow y Hiny). lia.
  - unfold users_ok.
    rewrite ids_of_identities, emails_of_identities, Hadd, !map_app,
      <- ids_of_identities, <- emails_of_identities.
    cbn [map identity fst snd].
    split; [|split].
    + apply NoDup_app; [exact Hids | repeat constructor; simpl; tauto |].
      intros i Hi [<- | []]. apply in_map_iff in Hi.
      destruct Hi as (y & Hy & Hiny). specialize (Hbelow y Hiny). lia.
    + apply NoDup_app; [exact Hmails | repeat constructor; simpl; tauto |].
      intros m Hm [<- | []]. apply in_map_iff in Hm.
      destruct Hm as (y & Hy & Hiny). exact (Hfresh y Hiny Hy).
    + intros x Hx.
      assert (Hin : In (User._id x)
                       (map User._id (users w) ++ [User._id u])).
      { replace (map User._id (users w) ++ [User._id u])%list
          with (map User._id (users w')).
        - now apply in_map.
        - rewrite (ids_of_identities (users w')), Hadd, map_app,
            <- ids_of_identities. reflexivity. }
      apply in_app_or in Hin. destruct Hin as [Hin | [Hin | []]].
      * apply in_map_iff in Hin. destruct Hin as (y & Hy & Hiny).
        rewrite <- Hy. specialize (Hbelow y Hiny). lia.
      * rewrite <- Hin. lia.
Qed.

(** X7.  The constraints of the users collection are an invariant of the
    server: from a store with unique ids, unique emails and all ids below
    the id counter, every sequence of requests leads to such a store. *)
Theorem users_ok_invariant (reqs : list (Env * HttpRequest)) (w : World) :
  users_ok w ->
  users_ok (serve jwt_encode jwt_decode bcrypt_digest bcrypt_matches config
                  reqs w).
Proof.
  revert w. induction reqs as [|[e req] reqs IH]; intros w Hok; [exact Hok|].
  simpl. apply IH. apply (users_ok_step w); [exact Hok|].
  apply app_identities. exact (proj1 Hok).
Qed.

(** X8.  No request deletes an identity or changes its id, email, role or
    password hash: after any sequence of requests the identities of the
    store are those it started with, in the same order, followed by the ones
    registered since. *)
Theorem identities_only_grow (reqs : list (Env * HttpRequest)) (w : World) :
  users_ok w ->
  exists added,
    map identity (users (serve jwt_encode jwt_decode bcrypt_digest
                               bcrypt_matches config reqs w))
    = (map identity (users w) ++ added)%list.
Proof.
  revert w. induction reqs as [|[e req] reqs IH]; intros w Hok.
  - exists []. now rewrite app_nil_r.
  - simpl.
    pose proof (app_identities e req w (proj1 Hok)) as Hstep.
    destruct (IH _ (users_ok_step _ _ Hok Hstep)) as [added Hadded].
    destruct Hstep as [_ [Hsame | (u & Hadd & _)]].
    + exists added. now rewrite Hadded, Hsame.
    + exists (identity u :: added). rewrite Hadded, Hadd, <- app_assoc.
      reflexivity.
Qed.

End Identities.

Lemma small_world_users_ok : users_ok small_world.
Proof.
  split; [|split].
  - repeat constructor; simpl; intuition discriminate.
  - repeat constructor; simpl; intuition discriminate.
  - intros u [<- | [<- | []]]; reflexivity.
Qed.

Lemma users_ok_invariant_witness :
  users_ok (serve demo_encode demo_decode demo_digest demo_matches demo_config
                  demo_session small_world).
Proof.
  exact (users_ok_invariant demo_encode demo_decode demo_digest demo_matches
           demo_config demo_session small_world small_world_users_ok).
Defined.

Lemma identities_only_grow_witness :
  exists added,
    map identity (users (serve demo_encode demo_decode demo_digest
                               demo_matches demo_config demo_session
                               small_world))
    = (map identity (users small_world) ++ added)%list.
Proof.
  exact (identities_only_grow demo_encode demo_decode demo_digest demo_matches
           demo_config demo_session small_world small_world_users_ok).
Defined.

(** The session does what it says: three users, two bookings, the first one
    delivered, Bob renamed. *)
Lemma demo_session_outcome :
  let w := serve demo_encode demo_decode demo_digest demo_matches demo_config
                 demo_session small_world in
  map User.name (users w) = ["Alice"; "Robert"; "Carol"]
  /\ map Booking.status (bookings w) = ["delivered"; "pending"]
  /\ map Booking.clientId (bookings w) = [1%N; 2%N].
Proof. vm_compute. repeat split. Qed.

(* ================================================================== *)
(** ** Profile updates *)

(** X9.  [updateProfile] writes the caller's name, phone and address and
    nothing else: a property left out of the body keeps its value, the
    caller's id, email, role, password hash and dates stay, and every other
    identity is untouched.  When the caller's identity is no longer in the
    store the answer is still 200, with [user: null], and nothing is
    written. *)
Theorem updateProfile_effect
        (caller : Token.Payload) (b : ProfileBody) (w : World) :
  NoDup (map User._id (users w)) ->
  let answer := updateProfile caller b w in
  status (fst answer) = 200
  /\ (forall u,
         find (fun x => oid_eqb (User._id x) (Token.userId caller)) (users w)
         = Some u ->
         let u' := {| User._id := User._id u;
                      User.name := or_keep (p_name b) (User.name u);
                      User.email := User.email u;
                      User.password := User.password u;
                      User.role := User.role u;
                      User.phone := or_keep_opt (p_phone b) (User.phone u);
                      User.address := or_keep_opt (p_address b) (User.address u);
                      User.createdAt := User.createdAt u;
                      User.lastLogin := User.lastLogin u |} in
         field "user" (body (fst answer)) = Some (User_json u')
         /\ users (snd answer)
            = map (fun x => if oid_eqb (User._id x) (User._id u) then u' else x)
                  (users w))
  /\ (find (fun x => oid_eqb (User._id x) (Token.userId caller)) (users w)
      = None ->
      field "user" (body (fst answer)) = Some JNull
      /\ users (snd answer) = users w)
  /\ bookings (snd answer) = bookings w
  /\ trips (snd answer) = trips w
  /\ vehicles (snd answer) = vehicles w.
Proof.
  intros Hnd answer. subst answer.
  unfold updateProfile, try_catch, User_findByIdAndUpdate.
  unfold bind, query, getUsers, putUsers, ret.
  cbn [users logged].
  destruct (find _ (users w)) as [u|] eqn:Hfind;
    cbn [fst snd status body users bookings trips vehicles with_users logged].
  - split; [reflexivity|]. split; [|split; [discriminate | repeat split]].
    intros u0 Hu0. inversion Hu0; subst u0. clear Hu0.
    split; [reflexivity|].
    apply find_some in Hfind. destruct Hfind as [Hin Hid].
    apply N.eqb_eq in Hid. rewrite <- Hid.
    now apply update_first_by_id.
  - split; [reflexivity|]. split; [discriminate|]. repeat split.
Qed.

Lemma updateProfile_effect_witness :
  map User.name
      (users (snd (updateProfile (stamp 2%N "b@x.com" "user" ms_24h 8000)
                                 {| p_name := Some "Robert"; p_phone := None;
                                    p_address := Some "Pier 4" |}
                                 small_world)))
  = ["Alice"; "Robert"].
Proof.
  destruct (updateProfile_effect (stamp 2%N "b@x.com" "user" ms_24h 8000)
              {| p_name := Some "Robert"; p_phone := None;
                 p_address := Some "Pier 4" |}
              small_world (proj1 small_world_users_ok))
    as (_ & Hfound & _).
  destruct (Hfound bob eq_refl) as [_ Husers].
  rewrite Husers. reflexivity.
Defined.

(* ================================================================== *)
(** ** The password never leaves the server *)

Lemma existsb_map_false {A B : Type} (p : B -> bool) (f : A -> B)
      (l : list A) :
  (forall x, p (f x) = false) -> existsb p (map f l) = false.
Proof.
  intro H. induction l as [|a l IH]; simpl; [reflexivity|].
  now rewrite H, IH.
Qed.

Lemma existsb_app_false {A : Type} (p : A -> bool) (l l' : list A) :
  existsb p l = false -> existsb p l' = false -> existsb p (l ++ l') = false.
Proof. intros H H'. now rewrite existsb_app, H, H'. Qed.

Lemma no_password_error (msg : string) :
  has_key "password" (error_body msg) = false.
Proof. reflexivity. Qed.

Lemma no_password_oid (o : ObjectId) : has_key "password" (json_oid o) = false.
Proof. reflexivity. Qed.

Lemma no_password_summary (u : User.t) :
  has_key "password" (User_summary u) = false.
Proof. reflexivity. Qed.

Lemma no_password_user (u : User.t) : has_key "password" (User_json u) = false.
Proof.
  unfold User_json.
  destruct (User.phone u), (User.address u), (User.lastLogin u); reflexivity.
Qed.

Lemma no_password_populated (select : list string) (us : list User.t)
      (ref : ObjectId) :
  has_key "password" (Populated_json (populate_user select us ref)) = false.
Proof.
  unfold populate_user. destruct (find _ us); [|reflexivity].
  destruct (member "name" select), (member "email" select); reflexivity.
Qed.

Lemma no_key_double (k : string) (x : float) :
  has_key k (json_double x) = false.
Proof.
  unfold json_double.
  destruct (PrimFloat.is_finite x), (PrimFloat.is_zero x); reflexivity.
Qed.

Lemma no_password_booking (client : json) (b : Booking.t) :
  has_key "password" client = false ->
  has_key "password" (Booking_json client b) = false.
Proof.
  intro H. unfold Booking_json.
  destruct (Booking.dimensions b) as [[[l w'] h]|]; simpl;
    rewrite H, no_key_double; reflexivity.
Qed.

Lemma no_password_booking_plain (b : Booking.t) :
  has_key "password" (Booking_plain b) = false.
Proof. apply no_password_booking, no_password_oid. Qed.

Lemma no_password_vehicle (driver : option json) (v : Vehicle.t) :
  (forall j, driver = Some j -> has_key "password" j = false) ->
  has_key "password" (Vehicle_json driver v) = false.
Proof.
  intro H. unfold Vehicle_json.
  destruct (Vehicle.model v), (Vehicle.capacity v),
    (Vehicle.currentLocation v), driver as [j|]; simpl;
    try rewrite (H j eq_refl); reflexivity.
Qed.

Lemma no_password_vehicle_plain (v : Vehicle.t) :
  has_key "password" (Vehicle_plain v) = false.
Proof.
  apply no_password_vehicle. intros j Hj.
  destruct (Vehicle.assignedDriver v); inversion Hj. reflexivity.
Qed.

Lemma no_password_populated_vehicle (vs : list Vehicle.t) (ref : ObjectId) :
  has_key "password" (populate_vehicle vs ref) = false.
Proof.
  unfold populate_vehicle. destruct (find _ vs);
    [apply no_password_vehicle_plain | reflexivity].
Qed.

Lemma no_password_populated_bookings (bs : list Booking.t)
      (refs : list ObjectId) :
  existsb (has_key "password") (populate_bookings bs refs) = false.
Proof.
  unfold populate_bookings. induction refs as [|r refs IH]; [reflexivity|].
  cbn [flat_map]. apply existsb_app_false; [|exact IH].
  destruct (find _ bs); [|reflexivity]. cbn [existsb].
  now rewrite no_password_booking_plain.
Qed.

Lemma no_password_trip (vehicle driver : json) (coDriver : option json)
      (refs : list json) (t : Trip.t) :
  has_key "password" vehicle = false ->
  has_key "password" driver = false ->
  (forall j, coDriver = Some j -> has_key "password" j = false) ->
  existsb (has_key "password") refs = false ->
  has_key "password" (Trip_json vehicle driver coDriver refs t) = false.
Proof.
  intros Hv Hd Hc Hr. unfold Trip_json.
  destruct coDriver as [j|], (Trip.from t), (Trip.to t),
    (Trip.departureTime t), (Trip.arrivalTime t), (Trip.fuelUsed t),
    (Trip.distance t); simpl; rewrite Hv, Hd, Hr;
    try rewrite (Hc j eq_refl); reflexivity.
Qed.

Lemma no_password_trip_plain (t : Trip.t) :
  has_key "password" (Trip_plain t) = false.
Proof.
  apply no_password_trip; try apply no_password_oid.
  - intros j Hj. destruct (Trip.coDriverId t); inversion Hj. reflexivity.
  - apply existsb_map_false. intro x. reflexivity.
Qed.

Lemma no_password_trip_resolved (us : list User.t) (vs : list Vehicle.t)
      (bs : option (list Booking.t)) (t : Trip.t) :
  has_key "password" (Trip_resolved us vs bs t) = false.
Proof.
  apply no_password_trip.
  - apply no_password_populated_vehicle.
  - apply no_password_populated.
  - intros j Hj. destruct bs, (Trip.coDriverId t); inversion Hj;
      [apply no_password_populated | reflexivity].
  - destruct bs; [apply no_password_populated_bookings|].
    apply existsb_map_false. intro x. reflexivity.
Qed.


Lemma no_key_cons (k k' : string) (v : json) (fs : list (string * json)) :
  String.eqb k' k = false ->
  has_key k v = false ->
  has_key k (JObj fs) = false ->
  has_key k (JObj ((k', v) :: fs)) = false.
Proof. intros Hk Hv Hfs. cbn [has_key existsb] in *. now rewrite Hk, Hv, Hfs. Qed.

Lemma no_key_map {A : Type} (k : string) (f : A -> json) (l : list A) :
  (forall x, has_key k (f x) = false) -> has_key k (JArr (map f l)) = false.
Proof. intro H. cbn [has_key]. now apply existsb_map_false. Qed.

Ltac no_password_json :=
  lazymatch goal with
  | |- has_key _ (JObj nil) = false => reflexivity
  | |- has_key _ (JObj (cons _ _)) = false =>
      apply no_key_cons; [reflexivity | no_password_json | no_password_json]
  | |- has_key _ (JArr (map _ _)) = false =>
      apply no_key_map; intro; no_password_json
  | |- has_key _ (json_double _) = false => apply no_key_double
  | |- has_key _ (Booking_json _ _) = false =>
      apply no_password_booking; no_password_json
  | |- has_key _ (Booking_plain _) = false => apply no_password_booking_plain
  | |- has_key _ (Populated_json (populate_user _ _ _)) = false =>
      apply no_password_populated
  | |- has_key _ (Populated_json _) = false => assumption
  | |- has_key _ (User_json _) = false => apply no_password_user
  | |- has_key _ (User_summary _) = false => apply no_password_summary
  | |- has_key _ (Trip_resolved _ _ _ _) = false =>
      apply no_password_trip_resolved
  | |- has_key _ (Trip_plain _) = false => apply no_password_trip_plain
  | |- has_key _ (Vehicle_plain _) = false => apply no_password_vehicle_plain
  | |- has_key _ (Vehicle_json (option_map _ ?d) _) = false =>
      apply no_password_vehicle; intros ? Hj; destruct d; inversion Hj;
      apply no_password_populated
  | |- has_key _ (match ?a with Some _ => _ | None => _ end) = false =>
      destruct a; no_password_json
  | |- _ => reflexivity
  end.

Lemma try_catch_no_password (m : M Response) (w : World) :
  answers no_password m -> no_password (fst (try_catch m w)).
Proof.
  intro Hm. unfold try_catch. specialize (Hm w).
  destruct (m w) as [[r|message] w'].
  - exact (Hm r w' eq_refl).
  - reflexivity.
Qed.

Ltac no_password_handler :=
  repeat first
    [ apply answers_throw
    | apply answers_ret; unfold no_password; cbn [body];
      solve [no_password_json]
    | apply answers_bind; intro
    | match goal with
      | |- answers _ (match populate_user ?s ?us ?r with _ => _ end) =>
          pose proof (no_password_populated s us r);
          destruct (populate_user s us r)
      | |- answers _ (match ?x with _ => _ end) => destruct x
      | |- answers _ (if ?x then _ else _) => destruct x
      end
    | progress cbv zeta ].

Section Secrecy.

Variable jwt_encode : Jws -> string.
Variable jwt_decode : string -> option Jws.
Variable bcrypt_digest : string -> string -> string.
Variable bcrypt_matches : string -> string -> bool.
Variable config : Config.

Lemma protected_no_password
      (e : Env) (req : HttpRequest)
      (handler : Token.Payload -> World -> Response * World) (w : World) :
  (forall u w', no_password (fst (handler u w'))) ->
  no_password (fst (protected jwt_decode config e req handler w)).
Proof.
  intro Hh. unfold protected, authenticateToken.
  destruct (negb _); [reflexivity|].
  destruct (js_and _ _); [|reflexivity].
  destruct (jwt_verify _ _ _ _); [reflexivity|].
  apply Hh.
Qed.

(** X10.  No response of the server has a property named [password], at any
    depth of its body: not the answers of register and login, not a profile,
    not a populated reference to a user, not an error. *)
Theorem password_never_in_response
        (e : Env) (req : HttpRequest) (w : World) :
  has_key "password"
          (body (fst (app jwt_encode jwt_decode bcrypt_digest bcrypt_matches
                          config e req w))) = false.
Proof.
  change (no_password (fst (app jwt_encode jwt_decode bcrypt_digest
                                bcrypt_matches config e req w))).
  unfold app.
  destruct (bodyParseError req); [reflexivity|].
  destruct (target req);
    try (apply protected_no_password; intros u w');
    try reflexivity;
    apply try_catch_no_password;
    try unfold User_findOne_email; try unfold User_findById;
    try unfold User_findByIdAndUpdate; try unfold Booking_findById;
    try unfold Booking_findByIdAndUpdate; try unfold Trip_findByIdAndUpdate;
    try unfold Vehicle_findByIdAndUpdate; try unfold Booking_aggregate_paid;
    no_password_handler.
Qed.

End Secrecy.

(* ================================================================== *)
(** ** The bookings collection over a session *)

Lemma update_first_map {A B : Type} (p : A -> bool) (f : A -> A)
      (g : A -> B) (l : list A) :
  (forall x, g (f x) = g x) ->
  map g (update_first p f l) = map g l.
Proof.
  intro H. induction l as [|a l IH]; simpl; [reflexivity|].
  destruct (p a); simpl; [now rewrite H | now rewrite IH].
Qed.

Lemma update_first_paid (p : Booking.t -> bool) (f : Booking.t -> Booking.t)
      (l : list Booking.t) :
  (forall x, Booking.paymentStatus (f x) = Booking.paymentStatus x) ->
  (forall x, Booking.price (f x) = Booking.price x) ->
  map Booking.price (match_paid (update_first p f l))
  = map Booking.price (match_paid l).
Proof.
  intros Hpay Hprice. unfold match_paid.
  induction l as [|a l IH]; simpl; [reflexivity|].
  destruct (p a); simpl.
  - rewrite Hpay. destruct (String.eqb _ "paid"); simpl;
      [now rewrite Hprice | reflexivity].
  - destruct (String.eqb _ "paid"); simpl; [now rewrite IH | exact IH].
Qed.

Section BookingsOverTime.

Variable jwt_encode : Jws -> string.
Variable jwt_decode : string -> option Jws.
Variable bcrypt_digest : string -> string -> string.
Variable bcrypt_matches : string -> string -> bool.
Variable config : Config.

Lemma createBooking_step
      (e : Env) (u : Token.Payload) (b : BookingBody) (w : World) :
  bookings_step w (snd (createBooking e u b w)).
Proof.
  rewrite createBooking_cases.
  destruct (Booking_errors _); [|now left].
  destruct (existsb _ (bookings w)) eqn:Hex; [now left|].
  right. left. eexists. split; [reflexivity|]. repeat split.
  intros x Hx. apply String.eqb_neq.
  exact (existsb_false_all _ _ Hex x Hx).
Qed.

Lemma updateBookingStatus_step
      (e : Env) (id : ObjectId) (b : StatusBody) (w : World) :
  bookings_step w (snd (updateBookingStatus e id b w)).
Proof.
  unfold updateBookingStatus, try_catch, Booking_findByIdAndUpdate.
  unfold bind, query, getBookingsColl, putBookings, ret.
  cbn [bookings logged].
  destruct (find _ (bookings w)); [|now left].
  right. right. exists id, (s_status b), (now e). reflexivity.
Qed.

Lemma protected_bookings_step
      (e : Env) (req : HttpRequest)
      (handler : Token.Payload -> World -> Response * World) (w : World) :
  (forall u, bookings_step w (snd (handler u w))) ->
  bookings_step w (snd (protected jwt_decode config e req handler w)).
Proof.
  intro Hh. unfold protected.
  pose proof (gate_keeps_world jwt_decode config e req w) as Hw.
  destruct (authenticateToken jwt_decode config e req w) as [[r|u] w'];
    simpl in Hw; subst w'; [now left | apply Hh].
Qed.

Lemma app_bookings_step (e : Env) (req : HttpRequest) (w : World) :
  bookings_step w (snd (app jwt_encode jwt_decode bcrypt_digest
                            bcrypt_matches config e req w)).
Proof.
  unfold app.
  destruct (bodyParseError req); [now left|].
  destruct (target req);
    try (apply protected_bookings_step; intro u);
    lazymatch goal with
    | |- bookings_step _ (snd (createBooking _ _ _ _)) =>
        apply createBooking_step
    | |- bookings_step _ (snd (updateBookingStatus _ _ _ _)) =>
        apply updateBookingStatus_step
    | |- bookings_step _ (snd (register _ _ _ _ _ _)) =>
        left; apply register_bookings
    | |- bookings_step _ (snd (login _ _ _ _ _ _)) =>
        left; apply login_bookings
    | |- bookings_step _ (snd (getProfile _ _)) =>
        left; apply getProfile_bookings
    | |- bookings_step _ (snd (updateProfile _ _ _)) =>
        left; apply updateProfile_bookings
    | |- bookings_step _ (snd (getBookings _ _)) =>
        left; apply getBookings_bookings
    | |- bookings_step _ (snd (getBookingById _ _ _)) =>
        left; apply getBookingById_bookings
    | |- bookings_step _ (snd (createTrip _ _ _)) =>
        left; apply createTrip_bookings
    | |- bookings_step _ (snd (getTrips _)) => left; apply getTrips_bookings
    | |- bookings_step _ (snd (updateTripStatus _ _ _)) =>
        left; apply updateTripStatus_bookings
    | |- bookings_step _ (snd (getVehicles _)) =>
        left; apply getVehicles_bookings
    | |- bookings_step _ (snd (updateVehicleStatus _ _ _)) =>
        left; apply updateVehicleStatus_bookings
    | |- bookings_step _ (snd (getStats _)) => left; apply getStats_bookings
    | |- _ => now left
    end.
Qed.

(** X11.  No request deletes a booking, reorders the collection, or changes
    anything of a stored booking but its [status] and [updatedAt]: after any
    sequence of requests the bookings the store started with are still
    there, in order, with the same id, airway bill, owner, cargo, route,
    price, payment status and creation date, followed by the bookings
    created since. *)
Theorem bookings_only_grow (reqs : list (Env * HttpRequest)) (w : World) :
  exists added,
    map essentials (bookings (serve jwt_encode jwt_decode bcrypt_digest
                                    bcrypt_matches config reqs w))
    = (map essentials (bookings w) ++ added)%list.
Proof.
  revert w. induction reqs as [|[e req] reqs IH]; intro w.
  - exists []. now rewrite app_nil_r.
  - simpl. destruct (IH (snd (app jwt_encode jwt_decode bcrypt_digest
                                  bcrypt_matches config e req w)))
      as [added Hadded].
    destruct (app_bookings_step e req w)
      as [Hsame | [(b & Hadd & _) | (id & st & t & Hupd)]].
    + exists added. now rewrite Hadded, Hsame.
    + exists (essentials b :: added).
      rewrite Hadded, Hadd, map_app, <- app_assoc. reflexivity.
    + exists added. rewrite Hadded, Hupd.
      rewrite update_first_map; [reflexivity|]. intro x. reflexivity.
Qed.

(** X12.  The unique index on [airwayBill] holds along every session: from
    a store whose airway bills are pairwise different, every sequence of
    requests leads to such a store. *)
Theorem airwayBills_stay_unique
        (reqs : list (Env * HttpRequest)) (w : World) :
  NoDup (map Booking.airwayBill (bookings w)) ->
  NoDup (map Booking.airwayBill
             (bookings (serve jwt_encode jwt_decode bcrypt_digest
                              bcrypt_matches config reqs w))).
Proof.
  revert w. induction reqs as [|[e req] reqs IH]; intros w Hnd; [exact Hnd|].
  simpl. apply IH.
  destruct (app_bookings_step e req w)
    as [Hsame | [(b & Hadd & _ & _ & Hfresh) | (id & st & t & Hupd)]].
  - now rewrite Hsame.
  - rewrite Hadd, map_app. apply NoDup_app;
      [exact Hnd | repeat constructor; simpl; tauto |].
    intros a Ha [<- | []]. apply in_map_iff in Ha.
    destruct Ha as (x & Hx & Hin). exact (Hfresh x Hin Hx).
  - rewrite Hupd, update_first_map; [exact Hnd|]. intro x. reflexivity.
Qed.

(** X13.  No route sets [paymentStatus], so the revenue the dashboard
    reports never moves: after any sequence of requests the aggregation
    pipeline gives the total it gave before. *)
Theorem revenue_constant (reqs : list (Env * HttpRequest)) (w : World) :
  first_total_or_0
    (group_total
       (match_paid (bookings (serve jwt_encode jwt_decode bcrypt_digest
                                    bcrypt_matches config reqs w))))
  = first_total_or_0 (group_total (match_paid (bookings w))).
Proof.
  rewrite !pipeline_total. unfold paid_revenue.
  change (filter (fun b => String.eqb (Booking.paymentStatus b) "paid"))
    with match_paid.
  assert (Hprices :
            map Booking.price
                (match_paid (bookings (serve jwt_encode jwt_decode bcrypt_digest
                                             bcrypt_matches config reqs w)))
            = map Booking.price (match_paid (bookings w))).
  { revert w. induction reqs as [|[e req] reqs IH]; intro w; [reflexivity|].
    simpl. rewrite IH.
    destruct (app_bookings_step e req w)
      as [Hsame | [(b & Hadd & _ & Hpay & _) | (id & st & t & Hupd)]].
    - now rewrite Hsame.
    - rewrite Hadd. unfold match_paid. rewrite filter_app. simpl.
      rewrite Hpay. simpl. now rewrite app_nil_r.
    - rewrite Hupd. apply update_first_paid; intro x; reflexivity. }
  now rewrite Hprices.
Qed.

End BookingsOverTime.

Lemma airwayBills_stay_unique_witness :
  NoDup (map Booking.airwayBill
             (bookings (serve demo_encode demo_decode demo_digest
                              demo_matches demo_config demo_session
                              small_world))).
Proof.
  apply (airwayBills_stay_unique demo_encode demo_decode demo_digest
           demo_matches demo_config demo_session small_world).
  repeat constructor; simpl; tauto.
Defined.

(* ================================================================== *)
(** ** Creating a booking *)

Lemma required_string_ok (path : string) (v : option string) :
  required_string path v = [] <-> truthy v = true.
Proof.
  unfold required_string. destruct (truthy v); split; intro H;
    try reflexivity; discriminate.
Qed.

Lemma required_value_ok {A : Type} (path : string) (v : option A) :
  required_value path v = [] <-> exists a, v = Some a.
Proof.
  destruct v as [a|]; simpl; split; intro H; try reflexivity.
  - now exists a.
  - discriminate.
  - destruct H as [a Ha]. discriminate.
Qed.

Lemma enum_validator_ok (path : string) (allowed : list string) (v : string) :
  enum_validator path allowed v = [] <-> member v allowed = true.
Proof.
  unfold enum_validator. destruct (member v allowed); split; intro H;
    try reflexivity; discriminate.
Qed.

Lemma app_nil_iff {A : Type} (l l' : list A) :
  (l ++ l')%list = [] <-> l = [] /\ l' = [].
Proof.
  split.
  - apply app_eq_nil.
  - intros [-> ->]. reflexivity.
Qed.

(** The validators of [bookingSchema] pass exactly on a complete body. *)
Lemma Booking_errors_complete
      (e : Env) (caller : Token.Payload) (b : BookingBody) (id : ObjectId) :
  Booking_errors
    {| Booking.d_id := id;
       Booking.d_airwayBill := "AWB" ++ dec (now e) ++ rnd e;
       Booking.d_clientId := Token.userId caller;
       Booking.d_cargoDetails := cargoDetails b;
       Booking.d_route := route b;
       Booking.d_status := "pending";
       Booking.d_price := price b;
       Booking.d_paymentStatus := "pending";
       Booking.d_createdAt := now e;
       Booking.d_updatedAt := now e |} = []
  <-> body_complete b = true.
Proof.
  unfold Booking_errors, Booking_type, cargo_path, route_path, body_complete.
  cbn [Booking.d_airwayBill Booking.d_cargoDetails Booking.d_route
       Booking.d_status Booking.d_price Booking.d_paymentStatus].
  rewrite !app_nil_iff, !required_string_ok, !required_value_ok,
    !enum_validator_ok.
  destruct (cargoDetails b) as [c|], (route b) as [r|], (price b) as [p|];
    cbn [or_keep];
    try (split; [intros (_ & H1 & H2 & H3 & H4 & H5 & H6 & H7 & H8 & H9 & H10)
                | discriminate];
         repeat match goal with
                | H : exists _, None = Some _ |- _ => destruct H; discriminate
                | H : truthy None = true |- _ => discriminate H
                end).
  rewrite !andb_true_iff.
  destruct (Booking.i_weight c), (Booking.i_type c),
    (Booking.i_departureDate r), (Booking.i_arrivalDate r); cbn [or_keep];
    split;
    try (intros (_ & H1 & H2 & H3 & H4 & H5 & H6 & H7 & H8 & H9 & H10);
         repeat match goal with
                | H : exists _, None = Some _ |- _ => destruct H; discriminate
                end;
         repeat split; auto);
    try (intros [[[[[[H1 H2] H3] H4] H5] H6] H7]; try discriminate;
         repeat split; eauto).
Qed.

(** X14.  [createBooking] is all or nothing.  It answers 201 exactly when
    the body passes the schema and no stored booking has the airway bill
    generated for this request; the new booking then carries the price of
    the body and the time of the request as [createdAt] and [updatedAt].
    Otherwise it answers 500 and the bookings collection is what it was. *)
Theorem createBooking_all_or_nothing
        (e : Env) (caller : Token.Payload) (b : BookingBody) (w : World) :
  let answer := createBooking e caller b w in
  let awb := "AWB" ++ dec (now e) ++ rnd e in
  (status (fst answer) = 201
   <-> body_complete b = true
       /\ forall x, In x (bookings w) -> Booking.airwayBill x <> awb)
  /\ (status (fst answer) = 201 ->
      exists booking,
        bookings (snd answer) = (bookings w ++ [booking])%list
        /\ Booking.airwayBill booking = awb
        /\ Some (Booking.price booking) = price b
        /\ Booking.createdAt booking = now e
        /\ Booking.updatedAt booking = now e)
  /\ (status (fst answer) <> 201 ->
      status (fst answer) = 500 /\ bookings (snd answer) = bookings w).
Proof.
  intros answer awb. subst answer. rewrite createBooking_cases.
  pose proof (Booking_errors_complete e caller b (nextId w)) as Hcomplete.
  destruct (Booking_errors _) as [|err errs] eqn:Herr.
  - assert (Hc : body_complete b = true) by (now apply Hcomplete).
    cbn [Booking.d_airwayBill]. fold awb.
    destruct (existsb _ (bookings w)) eqn:Hex; cbn [fst snd status].
    + split; [|split].
      * split; [discriminate|]. intros [_ Hfresh]. exfalso.
        apply existsb_exists in Hex. destruct Hex as (x & Hx & Heq).
        apply String.eqb_eq in Heq. exact (Hfresh x Hx Heq).
      * discriminate.
      * intros _. split; reflexivity.
    + split; [|split].
      * split; [|reflexivity]. intros _. split; [exact Hc|].
        intros x Hx. apply String.eqb_neq.
        exact (existsb_false_all _ _ Hex x Hx).
      * intros _. eexists. split; [reflexivity|].
        unfold Booking_of_draft. cbn.
        unfold body_complete in Hc.
        destruct (cargoDetails b), (route b), (price b); try discriminate.
        repeat split.
      * intro H. now contradiction H.
  - cbn [fst snd status]. split; [|split].
    + split; [discriminate|]. intros [Hc _].
      apply Hcomplete in Hc. discriminate.
    + discriminate.
    + intros _. split; reflexivity.
Qed.

(** X15.  An airway bill is the clock reading followed by the random
    suffix, so a second booking made at the same millisecond with the same
    suffix collides: whoever the caller and whatever the body, it is
    answered 500 and not stored. *)
Theorem createBooking_collision
        (e : Env) (caller caller' : Token.Payload) (b b' : BookingBody)
        (w : World) :
  status (fst (createBooking e caller b w)) = 201 ->
  let w1 := snd (createBooking e caller b w) in
  status (fst (createBooking e caller' b' w1)) = 500
  /\ bookings (snd (createBooking e caller' b' w1)) = bookings w1.
Proof.
  intros Hfirst w1.
  destruct (createBooking_all_or_nothing e caller b w) as (_ & Hadd & _).
  destruct (Hadd Hfirst) as (booking & Hbs & Hawb & _).
  destruct (createBooking_all_or_nothing e caller' b' w1) as (Hiff & _ & Hfail).
  apply Hfail. intro H201. apply Hiff in H201. destruct H201 as [_ Hfresh].
  apply (Hfresh booking); [|exact Hawb].
  subst w1. rewrite Hbs. apply in_or_app. right. now left.
Qed.

Lemma createBooking_all_or_nothing_witness :
  status (fst (createBooking (at_time 9000)
                             (stamp 2%N "b@x.com" "user" ms_24h 8000)
                             pushy_body small_world)) = 201.
Proof.
  apply (proj1 (createBooking_all_or_nothing (at_time 9000)
                  (stamp 2%N "b@x.com" "user" ms_24h 8000)
                  pushy_body small_world)).
  split; [reflexivity|].
  intros x [<- | []]. discriminate.
Defined.

Lemma createBooking_collision_witness :
  status (fst (createBooking (at_time 9000)
                 (stamp 1%N "a@x.com" "user" ms_24h 8000) pushy_body
                 (snd (createBooking (at_time 9000)
                         (stamp 2%N "b@x.com" "user" ms_24h 8000)
                         pushy_body small_world)))) = 500.
Proof.
  exact (proj1 (createBooking_collision (at_time 9000)
                  (stamp 2%N "b@x.com" "user" ms_24h 8000)
                  (stamp 1%N "a@x.com" "user" ms_24h 8000)
                  pushy_body pushy_body small_world eq_refl)).
Defined.

(* ================================================================== *)
(** ** Updating and listing bookings *)

Lemma find_update_first_same {A : Type} (p : A -> bool) (f : A -> A)
      (l : list A) (x : A) :
  (forall y, p (f y) = p y) ->
  find p l = Some x -> find p (update_first p f l) = Some (f x).
Proof.
  intros Hp. induction l as [|a l IH]; simpl; [discriminate|].
  destruct (p a) eqn:Ha; simpl.
  - intro H. inversion H; subst. now rewrite Hp, Ha.
  - rewrite Ha. exact IH.
Qed.

Lemma find_update_first_other {A : Type} (p q : A -> bool) (f : A -> A)
      (l : list A) :
  (forall y, q (f y) = q y) ->
  (forall y, p y = true -> q y = false) ->
  find q (update_first p f l) = find q l.
Proof.
  intros Hq Hpq. induction l as [|a l IH]; simpl; [reflexivity|].
  destruct (p a) eqn:Ha; simpl.
  - now rewrite Hq, (Hpq a Ha).
  - destruct (q a); [reflexivity | exact IH].
Qed.

Section UpdateBooking.

Variable jwt_encode : Jws -> string.
Variable jwt_decode : string -> option Jws.
Variable bcrypt_digest : string -> string -> string.
Variable bcrypt_matches : string -> string -> bool.
Variable config : Config.

(** X16.  [PUT /api/bookings/:id/status] asks for a valid token and nothing
    more: for any authenticated caller, owner or not, and any status string,
    the booking with that id gets the status and the time of the request as
    [updatedAt], reading it back by id gives the updated booking, and a
    lookup by any other id gives what it gave before. *)
Theorem any_caller_updates_any_booking
        (e : Env) (req : HttpRequest) (w : World) (caller : Token.Payload)
        (id : ObjectId) (s : string) (b : Booking.t) :
  bodyParseError req = None ->
  target req = PutBookingStatus id {| s_status := Some s |} ->
  fst (authenticateToken jwt_decode config e req w) = Next caller ->
  find (fun x => oid_eqb (Booking._id x) id) (bookings w) = Some b ->
  let answer := app jwt_encode jwt_decode bcrypt_digest bcrypt_matches config
                    e req w in
  let b' := Booking_set_status (Some s) (now e) b in
  fst answer
  = mkResponse 200 (JObj [("message", JStr "Booking status updated");
                          ("booking", Booking_plain b')])
  /\ find (fun x => oid_eqb (Booking._id x) id) (bookings (snd answer))
     = Some b'
  /\ Booking.status b' = s
  /\ Booking.updatedAt b' = now e
  /\ essentials b' = essentials b
  /\ forall id', id' <> id ->
       find (fun x => oid_eqb (Booking._id x) id') (bookings (snd answer))
       = find (fun x => oid_eqb (Booking._id x) id') (bookings w).
Proof.
  intros Hbody Htarget Hgate Hfind answer b'. subst answer.
  unfold app. rewrite Hbody, Htarget. unfold protected.
  pose proof (gate_keeps_world jwt_decode config e req w) as Hw.
  destruct (authenticateToken jwt_decode config e req w) as [g w'].
  simpl in Hgate, Hw. subst g w'.
  unfold updateBookingStatus, try_catch, Booking_findByIdAndUpdate.
  unfold bind, query, getBookingsColl, putBookings, ret.
  cbn [bookings logged s_status]. rewrite Hfind.
  cbn [fst snd bookings with_bookings logged]. fold b'.
  split; [reflexivity|]. split.
  { apply find_update_first_same; [|exact Hfind]. intro y. reflexivity. }
  split; [reflexivity|]. split; [reflexivity|]. split; [reflexivity|].
  intros id' Hne. apply find_update_first_other.
  - intro y. reflexivity.
  - intros y Hy. apply N.eqb_eq in Hy. apply N.eqb_neq. congruence.
Qed.

End UpdateBooking.

Lemma any_caller_updates_any_booking_witness :
  option_map Booking.status
    (find (fun x => oid_eqb (Booking._id x) 7%N)
          (bookings
             (snd (app demo_encode demo_decode demo_digest demo_matches
                       demo_config (at_time 9300)
                       (mkRequest bob_header None
                          (PutBookingStatus 7%N
                             {| s_status := Some "delivered" |}))
                       small_world))))
  = Some "delivered".
Proof.
  destruct (any_caller_updates_any_booking demo_encode demo_decode
              demo_digest demo_matches demo_config (at_time 9300)
              (mkRequest bob_header None
                 (PutBookingStatus 7%N {| s_status := Some "delivered" |}))
              small_world (stamp 2%N "b@x.com" "user" ms_24h 8000)
              7%N "delivered" crate eq_refl eq_refl eq_refl eq_refl)
    as (_ & Hfound & _).
  rewrite Hfound. reflexivity.
Defined.

(** *** Newest first *)

Lemma insert_desc_perm {A : Type} (key : A -> Z) (x : A) (l : list A) :
  Permutation (insert_desc key x l) (x :: l).
Proof.
  induction l as [|y l IH]; simpl; [reflexivity|].
  destruct (key y <=? key x); [reflexivity|].
  rewrite IH. apply perm_swap.
Qed.

Lemma sort_desc_perm {A : Type} (key : A -> Z) (l : list A) :
  Permutation (sort_desc key l) l.
Proof.
  unfold sort_desc. induction l as [|x l IH]; simpl; [reflexivity|].
  rewrite insert_desc_perm. now constructor.
Qed.

Lemma insert_desc_sorted {A : Type} (key : A -> Z) (x : A) (l : list A) :
  StronglySorted (fun a b => key b <= key a) l ->
  StronglySorted (fun a b => key b <= key a) (insert_desc key x l).
Proof.
  induction 1 as [|y l Hs IH Hall]; simpl.
  - repeat constructor.
  - destruct (Z.leb_spec (key y) (key x)) as [Hle | Hgt].
    + constructor; [now constructor|].
      constructor; [exact Hle|].
      eapply Forall_impl; [|exact Hall]. simpl. intros; lia.
    + constructor; [exact IH|].
      rewrite insert_desc_perm. constructor; [lia | exact Hall].
Qed.

Lemma sort_desc_sorted {A : Type} (key : A -> Z) (l : list A) :
  StronglySorted (fun a b => key b <= key a) (sort_desc key l).
Proof.
  unfold sort_desc. induction l as [|x l IH]; simpl; [constructor|].
  now apply insert_desc_sorted.
Qed.

(** X17.  [GET /api/bookings] shows an admin every booking and anyone else
    exactly the bookings they own, each once, newest first, with the owner
    reduced to id, name and email. *)
Theorem getBookings_visibility (caller : Token.Payload) (w : World) :
  exists shown,
    fst (getBookings caller w)
    = mkResponse 200
        (JArr (map (fun b =>
                      Booking_json
                        (Populated_json
                           (populate_user ["name"; "email"] (users w)
                                          (Booking.clientId b))) b)
                   shown))
    /\ StronglySorted
         (fun a b => Booking.createdAt b <= Booking.createdAt a) shown
    /\ (Token.role caller = "admin" -> Permutation shown (bookings w))
    /\ (Token.role caller <> "admin" ->
        Permutation shown
          (filter (fun b => oid_eqb (Booking.clientId b) (Token.userId caller))
                  (bookings w))
        /\ forall b, In b shown <->
                     In b (bookings w)
                     /\ Booking.clientId b = Token.userId caller).
Proof.
  eexists. split; [reflexivity|]. split; [apply sort_desc_sorted|]. split.
  - intros ->. apply sort_desc_perm.
  - intro Hrole. apply String.eqb_neq in Hrole. rewrite Hrole. cbn [negb].
    split; [apply sort_desc_perm|].
    intro b. rewrite (Permutation_in' (eq_refl b) (sort_desc_perm _ _)).
    rewrite filter_In. unfold oid_eqb. now rewrite N.eqb_eq.
Qed.

Lemma getBookings_visibility_witness :
  fst (getBookings (stamp 2%N "b@x.com" "user" ms_24h 8000) small_world)
  = mkResponse 200 (JArr []).
Proof.
  destruct (getBookings_visibility (stamp 2%N "b@x.com" "user" ms_24h 8000)
                                   small_world)
    as (shown & Hanswer & _ & _ & Hother).
  destruct Hother as [Hperm _]; [discriminate|].
  pose proof (Permutation_nil (Permutation_sym Hperm : Permutation [] shown))
    as Hnil.
  now rewrite Hanswer, Hnil.
Defined.

(* ================================================================== *)
(** ** Trips *)

Ltac unfold_ops :=
  try unfold User_findOne_email; try unfold User_findById;
  try unfold User_new; try unfold User_save_new; try unfold User_save;
  try unfold User_findByIdAndUpdate;
  try unfold Booking_new; try unfold Booking_save_new;
  try unfold Booking_findById; try unfold Booking_findByIdAndUpdate;
  try unfold Booking_aggregate_paid;
  try unfold Trip_new; try unfold Trip_save_new;
  try unfold Trip_findByIdAndUpdate; try unfold Vehicle_findByIdAndUpdate.

(** What [createTrip] does, by cases on the validators and the unique index
    on [tripId]. *)
Lemma createTrip_cases (e : Env) (b : TripBody) (w : World) :
  let d := {| Trip.d_id := nextId w;
              Trip.d_tripId := "FLT-" ++ dec (now e);
              Trip.d_vehicleId := tb_vehicleId b;
              Trip.d_driverId := tb_driverId b;
              Trip.d_coDriverId := tb_coDriverId b;
              Trip.d_bookings := or_keep (tb_bookings b) [];
              Trip.d_from := trip_route (tb_route b) t_from;
              Trip.d_to := trip_route (tb_route b) t_to;
              Trip.d_departureTime := trip_route (tb_route b) t_departureTime;
              Trip.d_arrivalTime := trip_route (tb_route b) t_arrivalTime;
              Trip.d_status := "scheduled";
              Trip.d_createdAt := now e |} in
  createTrip e b w =
  match Trip_errors d with
  | [] =>
      if existsb (fun t => String.eqb (Trip.tripId t) (Trip.d_tripId d))
                 (trips w)
      then (mkResponse 500
              (error_body (duplicate_key "tripId_1" (Trip.d_tripId d))),
            logged Trips (fresh w))
      else (mkResponse 201
              (JObj [("message", JStr "Trip created successfully");
                     ("trip", Trip_plain (Trip_of_draft d))]),
            with_trips (trips w ++ [Trip_of_draft d]) (logged Trips (fresh w)))
  | err :: errs =>
      (mkResponse 500
         (error_body ("Trip validation failed: " ++ join ", " (err :: errs))),
       fresh w)
  end.
Proof.
  intro d. unfold createTrip, try_catch, Trip_new, Trip_save_new.
  unfold bind at 1. unfold bind at 1. unfold freshId, ret at 1. fold d.
  unfold bind at 1. unfold bind at 1.
  destruct (Trip_errors d) as [|err errs] eqn:Herr.
  - rewrite validate_ok.
    unfold bind, query, getTripsColl, putTrips, ret.
    cbn [trips logged fresh].
    destruct (existsb _ (trips w)); reflexivity.
  - rewrite validate_fails. reflexivity.
Qed.

(** X18.  [createTrip] checks that a vehicle and a driver are named, not
    that they exist: with both ids in the body and a trip code not yet
    taken it answers 201 and stores a trip with status ["scheduled"], no fuel
    or distance, and the references as given, after a single round trip, to
    the trips collection.  Without a vehicle or a driver id it answers 500
    and stores nothing. *)
Theorem createTrip_lenient (e : Env) (b : TripBody) (w : World) :
  (forall t, In t (trips w) -> Trip.tripId t <> "FLT-" ++ dec (now e)) ->
  let answer := createTrip e b w in
  (forall v d,
      tb_vehicleId b = Some v -> tb_driverId b = Some d ->
      status (fst answer) = 201
      /\ queries (snd answer) = (queries w ++ [Trips])%list
      /\ exists t,
           trips (snd answer) = (trips w ++ [t])%list
           /\ Trip.status t = "scheduled"
           /\ Trip.vehicleId t = v /\ Trip.driverId t = d
           /\ Trip.coDriverId t = tb_coDriverId b
           /\ Trip.bookings t = or_keep (tb_bookings b) []
           /\ Trip.fuelUsed t = None /\ Trip.distance t = None
           /\ Trip.tripId t = "FLT-" ++ dec (now e))
  /\ (tb_vehicleId b = None \/ tb_driverId b = None ->
      status (fst answer) = 500 /\ trips (snd answer) = trips w)
  /\ users (snd answer) = users w
  /\ bookings (snd answer) = bookings w
  /\ vehicles (snd answer) = vehicles w.
Proof.
  intros Hfresh answer. subst answer. rewrite createTrip_cases.
  unfold Trip_errors, required_value, enum_validator.
  cbn [Trip.d_tripId Trip.d_vehicleId Trip.d_driverId Trip.d_status].
  assert (Hex : existsb (fun t => String.eqb (Trip.tripId t)
                                             ("FLT-" ++ dec (now e)))
                        (trips w) = false).
  { apply existsb_absent. intros t Ht. apply String.eqb_neq.
    now apply Hfresh. }
  rewrite Hex.
  split; [|split].
  - intros v d -> ->. cbn.
    split; [reflexivity|]. split; [reflexivity|].
    eexists. split; [reflexivity|]. repeat split.
  - intros [-> | ->]; destruct (tb_vehicleId b), (tb_driverId b); cbn;
      repeat split.
  - destruct (tb_vehicleId b), (tb_driverId b); cbn; repeat split.
Qed.

(** X19.  A trip code is ["FLT-"] followed by the clock reading, so right
    after a trip has been created a second request at the same millisecond
    is answered 500 and stored nowhere, whatever its body. *)
Theorem createTrip_collision (e : Env) (b b' : TripBody) (w : World) :
  status (fst (createTrip e b w)) = 201 ->
  let w1 := snd (createTrip e b w) in
  status (fst (createTrip e b' w1)) = 500
  /\ trips (snd (createTrip e b' w1)) = trips w1.
Proof.
  intros Hfirst w1. subst w1. revert Hfirst.
  rewrite (createTrip_cases e b w).
  destruct (Trip_errors _); [|discriminate].
  destruct (existsb _ (trips w)); [discriminate|]. intros _.
  rewrite (createTrip_cases e b').
  destruct (Trip_errors _); [|split; reflexivity].
  cbn [snd trips with_trips logged fresh Trip.d_tripId].
  rewrite existsb_app. cbn [existsb Trip.tripId Trip_of_draft Trip.d_tripId].
  rewrite String.eqb_refl, orb_true_r. split; reflexivity.
Qed.

(** X20.  [updateTripStatus] overwrites the status, the fuel and the
    distance of the trip with the values the body gives and keeps those it
    leaves out; reading the trip back gives the updated trip and every other
    trip is as before.  For an id no trip has, the answer is 404 and the
    collection is unchanged. *)
Theorem updateTripStatus_effect
        (id : ObjectId) (b : TripStatusBody) (w : World) :
  let answer := updateTripStatus id b w in
  (forall t,
      find (fun x => oid_eqb (Trip._id x) id) (trips w) = Some t ->
      let t' := Trip_set (ts_status b) (ts_fuelUsed b) (ts_distance b) t in
      status (fst answer) = 200
      /\ find (fun x => oid_eqb (Trip._id x) id) (trips (snd answer)) = Some t'
      /\ Trip.status t' = or_keep (ts_status b) (Trip.status t)
      /\ Trip.fuelUsed t' = or_keep_opt (ts_fuelUsed b) (Trip.fuelUsed t)
      /\ Trip.distance t' = or_keep_opt (ts_distance b) (Trip.distance t)
      /\ forall id', id' <> id ->
           find (fun x => oid_eqb (Trip._id x) id') (trips (snd answer))
           = find (fun x => oid_eqb (Trip._id x) id') (trips w))
  /\ (find (fun x => oid_eqb (Trip._id x) id) (trips w) = None ->
      fst answer = mkResponse 404 (error_body "Trip not found")
      /\ trips (snd answer) = trips w).
Proof.
  intro answer. subst answer.
  unfold updateTripStatus, try_catch, Trip_findByIdAndUpdate.
  unfold bind, query, getTripsColl, putTrips, ret.
  cbn [trips logged].
  destruct (find _ (trips w)) as [t|] eqn:Hfind;
    cbn [fst snd status trips with_trips logged].
  - split; [|discriminate]. intros t0 Ht0. inversion Ht0; subst t0.
    split; [reflexivity|]. split.
    { apply find_update_first_same; [|exact Hfind]. intro y. reflexivity. }
    split; [reflexivity|]. split; [reflexivity|]. split; [reflexivity|].
    intros id' Hne. apply find_update_first_other.
    + intro y. reflexivity.
    + intros y Hy. apply N.eqb_eq in Hy. apply N.eqb_neq. congruence.
  - split; [discriminate|]. intros _. split; reflexivity.
Qed.

Lemma createTrip_lenient_witness :
  status (fst (createTrip (at_time 9000) ghost_trip fleet_world)) = 201
  /\ find (fun v => oid_eqb (Vehicle._id v) 901%N) (vehicles fleet_world)
     = None.
Proof.
  split; [|reflexivity].
  refine (proj1 (proj1 (createTrip_lenient (at_time 9000) ghost_trip
                          fleet_world _) 901%N 902%N eq_refl eq_refl)).
  intros t [<- | []]. discriminate.
Defined.

Lemma createTrip_collision_witness :
  status (fst (createTrip (at_time 9000) ghost_trip
                 (snd (createTrip (at_time 9000) ghost_trip fleet_world))))
  = 500.
Proof.
  exact (proj1 (createTrip_collision (at_time 9000) ghost_trip ghost_trip
                  fleet_world eq_refl)).
Defined.

Lemma updateTripStatus_effect_witness :
  let b := {| ts_status := Some "completed"; ts_fuelUsed := None;
              ts_distance := Some 3950 |} in
  find (fun x => oid_eqb (Trip._id x) 30%N)
       (trips (snd (updateTripStatus 30%N b fleet_world)))
  = Some (Trip_set (Some "completed") None (Some 3950) voyage)
  /\ Trip.fuelUsed (Trip_set (Some "completed") None (Some 3950) voyage)
     = Some 2500.
Proof.
  intro b. split; [|reflexivity].
  exact (proj1 (proj2 (proj1 (updateTripStatus_effect 30%N b fleet_world)
                             voyage eq_refl))).
Defined.

(* ================================================================== *)
(** ** Vehicles *)

(** X21.  [updateVehicleStatus] takes any status string, from any status,
    declared in the schema or not, and a location when one is given;
    reading the vehicle back gives the update.  For an id no vehicle has,
    the answer is 404 and the collection is unchanged. *)
Theorem updateVehicleStatus_effect
        (id : ObjectId) (b : VehicleStatusBody) (w : World) :
  let answer := updateVehicleStatus id b w in
  (forall v,
      find (fun x => oid_eqb (Vehicle._id x) id) (vehicles w) = Some v ->
      let v' := Vehicle_set (vs_status b) (vs_currentLocation b) v in
      status (fst answer) = 200
      /\ find (fun x => oid_eqb (Vehicle._id x) id) (vehicles (snd answer))
         = Some v'
      /\ Vehicle.status v' = or_keep (vs_status b) (Vehicle.status v)
      /\ Vehicle.currentLocation v'
         = or_keep_opt (vs_currentLocation b) (Vehicle.currentLocation v)
      /\ fleet_entry v' = fleet_entry v)
  /\ (find (fun x => oid_eqb (Vehicle._id x) id) (vehicles w) = None ->
      fst answer = mkResponse 404 (error_body "Vehicle not found")
      /\ vehicles (snd answer) = vehicles w).
Proof.
  intro answer. subst answer.
  unfold updateVehicleStatus, try_catch, Vehicle_findByIdAndUpdate.
  unfold bind, query, getVehiclesColl, putVehicles, ret.
  cbn [vehicles logged].
  destruct (find _ (vehicles w)) as [v|] eqn:Hfind;
    cbn [fst snd status vehicles with_vehicles logged].
  - split; [|discriminate]. intros v0 Hv0. inversion Hv0; subst v0.
    split; [reflexivity|]. split.
    { apply find_update_first_same; [|exact Hfind]. intro y. reflexivity. }
    repeat split.
  - split; [discriminate|]. intros _. split; reflexivity.
Qed.

Lemma updateVehicleStatus_effect_witness :
  let b := {| vs_status := Some "sold"; vs_currentLocation := None |} in
  member "sold" Vehicle.statuses = false
  /\ find (fun x => oid_eqb (Vehicle._id x) 20%N)
          (vehicles (snd (updateVehicleStatus 20%N b fleet_world)))
     = Some (Vehicle_set (Some "sold") None freighter).
Proof.
  intro b. split; [reflexivity|].
  exact (proj1 (proj2 (proj1 (updateVehicleStatus_effect 20%N b fleet_world)
                             freighter eq_refl))).
Defined.

Section Fleet.

Variable jwt_encode : Jws -> string.
Variable jwt_decode : string -> option Jws.
Variable bcrypt_digest : string -> string -> string.
Variable bcrypt_matches : string -> string -> bool.
Variable config : Config.

Lemma app_fleet (e : Env) (req : HttpRequest) (w : World) :
  map fleet_entry
      (vehicles (snd (app jwt_encode jwt_decode bcrypt_digest bcrypt_matches
                          config e req w)))
  = map fleet_entry (vehicles w).
Proof.
  unfold app.
  destruct (bodyParseError req); [reflexivity|].
  assert (Hprot : forall handler,
             (forall u, map fleet_entry (vehicles (snd (handler u w)))
                        = map fleet_entry (vehicles w)) ->
             map fleet_entry
                 (vehicles (snd (protected jwt_decode config e req handler w)))
             = map fleet_entry (vehicles w)).
  { intros handler Hh. unfold protected.
    pose proof (gate_keeps_world jwt_decode config e req w) as Hw.
    destruct (authenticateToken jwt_decode config e req w) as [[r|u] w'];
      simpl in Hw; subst w'; [reflexivity | apply Hh]. }
  destruct (target req); try (apply Hprot; intro u);
    lazymatch goal with
    | |- context [updateVehicleStatus] =>
        unfold updateVehicleStatus, try_catch, Vehicle_findByIdAndUpdate;
        unfold bind, query, getVehiclesColl, putVehicles, ret;
        cbn [vehicles logged];
        destruct (find _ (vehicles w)); [|reflexivity];
        cbn [snd vehicles with_vehicles logged];
        apply update_first_map; intro x; reflexivity
    | |- context [snd (_, _)] => reflexivity
    | |- _ =>
        f_equal; apply (preserves_try_catch vehicles);
        unfold_ops; try unfold bcrypt_hash; try unfold bcrypt_compare;
        preserved
    end.
Qed.

(** X22.  The server has no route that adds or removes a vehicle: after any
    sequence of requests the fleet is the same list of vehicles, each with
    the id, fleet code, type, model, capacity and assigned driver it had;
    only statuses and locations can differ. *)
Theorem fleet_is_fixed (reqs : list (Env * HttpRequest)) (w : World) :
  map fleet_entry
      (vehicles (serve jwt_encode jwt_decode bcrypt_digest bcrypt_matches
                       config reqs w))
  = map fleet_entry (vehicles w).
Proof.
  revert w. induction reqs as [|[e req] reqs IH]; intro w; [reflexivity|].
  simpl. rewrite IH. apply app_fleet.
Qed.

End Fleet.

(* ================================================================== *)
(** ** The dashboard *)



(* ================================================================== *)
(** ** From a token to a session *)

Lemma bearer_token (t : string) :
  contains " " t = false ->
  nth_error (split_on " " ("Bearer " ++ t)) 1 = Some t.
Proof.
  intro Ht.
  replace ("Bearer " ++ t) with ("Bearer" ++ String " " (t ++ "")).
  - apply second_field; auto.
  - simpl. do 7 f_equal. clear. induction t; simpl; congruence.
Qed.

Section Sessions.

Variable jwt_encode : Jws -> string.
Variable jwt_decode : string -> option Jws.
Variable bcrypt_digest : string -> string -> string.
Variable bcrypt_matches : string -> string -> bool.
Variable config : Config.

(** X24.  The token [register] and [login] issue for an identity opens the
    gate for that identity: sent as [Bearer <token>] while the clock, in
    seconds, is below the expiry, it makes the gate call the controller with
    the id, email and role the identity had when the token was issued;
    from the expiry on the gate answers 403.  The store plays no part. *)
Theorem issued_token_authenticates
        (e e' : Env) (u : User.t) (req : HttpRequest) (w : World) :
  let token := issue jwt_encode config e u in
  let signed := stamp (User._id u) (User.email u) (User.role u) ms_24h (now e) in
  jwt_decode token = Some {| payload := signed; signedWith := jwtSecret config |} ->
  contains " " token = false ->
  token <> "" ->
  authorization req = Some ("Bearer " ++ token) ->
  (now e' / 1000 < now e / 1000 + 86400 ->
   authenticateToken jwt_decode config e' req w = (Next signed, w)
   /\ Token.userId signed = User._id u
   /\ Token.email signed = User.email u
   /\ Token.role signed = User.role u)
  /\ (now e / 1000 + 86400 <= now e' / 1000 ->
      authenticateToken jwt_decode config e' req w
      = (Rejected (mkResponse 403 (error_body "Invalid or expired token")), w)).
Proof.
  intros token signed Hdec Hsp Hne Hh.
  assert (Hgate : authenticateToken jwt_decode config e' req w
                  = (verified jwt_decode config e' token, w)).
  { apply (gate_with_token _ _ _ _ _ _ token Hh); auto.
    - discriminate.
    - now apply bearer_token. }
  rewrite Hgate. unfold verified.
  rewrite (jwt_verify_signed jwt_decode token (jwtSecret config) _ (now e')
             Hdec eq_refl).
  cbn [payload]. subst signed. rewrite stamp_exp.
  split; intro H.
  - destruct (Z.leb_spec (now e / 1000 + 86400) (now e' / 1000)); [lia|].
    repeat split.
  - destruct (Z.leb_spec (now e / 1000 + 86400) (now e' / 1000)); [|lia].
    reflexivity.
Qed.

(** X25.  Registration doubles as login: the token in the answer of a
    successful [register], presented to [GET /api/auth/profile] before it
    expires, gets 200 with the profile just created, role ["user"] when
    none was asked for, and without the password. *)
Theorem register_then_profile
        (e e' : Env) (b : RegisterBody) (w : World) (n pw token : string)
        (req : HttpRequest) :
  r_name b = Some n -> n <> "" -> r_email b <> "" ->
  r_password b = Some pw -> r_role b = None ->
  (forall x, In x (users w) -> User.email x <> r_email b) ->
  (forall x, In x (users w) -> User._id x <> nextId w) ->
  let registered := register jwt_encode bcrypt_digest config e b w in
  field "token" (body (fst registered)) = Some (JStr token) ->
  jwt_decode token
  = Some {| payload := stamp (nextId w) (r_email b) "user" ms_24h (now e);
            signedWith := jwtSecret config |} ->
  contains " " token = false -> token <> "" ->
  now e' / 1000 < now e / 1000 + 86400 ->
  bodyParseError req = None -> target req = GetProfile ->
  authorization req = Some ("Bearer " ++ token) ->
  let answer := app jwt_encode jwt_decode bcrypt_digest bcrypt_matches config
                    e' req (snd registered) in
  status (fst registered) = 201
  /\ status (fst answer) = 200
  /\ field "email" (body (fst answer)) = Some (JStr (r_email b))
  /\ field "name" (body (fst answer)) = Some (JStr n)
  /\ field "role" (body (fst answer)) = Some (JStr "user")
  /\ field "password" (body (fst answer)) = None.
Proof.
  intros Hn Hne Hmail Hpw Hrole Hfresh Hid registered.
  subst registered.
  rewrite (register_new_email jwt_encode bcrypt_digest config e b w n pw
             Hn Hne Hmail Hpw Hfresh).
  rewrite Hrole. cbn [or_keep].
  change (member "user" User.roles) with true. cbv iota.
  cbn [fst snd status body].
  intros Htoken Hdec Hsp Htne Htime Hbody Htarget Hh. cbv zeta.
  clear Htoken.
  unfold app. rewrite Hbody, Htarget. unfold protected.
  assert (Hgate : forall w',
             authenticateToken jwt_decode config e' req w'
             = (verified jwt_decode config e' token, w')).
  { intro w'. apply (gate_with_token _ _ _ _ _ _ token Hh); auto.
    - discriminate.
    - now apply bearer_token. }
  rewrite Hgate. unfold verified.
  rewrite (jwt_verify_signed jwt_decode token (jwtSecret config) _ (now e')
             Hdec eq_refl).
  cbn [payload]. rewrite stamp_exp.
  destruct (Z.leb_spec (now e / 1000 + 86400) (now e' / 1000)); [lia|].
  unfold getProfile, try_catch, User_findById.
  unfold bind, query, getUsers, ret.
  cbn [users with_users logged fresh Token.userId stamp].
  rewrite find_app_absent.
  - split; [reflexivity|]. split; [reflexivity|].
    unfold User_json. cbn [User._id User.name User.email User.role
                           User.phone User.address User.createdAt
                           User.lastLogin].
    destruct (r_phone b), (r_address b); repeat split.
  - apply find_absent. intros x Hx. apply N.eqb_neq. now apply Hid.
  - apply N.eqb_refl.
Qed.

End Sessions.

Lemma issued_token_authenticates_witness :
  authenticateToken demo_decode demo_config (at_time 9000)
    (mkRequest (Some ("Bearer " ++ issue demo_encode demo_config
                                         (at_time 8000) alice))
               None GetBookings)
    small_world
  = (Next (stamp 1%N "a@x.com" "user" ms_24h 8000), small_world).
Proof.
  refine (proj1 (proj1 (issued_token_authenticates demo_encode demo_decode
                          demo_config (at_time 8000) (at_time 9000) alice
                          (mkRequest
                             (Some ("Bearer " ++ issue demo_encode demo_config
                                                       (at_time 8000) alice))
                             None GetBookings)
                          small_world eq_refl eq_refl _ eq_refl) _)).
  - discriminate.
  - reflexivity.
Defined.

Lemma register_then_profile_witness :
  let registered := register demo_encode demo_digest demo_config
                             (at_time 9000) (carol_body None) small_world in
  let token := jwt_sign demo_encode 8%N "c@x.com" "user"
                        (jwtSecret demo_config) ms_24h 9000 in
  status (fst (app demo_encode demo_decode demo_digest demo_matches
                   demo_config (at_time 9500)
                   (mkRequest (Some ("Bearer " ++ token)) None GetProfile)
                   (snd registered))) = 200.
Proof.
  intros registered token.
  refine (proj1 (proj2 (register_then_profile demo_encode demo_decode
                          demo_digest demo_matches demo_config
                          (at_time 9000) (at_time 9500) (carol_body None)
                          small_world "Carol" "pw3" token
                          (mkRequest (Some ("Bearer " ++ token)) None
                                     GetProfile)
                          eq_refl _ _ eq_refl eq_refl _ _ eq_refl eq_refl
                          eq_refl _ _ eq_refl eq_refl eq_refl))).
  - discriminate.
  - discriminate.
  - intros x [<- | [<- | []]]; discriminate.
  - intros x [<- | [<- | []]]; discriminate.
  - discriminate.
  - reflexivity.
Defined.

(* ================================================================== *)
(** * Failures of the main server *)

Section FailureShape.

Variable jwt_encode : Jws -> string.
Variable jwt_decode : string -> option Jws.
Variable bcrypt_digest : string -> string -> string.
Variable bcrypt_matches : string -> string -> bool.
Variable config : Config.

(** X26.  Whatever the request and the store, a response of the server
    with status 400 or above is a JSON object with an [error] property
    holding a string: the rejections of the gate, the 400s and 404s of the
    controllers, their [catch] blocks, the error middleware and the
    fallback for unknown routes all have this shape. *)
Theorem failures_have_error_string
        (e : Env) (req : HttpRequest) (w : World) :
  400 <= status (fst (app jwt_encode jwt_decode bcrypt_digest bcrypt_matches
                          config e req w)) ->
  exists msg,
    field "error"
          (body (fst (app jwt_encode jwt_decode bcrypt_digest bcrypt_matches
                          config e req w)))
    = Some (JStr msg).
Proof. exact (app_failures_named _ _ _ _ config e req w). Qed.

End FailureShape.

Lemma failures_have_error_string_witness :
  exists msg,
    field "error"
          (body (fst (app demo_encode demo_decode demo_digest demo_matches
                          demo_config (at_time 9000)
                          (mkRequest None None (GetBookingById 7%N))
                          small_world)))
    = Some (JStr msg).
Proof.
  apply (failures_have_error_string demo_encode demo_decode demo_digest
           demo_matches demo_config (at_time 9000)
           (mkRequest None None (GetBookingById 7%N)) small_world).
  vm_compute. discriminate.
Defined.

(* ================================================================== *)
(** * The mock server *)

Lemma mock_get_set_same (k : string) (v : option json) (o : Mock.object) :
  Mock.get k (Mock.set k v o) = v.
Proof.
  unfold Mock.get. induction o as [|[k' v'] o IH]; simpl.
  - now rewrite String.eqb_refl.
  - destruct (String.eqb k' k) eqn:Hk; simpl.
    + rewrite String.eqb_sym, Hk. reflexivity.
    + rewrite String.eqb_sym, Hk. exact IH.
Qed.

Lemma mock_get_set_other (k k' : string) (v : option json) (o : Mock.object) :
  k' <> k -> Mock.get k' (Mock.set k v o) = Mock.get k' o.
Proof.
  intro Hne. unfold Mock.get. induction o as [|[k0 v0] o IH]; simpl.
  - apply String.eqb_neq in Hne. now rewrite Hne.
  - destruct (String.eqb k0 k) eqn:Hk; simpl.
    + apply String.eqb_eq in Hk. subst k0.
      apply String.eqb_neq in Hne. now rewrite Hne.
    + destruct (String.eqb k' k0); [reflexivity | exact IH].
Qed.

Lemma mock_get_spread (k : string) (body : list (string * json))
      (o : Mock.object) :
  NoDup (map fst body) ->
  Mock.get k (Mock.spread body o)
  = match assoc k body with
    | Some v => Some v
    | None => Mock.get k o
    end.
Proof.
  unfold Mock.spread. revert o.
  induction body as [|[k1 v1] body IH]; intros o Hnd; [reflexivity|].
  inversion Hnd as [|? ? Hnotin Hnd']; subst. simpl.
  rewrite (IH _ Hnd').
  destruct (String.eqb_spec k k1) as [-> | Hne].
  - assert (Hnone : assoc k1 body = None).
    { clear -Hnotin. induction body as [|[k2 v2] body IH]; [reflexivity|].
      simpl in *. destruct (String.eqb_spec k1 k2) as [-> | _].
      - exfalso. apply Hnotin. now left.
      - apply IH. intro H. apply Hnotin. now right. }
    rewrite Hnone. apply mock_get_set_same.
  - destruct (assoc k body); [reflexivity|].
    now apply mock_get_set_other.
Qed.

Lemma mock_is_string_iff (v : option json) (s : string) :
  Mock.is_string v s = true <-> v = Some (JStr s).
Proof.
  unfold Mock.is_string. destruct v as [[| | | |s'| |]|];
    try (split; discriminate).
  rewrite String.eqb_eq. split; [now intros -> | now intros [= ->]].
Qed.

(** X27.  The mock login knows one account: it answers 200 exactly when
    [email] and [password] are the two hard-wired strings, and 400
    ["Invalid credentials"] for every other body, a missing or non-string
    property included. *)
Theorem mock_login_one_account (body : list (string * json)) :
  (status (Mock.login body) = 200
   <-> assoc "email" body = Some (JStr "norrisfrankmeyo@gmail.com")
       /\ assoc "password" body = Some (JStr "password123"))
  /\ (status (Mock.login body) <> 200 ->
      Mock.login body = mkResponse 400 (error_body "Invalid credentials")).
Proof.
  unfold Mock.login.
  pose proof (mock_is_string_iff (assoc "email" body)
                                 "norrisfrankmeyo@gmail.com") as He.
  pose proof (mock_is_string_iff (assoc "password" body) "password123") as Hp.
  destruct (Mock.is_string (assoc "email" body) _);
    destruct (Mock.is_string (assoc "password" body) _);
    cbn [andb status Mock.ok]; split;
    try (split; [discriminate | intros [H1 H2]]);
    try reflexivity.
  - split; [intros _; split; [now apply He | now apply Hp] | reflexivity].
  - intro H. now contradiction H.
  - apply Hp in H2. discriminate.
  - apply He in H1. discriminate.
  - apply He in H1. discriminate.
Qed.

(** X28.  A booking posted to the mock server always starts with status
    ["pending"] and the time of the request as [createdAt], whatever the
    body says of them; every other property of the body is kept as sent,
    [_id] and [airwayBill] included, which replace the generated ones.  The
    booking is appended to the list and the dashboard statistics stay what
    they were. *)
Theorem mock_createBooking_properties
        (now_ms : Z) (sent : list (string * json)) (d : Mock.Data) :
  NoDup (map fst sent) ->
  exists booking,
    snd (Mock.createBooking now_ms sent d)
    = Mock.with_bookings (Mock.bookings d ++ [booking]) d
    /\ field "booking" (body (fst (Mock.createBooking now_ms sent d)))
       = Some (Mock.to_json booking)
    /\ Mock.get "status" booking = Some (JStr "pending")
    /\ Mock.get "createdAt" booking = Some (JNum now_ms)
    /\ (forall k v, k <> "status" -> k <> "createdAt" ->
                    assoc k sent = Some v -> Mock.get k booking = Some v)
    /\ (assoc "_id" sent = None ->
        Mock.get "_id" booking = Some (JStr (dec now_ms)))
    /\ (assoc "airwayBill" sent = None ->
        Mock.get "airwayBill" booking = Some (JStr ("AWB" ++ dec now_ms)))
    /\ Mock.stats (snd (Mock.createBooking now_ms sent d)) = Mock.stats d.
Proof.
  intro Hnd. unfold Mock.createBooking. eexists.
  split; [reflexivity|]. split; [reflexivity|]. split.
  { rewrite mock_get_set_other by discriminate. apply mock_get_set_same. }
  split; [apply mock_get_set_same|]. split.
  { intros k v Hs Hc Hk.
    rewrite !mock_get_set_other by assumption.
    rewrite (mock_get_spread _ _ _ Hnd), Hk. reflexivity. }
  split; [|split; [|reflexivity]]; intro Hnone;
    rewrite !mock_get_set_other by discriminate;
    rewrite (mock_get_spread _ _ _ Hnd), Hnone; reflexivity.
Qed.

(** X29.  A status update on the mock server changes the booking held in
    the list itself: after a 200 the first booking with that [_id] has the
    status of the body and its other properties as before, and it is what
    the next [GET /api/bookings] shows.  When no booking has the [_id] the
    answer is 404 and the data is untouched. *)
Theorem mock_updateBookingStatus_effect
        (now_ms : Z) (id : string) (body : list (string * json))
        (d : Mock.Data) :
  let same_id := fun b => Mock.is_string (Mock.get "_id" b) id in
  let answer := Mock.updateBookingStatus id body d in
  (forall b,
      find same_id (Mock.bookings d) = Some b ->
      let b' := Mock.set "status" (assoc "status" body) b in
      status (fst answer) = 200
      /\ find same_id (Mock.bookings (snd answer)) = Some b'
      /\ Mock.get "status" b' = assoc "status" body
      /\ (forall k, k <> "status" -> Mock.get k b' = Mock.get k b)
      /\ fst (Mock.app now_ms Mock.GetBookings (snd answer))
         = mkResponse 200
             (JArr (map Mock.to_json
                        (update_first same_id
                           (Mock.set "status" (assoc "status" body))
                           (Mock.bookings d)))))
  /\ (find same_id (Mock.bookings d) = None ->
      answer = (mkResponse 404 (error_body "Booking not found"), d)).
Proof.
  intros same_id answer. subst answer. unfold Mock.updateBookingStatus.
  fold same_id.
  destruct (find same_id (Mock.bookings d)) as [b|] eqn:Hfind.
  - split; [|discriminate]. intros b0 Hb0. inversion Hb0; subst b0.
    cbn [fst snd status Mock.ok Mock.bookings Mock.with_bookings].
    split; [reflexivity|]. split.
    { apply find_update_first_same; [|exact Hfind].
      intro y. unfold same_id.
      now rewrite mock_get_set_other by discriminate. }
    split; [apply mock_get_set_same|]. split.
    { intros k Hk. now apply mock_get_set_other. }
    reflexivity.
  - split; [discriminate|]. reflexivity.
Qed.

(** X30.  The statistics, trips and vehicles of the mock server are fixed
    data: no request changes them, so [GET /api/dashboard/stats] answers
    the same totals after any sequence of requests, however many bookings
    were posted meanwhile; and no request removes a booking. *)
Theorem mock_stats_static (reqs : list (Z * Mock.Route)) (d : Mock.Data)
        (t : Z) :
  Mock.app t Mock.GetStats (Mock.serve reqs d)
  = (mkResponse 200 (Mock.stats d), Mock.serve reqs d)
  /\ Mock.trips (Mock.serve reqs d) = Mock.trips d
  /\ Mock.vehicles (Mock.serve reqs d) = Mock.vehicles d
  /\ (List.length (Mock.bookings d)
      <= List.length (Mock.bookings (Mock.serve reqs d)))%nat.
Proof.
  assert (Hstep : forall t' r d',
             Mock.stats (snd (Mock.app t' r d')) = Mock.stats d'
             /\ Mock.trips (snd (Mock.app t' r d')) = Mock.trips d'
             /\ Mock.vehicles (snd (Mock.app t' r d')) = Mock.vehicles d'
             /\ (List.length (Mock.bookings d')
                 <= List.length (Mock.bookings (snd (Mock.app t' r d'))))%nat).
  { intros t' r d'. destruct r; cbn [Mock.app snd]; try (repeat split; lia).
    - unfold Mock.createBooking. cbn. rewrite length_app. cbn.
      repeat split; lia.
    - unfold Mock.updateBookingStatus.
      destruct (find _ (Mock.bookings d')); cbn; [|repeat split; lia].
      repeat split.
      assert (Hlen : forall (p : Mock.object -> bool) f (l : list Mock.object),
                 List.length (update_first p f l) = List.length l).
      { intros p f l. induction l as [|a l IH]; simpl; [reflexivity|].
        destruct (p a); simpl; [reflexivity | now rewrite IH]. }
      rewrite Hlen. lia. }
  revert d. induction reqs as [|[t' r] reqs IH]; intro d.
  - repeat split. cbn. lia.
  - cbn [Mock.serve].
    destruct (IH (snd (Mock.app t' r d))) as (H1 & H2 & H3 & H4).
    destruct (Hstep t' r d) as (S1 & S2 & S3 & S4).
    cbn [Mock.app] in *. rewrite S1 in H1. rewrite H2, H3, S2, S3.
    repeat split; [exact H1 | lia].
Qed.

Lemma mock_createBooking_properties_witness :
  exists booking,
    snd (Mock.createBooking 9000
           [("status", JStr "delivered"); ("_id", JStr "mine")] Mock.mockData)
    = Mock.with_bookings (Mock.bookings Mock.mockData ++ [booking])
                         Mock.mockData
    /\ Mock.get "status" booking = Some (JStr "pending")
    /\ Mock.get "_id" booking = Some (JStr "mine").
Proof.
  destruct (mock_createBooking_properties 9000
              [("status", JStr "delivered"); ("_id", JStr "mine")]
              Mock.mockData)
    as (booking & Hd & _ & Hs & _ & Hkeep & _).
  - repeat constructor; simpl; intuition discriminate.
  - exists booking. split; [exact Hd|]. split; [exact Hs|].
    apply Hkeep; [discriminate | discriminate | reflexivity].
Defined.
